(** * Bird-Migration-tracker: tables, processing steps and the distance helper

    A shallow embedding of the Python sources
    - [src/migration_tracker/data.py]      (DataLoader, DataProcessor)
    - [src/migration_tracker/analysis.py]  (MigrationAnalyzer)
    - [src/migration_tracker/utils.py]     (optimize_dtypes, calculate_migration_metrics)
    - [scripts/analyze_migration_data_enhanced.py] (calculate_distance)

    Python objects live in a store: a DataFrame variable is a location, [df.copy()]
    allocates, [df[col] = v] and [df.columns = v] write in place.  Exceptions are
    values of the result type.  Calls into pandas are given by their documented
    behaviour on typed columns; calls whose result is a floating-point or
    statistical computation (scipy, scikit-learn, date parsing) are parameters of
    the sections that use them. *)

From Stdlib Require Import Reals Lra Machin.
From Stdlib Require Import Ascii String QArith Qcanon.
From stdpp Require Import base decidable option list numbers strings gmap pretty sorting.

(** ** Python values *)

(** A Python [str] is a sequence of Unicode code points. *)
Abbreviation str := (list N).

Definition lit (s : string) : str :=
  Ascii.N_of_ascii <$> String.list_ascii_of_string s.

Inductive exn :=
| KeyError (key : str)
| ValueError
| TypeError
| AttributeError
| ZeroDivisionError
| FileNotFoundError (path : str)
| EmptyDataError
| ParserError.

Inductive result (A : Type) :=
| Ok (a : A)
| Raise (e : exn).
Arguments Ok {A} a.
Arguments Raise {A} e.

(** A float is a rational, an infinity or NaN.  Only comparisons and [abs] are
    computed on floats here, and these are exact; every rounding operation is
    left to the library parameters. *)
Inductive pyfloat :=
| Fin (q : Qc)
| PInf
| NInf
| NaN.

(** [float(z)] for a small integer [z]. *)
Definition float_of_Z (z : Z) : pyfloat := Fin (Qc_of_Z z).

Definition isnan (x : pyfloat) : bool :=
  match x with NaN => true | _ => false end.

(** [x < y] on floats: false as soon as one side is NaN. *)
Definition float_lt (x y : pyfloat) : bool :=
  match x, y with
  | NaN, _ | _, NaN => false
  | _, NInf => false
  | NInf, _ => true
  | PInf, _ => false
  | Fin _, PInf => true
  | Fin a, Fin b => bool_decide (a < b)%Qc
  end.

(** [x <= y] on floats. *)
Definition float_le (x y : pyfloat) : bool :=
  match x, y with
  | NaN, _ | _, NaN => false
  | NInf, _ => true
  | _, PInf => true
  | _, NInf => false
  | PInf, _ => false
  | Fin a, Fin b => bool_decide (a ≤ b)%Qc
  end.

Definition float_abs (x : pyfloat) : pyfloat :=
  match x with
  | Fin q => Fin (if bool_decide (q < 0)%Qc then - q else q)%Qc
  | PInf | NInf => PInf
  | NaN => NaN
  end.

(** ** Columns and tables *)

Inductive int_width := W8 | W16 | W32 | W64.
Inductive float_width := F32 | F64.

Inductive dtype :=
| int_ (w : int_width)
| float_ (w : float_width)
| bool_
| object_
| category
| datetime64.

(** A column (pandas Series without its index) is typed.  Object and category
    columns hold strings or a missing value, as a text column read from a CSV
    file does; a datetime column holds nanoseconds since the epoch or NaT. *)
Inductive column :=
| IntCol (w : int_width) (xs : list Z)
| FloatCol (w : float_width) (xs : list pyfloat)
| BoolCol (xs : list bool)
| ObjectCol (xs : list (option str))
| CategoryCol (xs : list (option str))
| DatetimeCol (xs : list (option Z)).

Inductive cell :=
| CInt (z : Z)
| CFloat (x : pyfloat)
| CBool (b : bool)
| CStr (s : str)
| CTime (t : Z)
| CMissing.

Definition dtype_of (c : column) : dtype :=
  match c with
  | IntCol w _ => int_ w
  | FloatCol w _ => float_ w
  | BoolCol _ => bool_
  | ObjectCol _ => object_
  | CategoryCol _ => category
  | DatetimeCol _ => datetime64
  end.

Definition cells (c : column) : list cell :=
  match c with
  | IntCol _ xs => CInt <$> xs
  | FloatCol _ xs => CFloat <$> xs
  | BoolCol xs => CBool <$> xs
  | ObjectCol xs | CategoryCol xs => from_option CStr CMissing <$> xs
  | DatetimeCol xs => from_option CTime CMissing <$> xs
  end.

(** [isnull] of one cell: None, NaT and NaN are missing. *)
Definition cell_isnull (v : cell) : bool :=
  match v with
  | CMissing => true
  | CFloat x => isnan x
  | _ => false
  end.

(** A DataFrame: row labels and labelled columns.  Labels may repeat. *)
Record DataFrame := mkDataFrame {
  index : list Z;
  cols : list (str * column)
}.

Definition columns (d : DataFrame) : list str := (cols d).*1.
Definition dtypes (d : DataFrame) : list dtype := dtype_of <$> (cols d).*2.

(** [len(df)] and [df.shape] *)
Definition len (d : DataFrame) : nat := length (index d).
Definition shape (d : DataFrame) : nat * nat := (length (index d), length (cols d)).

(** Every column is as long as the index. *)
Definition wf (d : DataFrame) : Prop :=
  Forall (λ lc, length (cells lc.2) = length (index d)) (cols d).

#[global] Instance exn_eq_dec : EqDecision exn.
Proof. solve_decision. Defined.
#[global] Instance pyfloat_eq_dec : EqDecision pyfloat.
Proof. solve_decision. Defined.
#[global] Instance int_width_eq_dec : EqDecision int_width.
Proof. solve_decision. Defined.
#[global] Instance float_width_eq_dec : EqDecision float_width.
Proof. solve_decision. Defined.
#[global] Instance dtype_eq_dec : EqDecision dtype.
Proof. solve_decision. Defined.
#[global] Instance cell_eq_dec : EqDecision cell.
Proof. solve_decision. Defined.
#[global] Instance column_eq_dec : EqDecision column.
Proof. solve_decision. Defined.

(** ** pandas on table values *)

(** Boolean indexing [xs[mask]]: the positions where the mask is true. *)
Fixpoint mfilter {A} (m : list bool) (xs : list A) : list A :=
  match m, xs with
  | b :: m', x :: xs' => if b then x :: mfilter m' xs' else mfilter m' xs'
  | _, _ => []
  end.

(** Positional selection [xs.take(idx)]. *)
Definition mtake {A} (idx : list nat) (xs : list A) : list A :=
  omap (λ i, xs !! i) idx.

Definition column_map_rows (f : ∀ A : Type, list A → list A) (c : column) : column :=
  match c with
  | IntCol w xs => IntCol w (f _ xs)
  | FloatCol w xs => FloatCol w (f _ xs)
  | BoolCol xs => BoolCol (f _ xs)
  | ObjectCol xs => ObjectCol (f _ xs)
  | CategoryCol xs => CategoryCol (f _ xs)
  | DatetimeCol xs => DatetimeCol (f _ xs)
  end.

Definition frame_map_rows (f : ∀ A : Type, list A → list A) (d : DataFrame) : DataFrame :=
  {| index := f _ (index d);
     cols := (λ lc, (lc.1, column_map_rows f lc.2)) <$> cols d |}.

(** [df[mask]] *)
Definition frame_filter (m : list bool) : DataFrame → DataFrame :=
  frame_map_rows (λ A, mfilter m).

(** [df.take(idx)] *)
Definition frame_take (idx : list nat) : DataFrame → DataFrame :=
  frame_map_rows (λ A, mtake idx).

(** The rows of a table: the row label and the cells from left to right. *)
Definition rows (d : DataFrame) : list (Z * list cell) :=
  foldr (λ lc acc, zip_with (λ v r, (r.1, v :: r.2)) (cells lc.2) acc)
        ((λ i, (i, [])) <$> index d) (cols d).

(** [df.duplicated()] with the default [keep='first']: a row is marked when an
    earlier row has the same cells (labels are not compared; NaN equals NaN). *)
Fixpoint duplicated_from (seen rs : list (list cell)) : list bool :=
  match rs with
  | [] => []
  | r :: rs' => bool_decide (r ∈ seen) :: duplicated_from (r :: seen) rs'
  end.

Definition duplicated (d : DataFrame) : list bool :=
  duplicated_from [] (rows d).*2.

(** [df.drop_duplicates()]: an empty frame (no column) is returned as it is,
    otherwise the unmarked rows are selected; row labels are kept. *)
Definition frame_drop_duplicates (d : DataFrame) : DataFrame :=
  if bool_decide (cols d = []) then d
  else frame_filter (negb <$> duplicated d) d.

(** [df.dropna()]: the rows without a missing cell. *)
Definition frame_dropna (d : DataFrame) : DataFrame :=
  frame_filter ((λ r, forallb (λ v, negb (cell_isnull v)) r.2) <$> rows d) d.

(** [series.dropna()] *)
Definition column_dropna (c : column) : column :=
  column_map_rows (λ A, mfilter ((λ v, negb (cell_isnull v)) <$> cells c)) c.

(** [df.isnull().sum()]: the number of missing cells of every column. *)
Definition isnull_sum (d : DataFrame) : list (str * nat) :=
  (λ lc, (lc.1, length (filter (λ v, cell_isnull v = true) (cells lc.2)))) <$> cols d.

(** [df[key]] where the caller goes on with a Series.  If the label is
    repeated pandas hands back a sub-frame instead; the callers are written
    for a Series, and that case is the [ValueError] here (pandas raises it
    as soon as the sub-frame is compared or tested). *)
Definition getitem (d : DataFrame) (key : str) : result column :=
  match filter (λ lc, lc.1 = key) (cols d) with
  | [] => Raise (KeyError key)
  | [lc] => Ok lc.2
  | _ => Raise ValueError
  end.

(** [df[key] = c]: overwrite the column(s) labelled [key], or append. *)
Definition setitem (d : DataFrame) (key : str) (c : column) : DataFrame :=
  {| index := index d;
     cols := if bool_decide (key ∈ columns d)
             then (λ lc, if bool_decide (lc.1 = key) then (key, c) else lc) <$> cols d
             else cols d ++ [(key, c)] |}.

(** [df.columns = labels] *)
Definition set_columns (d : DataFrame) (labels : list str) : result DataFrame :=
  if bool_decide (length labels = length (cols d))
  then Ok {| index := index d; cols := zip labels (cols d).*2 |}
  else Raise ValueError.

(** [df.select_dtypes(include=...).columns] *)
Definition select_dtypes (include : dtype → bool) (d : DataFrame) : list str :=
  (filter (λ lc, include (dtype_of lc.2) = true) (cols d)).*1.

(** Fixed-width integers: [np.iinfo(t).min], [np.iinfo(t).max] and the C cast
    that [astype] performs. *)
Definition bits (w : int_width) : Z :=
  match w with W8 => 8 | W16 => 16 | W32 => 32 | W64 => 64 end.

Definition iinfo_min (w : int_width) : Z := - 2 ^ (bits w - 1).
Definition iinfo_max (w : int_width) : Z := 2 ^ (bits w - 1) - 1.

Definition wrap (w : int_width) (z : Z) : Z :=
  (z + 2 ^ (bits w - 1)) `mod` 2 ^ bits w - 2 ^ (bits w - 1).

Definition astype_int (w : int_width) (xs : list Z) : column :=
  IntCol w (wrap w <$> xs).

(** [series.min()] and [series.max()] of an integer column; [None] is the NaN
    that pandas returns for an empty column. *)
Definition series_min (xs : list Z) : option Z :=
  match xs with
  | [] => None
  | x :: xs' => Some (foldr Z.min x xs')
  end.

Definition series_max (xs : list Z) : option Z :=
  match xs with
  | [] => None
  | x :: xs' => Some (foldr Z.max x xs')
  end.

(** [series.nunique()]: distinct values, missing ones not counted. *)
Definition nunique (xs : list (option str)) : nat :=
  length (remove_dups (omap (λ x, x) xs)).

(** ** The store, the log and exceptions *)

Abbreviation loc := positive.

Inductive log_level := INFO | WARNING.

(** The messages the code logs, one constructor per format string. *)
Inductive log_message :=
| MsgLoading (path : str)
| MsgStartCleaning
| MsgRemovedDuplicates (n : nat)
| MsgMissingFound
| MsgMissingIn (col : str) (n : nat)
| MsgStandardized
| MsgConverted (col ty : str)
| MsgCouldNotConvert (col ty : str) (e : exn)
| MsgTrendsCompleted
| MsgCorrelationCompleted
| MsgClusteringCompleted (n_clusters : Z).

(** A CSV file after tokenising: the header line and the data lines, each a
    list of fields; a blank line has no field. *)
Record csv_file := mkCsv {
  header : list str;
  records : list (list str)
}.

(** The state of a random generator, kept opaque. *)
Abbreviation rng_state := N.

(** The state of the threads of the process: which of them runs when, and so
    the order in which a parallel reduction adds its terms; kept opaque. *)
Abbreviation thread_state := N.

Record world := mkWorld {
  heap : gmap loc DataFrame;
  files : gmap str csv_file;
  log : list (log_level * log_message);
  np_random : rng_state;
  threads : thread_state
}.

Definition M (A : Type) : Type := world → result A * world.

#[global] Instance M_ret : MRet M := λ A a w, (Ok a, w).

#[global] Instance M_bind : MBind M := λ A B f m w,
  match m w with
  | (Ok a, w') => f a w'
  | (Raise e, w') => (Raise e, w')
  end.

Definition raise {A} (e : exn) : M A := λ w, (Raise e, w).

Definition lift {A} (r : result A) : M A := λ w, (r, w).

(** [try: m except Exception as e: h e] *)
Definition try_except {A} (m : M A) (h : exn → M A) : M A := λ w,
  match m w with
  | (Ok a, w') => (Ok a, w')
  | (Raise e, w') => h e w'
  end.

Definition when (b : bool) (m : M ()) : M () :=
  if b then m else mret ().

(** [for x in xs: body x] *)
Fixpoint for_each {A} (xs : list A) (body : A → M ()) : M () :=
  match xs with
  | [] => mret ()
  | x :: xs' => body x ;; for_each xs' body
  end.

Definition set_heap (h : gmap loc DataFrame) (w : world) : world :=
  {| heap := h; files := files w; log := log w; np_random := np_random w;
     threads := threads w |}.

Definition add_log (r : log_level * log_message) (w : world) : world :=
  {| heap := heap w; files := files w; log := log w ++ [r]; np_random := np_random w;
     threads := threads w |}.

(** The state of the threads as a parallel computation finds it. *)
Definition get_threads : M thread_state := λ w, (Ok (threads w), w).

Definition logger_info (msg : log_message) : M () :=
  λ w, (Ok (), add_log (INFO, msg) w).

Definition logger_warning (msg : log_message) : M () :=
  λ w, (Ok (), add_log (WARNING, msg) w).

(** A new object gets a location that is not in use. *)
Definition new_frame (d : DataFrame) : M loc := λ w,
  let l := fresh (dom (heap w)) in
  (Ok l, set_heap (<[l := d]> (heap w)) w).

(** Reading through a name that is not bound to a DataFrame is a
    [TypeError]. *)
Definition read (l : loc) : M DataFrame := λ w,
  match heap w !! l with
  | Some d => (Ok d, w)
  | None => (Raise TypeError, w)
  end.

Definition write (l : loc) (d : DataFrame) : M () := λ w,
  (Ok (), set_heap (<[l := d]> (heap w)) w).

(** pandas calls on DataFrame objects *)

Definition df_copy (df : loc) : M loc :=
  d ← read df; new_frame d.

Definition df_len (df : loc) : M nat :=
  d ← read df; mret (len d).

Definition df_columns (df : loc) : M (list str) :=
  d ← read df; mret (columns d).

Definition df_set_columns (df : loc) (labels : list str) : M () :=
  d ← read df; d' ← lift (set_columns d labels); write df d'.

Definition df_getitem (df : loc) (key : str) : M column :=
  d ← read df; lift (getitem d key).

Definition df_setitem (df : loc) (key : str) (c : column) : M () :=
  d ← read df; write df (setitem d key c).

Definition df_drop_duplicates (df : loc) : M loc :=
  d ← read df; new_frame (frame_drop_duplicates d).

Definition df_dropna (df : loc) : M loc :=
  d ← read df; new_frame (frame_dropna d).

Definition df_isnull_sum (df : loc) : M (list (str * nat)) :=
  d ← read df; mret (isnull_sum d).

Definition df_select_dtypes_columns (df : loc) (include : dtype → bool) : M (list str) :=
  d ← read df; mret (select_dtypes include d).

(** ** Python string methods *)

Section Strings.

(** The Unicode database: the full lowercase mapping of the code points from
    128 on, and the Final_Sigma context test on the text before (nearest code
    point first) and after a capital sigma. *)
Variable unicode_lower : N → list N.
Variable final_sigma : str → str → bool.

Definition to_lower_full (c : N) : list N :=
  if bool_decide (65 ≤ c ≤ 90)%N then [(c + 32)%N]
  else if bool_decide (c < 128)%N then [c]
  else unicode_lower c.

Fixpoint lower_from (before s : str) : str :=
  match s with
  | [] => []
  | c :: rest =>
      (if bool_decide (c = 931%N)
       then [if final_sigma before rest then 962%N else 963%N]
       else to_lower_full c) ++ lower_from (c :: before) rest
  end.

(** [s.lower()] *)
Definition str_lower (s : str) : str := lower_from [] s.

End Strings.

(** [s.replace(old, new)] for one-character [old] and [new]. *)
Definition str_replace (old new : N) (s : str) : str :=
  (λ c, if bool_decide (c = old) then new else c) <$> s.

(** [index.str], the string accessor of the labels of a table: pandas
    refuses it with [AttributeError] unless the labels are strings.  The
    labels of a table are strings here, so the labels of a table with a
    column are accepted.  A table without columns stands for
    [pd.DataFrame()], whose labels are a [RangeIndex] of integers: they are
    refused. *)
Definition Index_str (labels : list str) : result (list str) :=
  match labels with
  | [] => Raise AttributeError
  | _ :: _ => Ok labels
  end.

(** ** data.py: DataProcessor *)

Module DataProcessor.
Section DataProcessor.

Variable unicode_lower : N → list N.
Variable final_sigma : str → str → bool.

(** [pd.to_datetime(series)], [pd.to_numeric(series, errors='coerce')] and
    [series.astype('category')]; each returns a Series on the index of its
    argument or raises. *)
Variable to_datetime : column → result column.
Variable to_numeric_coerce : column → result column.
Variable astype_category : column → result column.

Definition clean_migration_data (df : loc) : M loc :=
  logger_info MsgStartCleaning;;
  cleaned_df ← df_copy df;
  initial_rows ← df_len cleaned_df;
  cleaned_df ← df_drop_duplicates cleaned_df;
  remaining ← df_len cleaned_df;
  let duplicates_removed := (initial_rows - remaining)%nat in
  when (bool_decide (0 < duplicates_removed)%nat)
       (logger_info (MsgRemovedDuplicates duplicates_removed));;
  missing_info ← df_isnull_sum cleaned_df;
  when (bool_decide (0 < sum_list missing_info.*2)%nat)
       (logger_info MsgMissingFound;;
        for_each (filter (λ cm, (0 < cm.2)%nat) missing_info)
                 (λ cm, logger_info (MsgMissingIn cm.1 cm.2)));;
  mret cleaned_df.

(** One label through [.str.lower().str.replace(' ', '_').str.replace('-', '_')] *)
Definition standardize_name (name : str) : str :=
  str_replace 45 95 (str_replace 32 95 (str_lower unicode_lower final_sigma name)).

Definition standardize_column_names (df : loc) : M loc :=
  df ← df_copy df;
  labels ← df_columns df;
  labels ← lift (Index_str labels);
  df_set_columns df (standardize_name <$> labels);;
  logger_info MsgStandardized;;
  mret df.

Definition validate_data_types (df : loc) (expected_types : list (str * str)) : M loc :=
  df ← df_copy df;
  for_each expected_types (λ item,
    let col := item.1 in
    let expected_type := item.2 in
    labels ← df_columns df;
    when (bool_decide (col ∈ labels))
      (try_except
         ((if bool_decide (expected_type = lit "datetime") then
             c ← df_getitem df col; v ← lift (to_datetime c); df_setitem df col v
           else if bool_decide (expected_type = lit "numeric") then
             c ← df_getitem df col; v ← lift (to_numeric_coerce c); df_setitem df col v
           else if bool_decide (expected_type = lit "category") then
             c ← df_getitem df col; v ← lift (astype_category c); df_setitem df col v
           else mret ());;
          logger_info (MsgConverted col expected_type))
         (λ e, logger_warning (MsgCouldNotConvert col expected_type e))));;
  mret df.

(** What the [try] block computes for a column of the given declared type. *)
Definition conversion (expected_type : str) (c : column) : result column :=
  if bool_decide (expected_type = lit "datetime") then to_datetime c
  else if bool_decide (expected_type = lit "numeric") then to_numeric_coerce c
  else if bool_decide (expected_type = lit "category") then astype_category c
  else Ok c.

(** The effect of one iteration of the loop on the table: a declared column
    of a known type is replaced when its conversion succeeds. *)
Definition validate_item (d : DataFrame) (item : str * str) : DataFrame :=
  if bool_decide (item.1 ∈ columns d) then
    if bool_decide (item.2 ∈ [lit "datetime"; lit "numeric"; lit "category"]) then
      match getitem d item.1 with
      | Ok c =>
          match conversion item.2 c with
          | Ok v => setitem d item.1 v
          | Raise _ => d
          end
      | Raise _ => d
      end
    else d
  else d.

End DataProcessor.
End DataProcessor.

(** ** pandas.read_csv on a tokenised file *)

Section read_csv.

(** Type inference of a column of fields and the parsers of single fields;
    [na_values] are the strings read as missing. *)
Variable infer_dtype : list str → dtype.
Variable parse_int : str → Z.
Variable parse_float : str → pyfloat.
Variable parse_bool : str → bool.
Variable na_values : list str.

Definition convert_fields (fields : list str) : column :=
  match infer_dtype fields with
  | int_ _ => IntCol W64 (parse_int <$> fields)
  | float_ _ => FloatCol F64 (parse_float <$> fields)
  | bool_ => BoolCol (parse_bool <$> fields)
  | _ => ObjectCol ((λ s, if bool_decide (s ∈ na_values) then None else Some s) <$> fields)
  end.

(** A blank header name becomes [Unnamed: i]. *)
Definition unnamed (i : nat) (name : str) : str :=
  if bool_decide (name = []) then lit "Unnamed: " ++ lit (pretty i) else name.

(** Repeated header names are renamed [X], [X.1], [X.2], ...: the k-th
    repetition of a name gets the suffix [.k].  (pandas goes on to the next
    suffix when the new name is itself a name of the header, as for the
    third name of a, a.1, a; that step is not part of this model.) *)
Definition dedup_names (names : list str) : list str :=
  imap (λ i name,
          match length (filter (λ n, n = name) (take i names)) with
          | O => name
          | S k => name ++ lit "." ++ lit (pretty (S k))
          end) names.

(** Field [j] of every record; a short record is padded with empty fields. *)
Definition field_column (j : nat) (rs : list (list str)) : list str :=
  (λ r, default [] (r !! j)) <$> rs.

(** Blank lines are skipped; a file without a header line and a record with
    more fields than the header are errors.  (The convention by which extra
    leading fields of the first record become row labels is not part of this
    model: such a file is answered with [ParserError] as well.) *)
Definition read_csv (f : csv_file) : result DataFrame :=
  let rs := filter (λ r, r ≠ []) (records f) in
  if bool_decide (header f = []) then Raise EmptyDataError
  else if bool_decide (Forall (λ r, length r ≤ length (header f))%nat rs) then
    Ok {| index := Z.of_nat <$> seq 0 (length rs);
          cols := zip (dedup_names (imap unnamed (header f)))
                      ((λ j, convert_fields (field_column j rs))
                         <$> seq 0 (length (header f))) |}
  else Raise ParserError.

End read_csv.

(** ** data.py: DataLoader *)

Module DataLoader.

Record t := mk {
  data_dir : str;
  raw_dir : str;
  processed_dir : str;
  external_dir : str
}.

(** [path / name] for a relative name and a directory written without a
    trailing slash *)
Definition joinpath (path name : str) : str := path ++ lit "/" ++ name.

Definition __init__ (data_dir : str) : t :=
  {| data_dir := data_dir;
     raw_dir := joinpath data_dir (lit "raw");
     processed_dir := joinpath data_dir (lit "processed");
     external_dir := joinpath data_dir (lit "external") |}.

Definition path_exists (path : str) : M bool :=
  λ w, (Ok (bool_decide (is_Some (files w !! path))), w).

Section load_csv.

Variable infer_dtype : list str → dtype.
Variable parse_int : str → Z.
Variable parse_float : str → pyfloat.
Variable parse_bool : str → bool.
Variable na_values : list str.

Definition pd_read_csv (path : str) : M loc := λ w,
  match files w !! path with
  | None => (Raise (FileNotFoundError path), w)
  | Some f =>
      match read_csv infer_dtype parse_int parse_float parse_bool na_values f with
      | Ok d => new_frame d w
      | Raise e => (Raise e, w)
      end
  end.

Definition load_csv (self : t) (filename data_type : str) : M loc :=
  let data_dirs := [(lit "raw", raw_dir self);
                    (lit "processed", processed_dir self);
                    (lit "external", external_dir self)] in
  match list_find (λ kv, kv.1 = data_type) data_dirs with
  | None => raise ValueError
  | Some (_, (_, dir)) =>
      let file_path := joinpath dir filename in
      found ← path_exists file_path;
      if negb found then raise (FileNotFoundError file_path)
      else
        logger_info (MsgLoading file_path);;
        pd_read_csv file_path
  end.

End load_csv.
End DataLoader.

(** ** More pandas: list keys, sorting, array assignment *)

(** [df[keys]] for a list of labels: the columns in the order of [keys].
    The [KeyError] of pandas lists the labels that are missing; here it
    carries one of them. *)
Fixpoint getitem_list (d : DataFrame) (keys : list str) : result (list (str * column)) :=
  match keys with
  | [] => Ok []
  | key :: rest =>
      match filter (λ lc, lc.1 = key) (cols d), getitem_list d rest with
      | [], _ => Raise (KeyError key)
      | _, Raise e => Raise e
      | found, Ok more => Ok (found ++ more)
      end
  end.

(** [df[keys].copy()] *)
Definition df_getitem_list (df : loc) (keys : list str) : M loc :=
  d ← read df;
  cs ← lift (getitem_list d keys);
  new_frame {| index := index d; cols := cs |}.

(** [df[key] = array]: the array must be as long as the table. *)
Definition df_setitem_array (df : loc) (key : str) (c : column) : M () :=
  d ← read df;
  if bool_decide (length (cells c) = len d) then write df (setitem d key c)
  else raise ValueError.

(** Insertion of a key into a list sorted by decreasing key, after the keys
    that are not smaller. *)
Fixpoint insert_desc (k : pyfloat) (i : nat) (sorted : list (pyfloat * nat))
  : list (pyfloat * nat) :=
  match sorted with
  | [] => [(k, i)]
  | (k', i') :: rest =>
      if float_lt k' k then (k, i) :: (k', i') :: rest
      else (k', i') :: insert_desc k i rest
  end.

(** The row order of [sort_values(ascending=False)]: the positions of the
    non-NaN keys by decreasing key, then the positions of the NaN keys
    ([na_position='last']).  Equal keys keep their order here; NumPy's default
    sort leaves their order open. *)
Definition argsort_desc (keys : list pyfloat) : list nat :=
  let ks := imap (λ i k, (k, i)) keys in
  (foldl (λ acc ki, insert_desc ki.1 ki.2 acc) []
         (filter (λ ki, isnan ki.1 = false) ks)).*2
  ++ (filter (λ ki, isnan ki.1 = true) ks).*2.

(** [abs] of a numeric column, as sort keys. *)
Definition abs_keys (c : column) : result (list pyfloat) :=
  match c with
  | FloatCol _ xs => Ok (float_abs <$> xs)
  | IntCol _ xs => Ok ((λ z, float_abs (float_of_Z z)) <$> xs)
  | _ => Raise TypeError
  end.

(** [df.sort_values(by, key=abs, ascending=False)] *)
Definition sort_values_abs_desc (d : DataFrame) (by_ : str) : result DataFrame :=
  match getitem d by_ with
  | Raise e => Raise e
  | Ok c =>
      match abs_keys c with
      | Raise e => Raise e
      | Ok keys => Ok (frame_take (argsort_desc keys) d)
      end
  end.

Definition df_sort_values_abs_desc (df : loc) (by_ : str) : M loc :=
  d ← read df; d' ← lift (sort_values_abs_desc d by_); new_frame d'.

(** [pd.Series(labels).value_counts().sort_index()] *)
Definition value_counts_sorted (labels : list Z) : list (Z * nat) :=
  (λ l, (l, length (filter (λ x, x = l) labels)))
    <$> merge_sort Z.le (remove_dups labels).

(** ** analysis.py: MigrationAnalyzer *)

Module MigrationAnalyzer.

Record correlation_row := mkRow {
  feature : str;
  correlation : pyfloat;
  p_value : pyfloat;
  significant : bool
}.

(** The double nearest to 0.05. *)
Definition p_threshold : pyfloat :=
  Fin (Q2Qc (3602879701896397 # 72057594037927936)).

(** [pd.DataFrame(correlations)] for the list of dicts built by the loop. *)
Definition DataFrame_of_correlations (rs : list correlation_row) : DataFrame :=
  match rs with
  | [] => {| index := []; cols := [] |}
  | _ => {| index := Z.of_nat <$> seq 0 (length rs);
            cols := [(lit "feature", ObjectCol ((λ r, Some (feature r)) <$> rs));
                     (lit "correlation", FloatCol F64 (correlation <$> rs));
                     (lit "p_value", FloatCol F64 (p_value <$> rs));
                     (lit "significant", BoolCol (significant <$> rs))] |}
  end.

(** [select_dtypes(include=[np.number])] *)
Definition is_number (t : dtype) : bool :=
  match t with int_ _ | float_ _ => true | _ => false end.

Record clustering_info := mkInfo {
  n_clusters : Z;
  inertia : pyfloat;
  cluster_centers : list (list pyfloat);
  feature_columns : list str;
  cluster_sizes : list (Z * nat)
}.

Section MigrationAnalyzer.

Variable to_datetime : column → result column.

(** [df.groupby(keys)[migration_col].agg(['sum', 'mean', 'count']).reset_index()]
    with the year of the time column as the last key. *)
Variable groupby_year_agg : DataFrame → option str → str → str → result DataFrame.

(** [dtype in [np.number]], the comparison of a dtype with the abstract
    scalar type; its answer depends on the NumPy version. *)
Variable np_number_eq : dtype → bool.

(** [scipy.stats.pearsonr] *)
Variable pearsonr : column → column → result (pyfloat * pyfloat).

(** [StandardScaler().fit_transform], [np.random.RandomState(seed)] and the
    k-means iteration from a generator state: labels, inertia and centres.
    The scaler is NumPy arithmetic on one thread, a function of the table.
    The iteration runs on several threads, so what it returns may depend on
    their state as well. *)
Variable fit_transform : DataFrame → result (list (list pyfloat)).
Variable RandomState : Z → rng_state.
Variable kmeans : thread_state → rng_state → Z → list (list pyfloat)
                  → result (list Z * pyfloat * list (list pyfloat)).

Definition migration_trends (df : loc) (time_col migration_col : str)
    (groupby_col : option str) : M loc :=
  labels ← df_columns df;
  if negb (bool_decide (time_col ∈ labels)) then raise ValueError
  else if negb (bool_decide (migration_col ∈ labels)) then raise ValueError
  else
    df ← df_copy df;
    c ← df_getitem df time_col;
    v ← lift (to_datetime c);
    df_setitem df time_col v;;
    d ← read df;
    trends ← match groupby_col with
             | Some (ch :: g) =>
                 t ← lift (groupby_year_agg d (Some (ch :: g)) time_col migration_col);
                 new_frame t
             | _ =>
                 t ← lift (groupby_year_agg d None time_col migration_col);
                 new_frame t
             end;
    logger_info MsgTrendsCompleted;;
    mret trends.

(** The loop of [correlation_analysis] over the feature columns. *)
Fixpoint correlations_loop (df : loc) (target_col : str) (feature_cols : list str)
    (correlations : list correlation_row) : M (list correlation_row) :=
  match feature_cols with
  | [] => mret correlations
  | col :: rest =>
      labels ← df_columns df;
      correlations ←
        (if bool_decide (col ∈ labels) then
           c ← df_getitem df col;
           if np_number_eq (dtype_of c) then
             t ← df_getitem df target_col;
             rp ← lift (pearsonr (column_dropna t) (column_dropna c));
             mret (correlations ++
                     [{| feature := col;
                         correlation := rp.1;
                         p_value := rp.2;
                         significant := float_lt rp.2 p_threshold |}])
           else mret correlations
         else mret correlations);
      correlations_loop df target_col rest correlations
  end.

Definition correlation_analysis (df : loc) (target_col : str)
    (feature_cols : option (list str)) : M loc :=
  feature_cols ←
    match feature_cols with
    | None =>
        numeric_cols ← df_select_dtypes_columns df is_number;
        mret (filter (λ col, col ≠ target_col) numeric_cols)
    | Some cols => mret cols
    end;
  correlations ← correlations_loop df target_col feature_cols [];
  corr_df ← new_frame (DataFrame_of_correlations correlations);
  corr_df ← df_sort_values_abs_desc corr_df (lit "correlation");
  logger_info MsgCorrelationCompleted;;
  mret corr_df.

(** [sklearn.utils.check_random_state]: an integer seeds a generator of its
    own, [None] stands for the global NumPy generator. *)
Definition check_random_state (seed : option Z) : M rng_state :=
  match seed with
  | Some s => mret (RandomState s)
  | None => λ w, (Ok (np_random w), w)
  end.

(** [KMeans(n_clusters, random_state).fit_predict(data)] with the fields read
    afterwards *)
Definition KMeans_fit_predict (n_clusters : Z) (random_state : option Z)
    (data : list (list pyfloat)) : M (list Z * pyfloat * list (list pyfloat)) :=
  rs ← check_random_state random_state;
  t ← get_threads;
  lift (kmeans t rs n_clusters data).

Definition migration_clustering (df : loc) (feature_cols : list str) (n_clusters : Z)
    : M (loc * clustering_info) :=
  cluster_data ← df_getitem_list df feature_cols;
  cluster_data ← df_dropna cluster_data;
  d ← read cluster_data;
  scaled_data ← lift (fit_transform d);
  fit ← KMeans_fit_predict n_clusters (Some 42%Z) scaled_data;
  let cluster_labels := fit.1.1 in
  result_df ← df_copy cluster_data;
  df_setitem_array result_df (lit "cluster") (IntCol W32 cluster_labels);;
  let clustering_info :=
    {| n_clusters := n_clusters;
       inertia := fit.1.2;
       cluster_centers := fit.2;
       feature_columns := feature_cols;
       cluster_sizes := value_counts_sorted cluster_labels |} in
  logger_info (MsgClusteringCompleted n_clusters);;
  mret (result_df, clustering_info).

End MigrationAnalyzer.
End MigrationAnalyzer.

(** ** utils.py *)

Module utils.

(** [col_min >= bound] and [col_max <= bound]; a NaN compares false. *)
Definition ge_bound (v : option Z) (bound : Z) : bool :=
  match v with Some z => bool_decide (bound ≤ z)%Z | None => false end.

Definition le_bound (v : option Z) (bound : Z) : bool :=
  match v with Some z => bool_decide (z ≤ bound)%Z | None => false end.

(** The other entries of the metrics dictionary: top origins, destinations
    and flows, mean, median, standard deviation and net migration. *)
Record other_metrics := mkOther {
  top_origins : list (str * cell);
  top_destinations : list (str * cell);
  top_flows : list (str * str * cell);
  mean_migration : pyfloat;
  median_migration : pyfloat;
  std_migration : pyfloat;
  net_migration : list (str * pyfloat)
}.

Record metrics := mkMetrics {
  total_migration : cell;
  others : other_metrics
}.

Section utils.

(** Rounding to single precision and [np.allclose], used by
    [pd.to_numeric(series, downcast='float')]. *)
Variable round_float32 : pyfloat → pyfloat.
Variable allclose : list pyfloat → list pyfloat → bool.

(** The floating-point sum of the non-NaN values, the sum of an object
    column, and the groupby, ranking and moment computations behind the
    remaining metrics for a table that has the origin column; they raise
    what pandas raises, the [KeyError] of a destination column that is not
    there included. *)
Variable float_sum : float_width → list pyfloat → pyfloat.
Variable object_sum : list (option str) → result cell.
Variable compute_others : DataFrame → str → str → str → result other_metrics.

Definition downcast_float (xs : list pyfloat) : column :=
  let ys := round_float32 <$> xs in
  if allclose ys xs then FloatCol F32 ys else FloatCol F64 xs.

Definition optimize_dtypes (df : loc) : M loc :=
  df_optimized ← df_copy df;
  int_cols ← df_select_dtypes_columns df_optimized (λ t, bool_decide (t = int_ W64));
  for_each int_cols (λ col,
    c ← df_getitem df_optimized col;
    match c with
    | IntCol _ xs =>
        let col_min := series_min xs in
        let col_max := series_max xs in
        if ge_bound col_min (iinfo_min W8) && le_bound col_max (iinfo_max W8)
        then df_setitem df_optimized col (astype_int W8 xs)
        else if ge_bound col_min (iinfo_min W16) && le_bound col_max (iinfo_max W16)
        then df_setitem df_optimized col (astype_int W16 xs)
        else if ge_bound col_min (iinfo_min W32) && le_bound col_max (iinfo_max W32)
        then df_setitem df_optimized col (astype_int W32 xs)
        else mret ()
    | _ => raise TypeError
    end);;
  float_cols ← df_select_dtypes_columns df_optimized (λ t, bool_decide (t = float_ F64));
  for_each float_cols (λ col,
    c ← df_getitem df_optimized col;
    match c with
    | FloatCol _ xs => df_setitem df_optimized col (downcast_float xs)
    | _ => raise TypeError
    end);;
  object_cols ← df_select_dtypes_columns df_optimized (λ t, bool_decide (t = object_));
  for_each object_cols (λ col,
    c ← df_getitem df_optimized col;
    n ← df_len df_optimized;
    match c with
    | ObjectCol xs =>
        if bool_decide (n = 0)%nat then raise ZeroDivisionError
        else when (bool_decide (2 * nunique xs < n)%nat)
                  (df_setitem df_optimized col (CategoryCol xs))
    | _ => raise TypeError
    end);;
  mret df_optimized.

(** [series.sum()]: NumPy adds a column of integers in 64 bits and wraps
    around; booleans count as 0 and 1. *)
Definition series_sum (c : column) : result cell :=
  match c with
  | IntCol _ xs => Ok (CInt (wrap W64 (foldr Z.add 0%Z xs)))
  | BoolCol xs => Ok (CInt (wrap W64 (Z.of_nat (length (filter (λ b, b = true) xs)))))
  | FloatCol w xs => Ok (CFloat (float_sum w xs))
  | ObjectCol xs => object_sum xs
  | CategoryCol _ | DatetimeCol _ => Raise TypeError
  end.

Definition calculate_migration_metrics (df : loc)
    (origin_col destination_col migration_col : str) : M metrics :=
  c ← df_getitem df migration_col;
  total ← lift (series_sum c);
  d ← read df;
  (* [df.groupby(origin_col)]: a key that is not a column is a KeyError *)
  if negb (bool_decide (origin_col ∈ columns d)) then raise (KeyError origin_col)
  else
    rest ← lift (compute_others d origin_col destination_col migration_col);
    mret {| total_migration := total; others := rest |}.

End utils.
End utils.

(** ** scripts/analyze_migration_data_enhanced.py: the distance helper

    The arithmetic of [math] is taken over the real numbers: [sin], [cos],
    [sqrt] and [atan2] are the functions that the floating-point routines
    approximate. *)

Module scripts.

Local Open Scope R_scope.

(** [math.atan2(y, x)] *)
Definition atan2 (y x : R) : R :=
  if Rlt_dec 0 x then atan (y / x)
  else if Rlt_dec x 0 then
    (if Rle_dec 0 y then atan (y / x) + PI else atan (y / x) - PI)
  else if Rlt_dec 0 y then PI / 2
  else if Rlt_dec y 0 then - (PI / 2)
  else 0.

(** [math.radians(x)] *)
Definition radians (x : R) : R := x * (PI / 180).

Definition calculate_distance (lat1 lon1 lat2 lon2 : R) : R :=
  let R := 6371 in
  let lat1 := radians lat1 in
  let lon1 := radians lon1 in
  let lat2 := radians lat2 in
  let lon2 := radians lon2 in
  let dlat := lat2 - lat1 in
  let dlon := lon2 - lon1 in
  let a := sin (dlat / 2) ^ 2 + cos lat1 * cos lat2 * sin (dlon / 2) ^ 2 in
  let c := 2 * atan2 (sqrt a) (sqrt (1 - a)) in
  R * c.

End scripts.

(** ** Notions used in the statements *)

(** A code point that [lower] leaves alone wherever it stands. *)
Definition lowercase_fixed (unicode_lower : N → list N) (d : N) : Prop :=
  d ≠ 931%N ∧ ¬ (65 ≤ d ≤ 90)%N ∧ ((128 ≤ d)%N → unicode_lower d = [d]).

(** The lowercase mapping only yields code points that it leaves alone; the
    two small sigmas are among them. *)
Definition lower_table_stable (unicode_lower : N → list N) : Prop :=
  (∀ c d, (128 ≤ c)%N → d ∈ unicode_lower c → lowercase_fixed unicode_lower d)
  ∧ unicode_lower 962%N = [962%N] ∧ unicode_lower 963%N = [963%N].

(** The specification's words for one character of an ASCII label: a
    capital letter becomes the small letter, a space and a hyphen become an
    underscore, and every other character stays. *)
Definition lower_and_underscore (c : N) : N :=
  if bool_decide (65 ≤ c ≤ 90)%N then (c + 32)%N
  else if bool_decide (c = 32 ∨ c = 45)%N then 95%N
  else c.

(** A table that lowers capital sigma and nothing else above ASCII. *)
Definition sigma_only_table (c : N) : list N :=
  if bool_decide (c = 931%N) then [963%N] else [c].

(** [df.columns = [f(c) for c in df.columns]] on a table value. *)
Definition relabel (f : str → str) (d : DataFrame) : DataFrame :=
  {| index := index d; cols := (λ lc, (f lc.1, lc.2)) <$> cols d |}.

(** A small table with a repeated row, and a store that holds it. *)
Definition example_frame : DataFrame :=
  {| index := [0; 1; 2]%Z;
     cols := [(lit "origin", ObjectCol [Some (lit "A"); Some (lit "B"); Some (lit "A")]);
              (lit "migration_count", IntCol W64 [5; 7; 5]%Z)] |}.

Definition example_world : world :=
  {| heap := {[ 1%positive := example_frame ]};
     files := ∅; log := []; np_random := 0%N; threads := 0%N |}.

(** A table with the labels of the test suite, and a store that holds it. *)
Definition capitalised_frame : DataFrame :=
  {| index := [0; 1]%Z;
     cols := [(lit "Migration Count", IntCol W64 [5; 7]%Z);
              (lit "Origin-Country", ObjectCol [Some (lit "A"); Some (lit "B")])] |}.

Definition capitalised_world : world :=
  {| heap := {[ 1%positive := capitalised_frame ]};
     files := ∅; log := []; np_random := 0%N; threads := 0%N |}.

(** A computation returns, leaves [d'] at [l] and touches no other object. *)
Definition rewrites_at (l : loc) (d' : DataFrame) (w : world)
    (r : result ()) (w' : world) : Prop :=
  r = Ok () ∧ heap w' !! l = Some d' ∧ ∀ l', l' ≠ l → heap w' !! l' = heap w !! l'.

(** The table [dc] has the row labels and column labels of [d], and every
    64-bit integer column of [d] is in [dc] an integer column with the same
    values, of a narrower type only if its minimum and maximum fit. *)
Definition int64_kept (d dc : DataFrame) : Prop :=
  index dc = index d ∧ columns dc = columns d ∧
  ∀ i label xs, cols d !! i = Some (label, IntCol W64 xs) →
    ∃ w, cols dc !! i = Some (label, IntCol w xs) ∧
         (w ≠ W64 →
          ∃ lo hi, series_min xs = Some lo ∧ series_max xs = Some hi ∧
                   (iinfo_min w ≤ lo)%Z ∧ (hi ≤ iinfo_max w)%Z).

(** The exact sum of a column of integers. *)
Definition exact_sum (xs : list Z) : Z := foldr Z.add 0%Z xs.

(** The sum of the absolute values. *)
Definition abs_sum (xs : list Z) : Z := foldr Z.add 0%Z (Z.abs <$> xs).

(** *** Floating-point addition

    The number of significant bits of a float type, and the least and the
    greatest exponent of a unit in the last place. *)
Definition precision (w : float_width) : Z :=
  match w with F64 => 53 | F32 => 24 end%Z.

Definition ulp_min (w : float_width) : Z :=
  match w with F64 => -1074 | F32 => -149 end%Z.

Definition ulp_max (w : float_width) : Z :=
  match w with F64 => 971 | F32 => 104 end%Z.

(** The float nearest to the positive rational [a / d], ties to the even
    significand: the significand and the exponent of the unit in the last
    place. *)
Definition nearest (w : float_width) (a d : Z) : Z * Z :=
  let k := (Z.log2 a - Z.log2 d)%Z in
  (* the integer part of the binary logarithm of a / d *)
  let l := if (if (0 <=? k)%Z then (d * 2 ^ k <=? a)%Z else (d <=? a * 2 ^ (- k))%Z)
           then k else (k - 1)%Z in
  let e := Z.max (l - (precision w - 1)) (ulp_min w) in
  let num := if (0 <=? e)%Z then a else (a * 2 ^ (- e))%Z in
  let den := if (0 <=? e)%Z then (d * 2 ^ e)%Z else d in
  let m := (num / den)%Z in
  let r := (num mod den)%Z in
  let m' := if (2 * r <? den)%Z then m
            else if (den <? 2 * r)%Z then (m + 1)%Z
            else (m + m mod 2)%Z in
  (m', e).

(** IEEE 754 rounding of a rational to a float of width [w].  A whole
    number of at most [precision w] bits is a float and is returned as it
    is; a magnitude beyond the largest float gives an infinity. *)
Definition round_float (w : float_width) (q : Qc) : pyfloat :=
  let n := Qnum q in
  let d := Z.pos (Qden q) in
  if bool_decide (d = 1%Z ∧ (Z.abs n ≤ 2 ^ precision w)%Z) then Fin q
  else
    let '(m, e) := nearest w (Z.abs n) d in
    if (2 ^ precision w * 2 ^ ulp_max w <=? m * 2 ^ e)%Z
    then (if (0 <? n)%Z then PInf else NInf)
    else
      let s := Z.sgn n in
      Fin (if (0 <=? e)%Z then Qc_of_Z (s * m * 2 ^ e)
           else Q2Qc (Qmake (s * m) (Z.to_pos (2 ^ (- e))))).

(** [x + y] on floats of width [w]. *)
Definition float_add (w : float_width) (x y : pyfloat) : pyfloat :=
  match x, y with
  | NaN, _ | _, NaN => NaN
  | PInf, NInf | NInf, PInf => NaN
  | PInf, _ | _, PInf => PInf
  | NInf, _ | _, NInf => NInf
  | Fin a, Fin b => round_float w (a + b)%Qc
  end.

(** [v] is the values [xs] added up with [add] in some grouping; values
    that are 0 may be added in between. *)
Inductive summed (add : pyfloat → pyfloat → pyfloat) : list pyfloat → pyfloat → Prop :=
| summed_nil : summed add [] (float_of_Z 0)
| summed_one x : summed add [x] x
| summed_add xs ys a b :
    summed add xs a → summed add ys b → summed add (xs ++ ys) (add a b).

(** What IEEE 754 asks of an addition of two whole numbers of at most
    [precision w] bits whose sum is one too: the sum, unrounded. *)
Definition float_add_contract (add : float_width → pyfloat → pyfloat → pyfloat) : Prop :=
  ∀ w a b,
    (Z.abs a ≤ 2 ^ precision w)%Z → (Z.abs b ≤ 2 ^ precision w)%Z →
    (Z.abs (a + b) ≤ 2 ^ precision w)%Z →
    add w (float_of_Z a) (float_of_Z b) = float_of_Z (a + b).

(** What NumPy and pandas give as the sum of a float column: the values
    that are not NaN, added up in the arithmetic of the column, in an order
    and a grouping of the library's choice (one after the other, pairwise,
    or by lanes). *)
Definition float_sum_contract
    (add : float_width → pyfloat → pyfloat → pyfloat)
    (float_sum : float_width → list pyfloat → pyfloat) : Prop :=
  ∀ w xs, ∃ ys, ys ≡ₚ filter (λ x, isnan x = false) xs ∧
                summed (add w) ys (float_sum w xs).

(** The sum of the values that are not NaN, one after the other. *)
Definition float_sum_in_order (w : float_width) (xs : list pyfloat) : pyfloat :=
  foldl (float_add w) (float_of_Z 0) (filter (λ x, isnan x = false) xs).

(** Three flows between two places with the counts [c], and a store that
    holds the table. *)
Definition flows_frame (c : column) : DataFrame :=
  {| index := [0; 1; 2]%Z;
     cols := [(lit "origin", ObjectCol [Some (lit "A"); Some (lit "B"); Some (lit "A")]);
              (lit "destination",
               ObjectCol [Some (lit "B"); Some (lit "A"); Some (lit "B")]);
              (lit "migration_count", c)] |}.

Definition flows_world (c : column) : world :=
  {| heap := {[ 1%positive := flows_frame c ]};
     files := ∅; log := []; np_random := 0%N; threads := 0%N |}.

(** Counts with a missing value, and counts that are integers. *)
Definition float_counts : column :=
  FloatCol F64 [float_of_Z 4; NaN; float_of_Z 4].

Definition int_counts : column := IntCol W64 [2; 4; 6]%Z.

(** A stand-in for the remaining metrics on the two tables of flows: the
    entries that pandas computes for them.  A table without the destination
    column is a [KeyError]; every other table is answered with no entries
    and zero moments. *)
Definition others_of_flows (d : DataFrame) (origin_col destination_col migration_col : str)
  : result utils.other_metrics :=
  if negb (bool_decide (destination_col ∈ columns d)) then Raise (KeyError destination_col)
  else if bool_decide (cols d = cols (flows_frame float_counts)) then
    Ok {| utils.top_origins := [(lit "A", CFloat (float_of_Z 8));
                                (lit "B", CFloat (float_of_Z 0))];
          utils.top_destinations := [(lit "B", CFloat (float_of_Z 8));
                                     (lit "A", CFloat (float_of_Z 0))];
          utils.top_flows := [(lit "A", lit "B", CFloat (float_of_Z 8));
                              (lit "B", lit "A", CFloat (float_of_Z 0))];
          utils.mean_migration := float_of_Z 4;
          utils.median_migration := float_of_Z 4;
          utils.std_migration := float_of_Z 0;
          utils.net_migration := [(lit "A", float_of_Z (-8)); (lit "B", float_of_Z 8)] |}
  else if bool_decide (cols d = cols (flows_frame int_counts)) then
    Ok {| utils.top_origins := [(lit "A", CInt 8); (lit "B", CInt 4)];
          utils.top_destinations := [(lit "B", CInt 8); (lit "A", CInt 4)];
          utils.top_flows := [(lit "A", lit "B", CInt 8); (lit "B", lit "A", CInt 4)];
          utils.mean_migration := float_of_Z 4;
          utils.median_migration := float_of_Z 4;
          utils.std_migration := float_of_Z 2;
          utils.net_migration := [(lit "A", float_of_Z (-4)); (lit "B", float_of_Z 4)] |}
  else
    Ok {| utils.top_origins := []; utils.top_destinations := []; utils.top_flows := [];
          utils.mean_migration := Fin 0; utils.median_migration := Fin 0;
          utils.std_migration := Fin 0; utils.net_migration := [] |}.

(** A table with the float counts 2^53 and 1, and a store that holds it. *)
Definition rounding_frame : DataFrame :=
  {| index := [0; 1]%Z;
     cols := [(lit "origin", ObjectCol [Some (lit "A"); Some (lit "B")]);
              (lit "destination", ObjectCol [Some (lit "X"); Some (lit "Y")]);
              (lit "migration_count",
               FloatCol F64 [float_of_Z (2 ^ 53); float_of_Z 1])] |}.

Definition rounding_world : world :=
  {| heap := {[ 1%positive := rounding_frame ]};
     files := ∅; log := []; np_random := 0%N; threads := 0%N |}.

(** A table whose counts add up to 2^63, and a store that holds it. *)
Definition overflow_frame : DataFrame :=
  {| index := [0; 1]%Z;
     cols := [(lit "origin", ObjectCol [Some (lit "A"); Some (lit "B")]);
              (lit "destination", ObjectCol [Some (lit "X"); Some (lit "Y")]);
              (lit "migration_count", IntCol W64 [2 ^ 62; 2 ^ 62]%Z)] |}.

Definition overflow_world : world :=
  {| heap := {[ 1%positive := overflow_frame ]};
     files := ∅; log := []; np_random := 0%N; threads := 0%N |}.

(** Stand-ins for the remaining metrics where an example needs the call to
    return: no entries and zero moments. *)
Definition no_other_metrics : utils.other_metrics :=
  {| utils.top_origins := []; utils.top_destinations := []; utils.top_flows := [];
     utils.mean_migration := Fin 0; utils.median_migration := Fin 0;
     utils.std_migration := Fin 0; utils.net_migration := [] |}.

(** The result of [migration_clustering] as a function of the table and
    the state of the threads. *)
Definition clustering_of
    (fit_transform : DataFrame → result (list (list pyfloat)))
    (RandomState : Z → rng_state)
    (kmeans : thread_state → rng_state → Z → list (list pyfloat)
              → result (list Z * pyfloat * list (list pyfloat)))
    (t : thread_state) (d : DataFrame) (feature_cols : list str) (n_clusters : Z)
  : result (DataFrame * MigrationAnalyzer.clustering_info) :=
  match getitem_list d feature_cols with
  | Raise e => Raise e
  | Ok cs =>
      let cluster_data := frame_dropna {| index := index d; cols := cs |} in
      match fit_transform cluster_data with
      | Raise e => Raise e
      | Ok scaled_data =>
          match kmeans t (RandomState 42%Z) n_clusters scaled_data with
          | Raise e => Raise e
          | Ok fit =>
              if bool_decide (length (cells (IntCol W32 fit.1.1)) = len cluster_data)
              then Ok (setitem cluster_data (lit "cluster") (IntCol W32 fit.1.1),
                       {| MigrationAnalyzer.n_clusters := n_clusters;
                          MigrationAnalyzer.inertia := fit.1.2;
                          MigrationAnalyzer.cluster_centers := fit.2;
                          MigrationAnalyzer.feature_columns := feature_cols;
                          MigrationAnalyzer.cluster_sizes := value_counts_sorted fit.1.1 |})
              else Raise ValueError
          end
      end
  end.

(** What scikit-learn documents for a fit from a seeded generator: fits
    from the same generator state, on the same data and for the same number
    of clusters, fail alike or give the same labels, whatever the threads
    do.  Nothing is asked of the inertia and the centres. *)
Definition seeded_fit_labels
    (kmeans : thread_state → rng_state → Z → list (list pyfloat)
              → result (list Z * pyfloat * list (list pyfloat))) : Prop :=
  ∀ t1 t2 rs k data,
    match kmeans t1 rs k data, kmeans t2 rs k data with
    | Ok fit1, Ok fit2 => fit1.1.1 = fit2.1.1
    | Raise e1, Raise e2 => e1 = e2
    | _, _ => False
    end.

(** Two runs give the same cluster assignments: the same exception, or
    equal result tables (rows, feature columns and the column of labels),
    with the same cluster sizes, cluster count and feature columns in the
    clustering information. *)
Definition same_assignments
    (run1 run2 : result (loc * MigrationAnalyzer.clustering_info) * world) : Prop :=
  match run1.1, run2.1 with
  | Ok (l1, info1), Ok (l2, info2) =>
      heap run1.2 !! l1 = heap run2.2 !! l2 ∧ is_Some (heap run1.2 !! l1) ∧
      MigrationAnalyzer.cluster_sizes info1 = MigrationAnalyzer.cluster_sizes info2 ∧
      MigrationAnalyzer.n_clusters info1 = MigrationAnalyzer.n_clusters info2 ∧
      MigrationAnalyzer.feature_columns info1 = MigrationAnalyzer.feature_columns info2
  | Raise e1, Raise e2 => e1 = e2
  | _, _ => False
  end.

(** A stand-in for the k-means iteration on three rows: the same labels from
    every state of the threads, and an inertia that depends on it. *)
Definition kmeans_three_rows (t : thread_state) (rs : rng_state) (k : Z)
    (data : list (list pyfloat)) : result (list Z * pyfloat * list (list pyfloat)) :=
  Ok ([0; 1; 0]%Z, float_of_Z (Z.of_N t), []).

(** A second store: the table under another name beside another table,
    another log, another state of the global generator and of the
    threads. *)
Definition busy_world : world :=
  {| heap := {[ 7%positive := example_frame; 2%positive := overflow_frame ]};
     files := ∅; log := [(INFO, MsgStandardized)]; np_random := 12345%N;
     threads := 7%N |}.

(** A file whose header repeats a name, in the raw directory of [data]. *)
Definition repeated_header_csv : csv_file :=
  {| header := [lit "a"; lit "a"]; records := [[lit "1"; lit "2"]] |}.

Definition repeated_header_world : world :=
  {| heap := ∅; files := {[ lit "data/raw/birds.csv" := repeated_header_csv ]};
     log := []; np_random := 0%N; threads := 0%N |}.

(** A file with the leading Movebank columns and two records. *)
Definition movebank_csv : csv_file :=
  {| header := [lit "event-id"; lit "timestamp"; lit "location-long"; lit "location-lat"];
     records := [[lit "1"; lit "2014-08-15"; lit "13.405"; lit "52.52"];
                 [lit "2"; lit "2014-08-16"; lit "2.3522"; lit "48.8566"]] |}.

Definition movebank_world : world :=
  {| heap := ∅; files := {[ lit "data/raw/birds.csv" := movebank_csv ]};
     log := []; np_random := 0%N; threads := 0%N |}.

(** [lo <= x <= hi] on floats; a NaN is in no interval. *)
Definition in_interval (lo hi x : pyfloat) : bool :=
  float_le lo x && float_le x hi.

(** What scipy documents for [pearsonr]: the coefficient lies in [-1, 1] and
    the p-value in [0, 1], or both are NaN (an input is constant). *)
Definition pearsonr_contract
    (pearsonr : column → column → result (pyfloat * pyfloat)) : Prop :=
  ∀ x y r p, pearsonr x y = Ok (r, p) →
    (r = NaN ∧ p = NaN) ∨
    (in_interval (float_of_Z (-1)) (float_of_Z 1) r = true
     ∧ in_interval (float_of_Z 0) (float_of_Z 1) p = true).

(** Keys in the order of [sort_values(ascending=False)]: the non-NaN keys,
    non-increasing, then the NaN keys. *)
Definition desc_nan_last (keys : list pyfloat) : Prop :=
  ∃ front back,
    keys = front ++ back ∧
    Forall (λ k, isnan k = false) front ∧
    Forall (λ k, isnan k = true) back ∧
    Sorted (λ a b, float_le b a = true) front.

(** The table with the four columns of the correlation report. *)
Definition correlation_columns (rs : list MigrationAnalyzer.correlation_row)
  : list (str * column) :=
  [(lit "feature", ObjectCol ((λ r, Some (MigrationAnalyzer.feature r)) <$> rs));
   (lit "correlation", FloatCol F64 (MigrationAnalyzer.correlation <$> rs));
   (lit "p_value", FloatCol F64 (MigrationAnalyzer.p_value <$> rs));
   (lit "significant", BoolCol (MigrationAnalyzer.significant <$> rs))].

(** A row as the loop writes it for the table [d]: its feature is a column
    of [d] whose dtype passes the test, its coefficient and p-value are what
    [pearsonr] returns for the target column and that column, each without
    its missing values, and its flag is [p_value < 0.05]. *)
Definition report_row
    (np_number_eq : dtype → bool)
    (pearsonr : column → column → result (pyfloat * pyfloat))
    (d : DataFrame) (target_col : str)
    (r : MigrationAnalyzer.correlation_row) : Prop :=
  MigrationAnalyzer.significant r
    = float_lt (MigrationAnalyzer.p_value r) MigrationAnalyzer.p_threshold ∧
  ∃ t c, getitem d target_col = Ok t ∧
         getitem d (MigrationAnalyzer.feature r) = Ok c ∧
         np_number_eq (dtype_of c) = true ∧
         pearsonr (column_dropna t) (column_dropna c)
         = Ok (MigrationAnalyzer.correlation r, MigrationAnalyzer.p_value r).

(** [dtype in [np.number]] as NumPy 1.x answers it: the comparison turns
    the abstract type into float64, so float64 passes and nothing else.
    Under NumPy 2 no dtype passes. *)
Definition numpy1_number_eq (t : dtype) : bool := bool_decide (t = float_ F64).

(** [series.nunique() == 1]-style test on the values of a column. *)
Definition is_constant (c : column) : bool :=
  match cells c with
  | [] => false
  | v :: vs => forallb (λ v', bool_decide (v' = v)) vs
  end.

(** A stand-in for [scipy.stats.pearsonr] on the inputs of the examples:
    inputs of different lengths or with fewer than two values raise, a
    constant input gives (nan, nan); every other input is answered with the
    coefficient 0 and the p-value 1. *)
Definition pearsonr_on_constant (x y : column) : result (pyfloat * pyfloat) :=
  if negb (bool_decide (length (cells x) = length (cells y))) then Raise ValueError
  else if bool_decide (length (cells x) < 2)%nat then Raise ValueError
  else if is_constant x || is_constant y then Ok (NaN, NaN)
  else Ok (float_of_Z 0, float_of_Z 1).

(** A float64 column of whole numbers. *)
Definition float_column (zs : list Z) : column := FloatCol F64 (float_of_Z <$> zs).

(** A table of four rows with counts, three features that vary, a constant
    feature and a column of integers, and a store that holds it. *)
Definition report_frame : DataFrame :=
  {| index := [0; 1; 2; 3]%Z;
     cols := [(lit "migration_count", float_column [1; 2; 3; 4]%Z);
              (lit "distance_km", float_column [2; 1; 4; 3]%Z);
              (lit "economic_factor", float_column [4; 3; 2; 1]%Z);
              (lit "year", IntCol W64 [2020; 2021; 2022; 2023]%Z);
              (lit "political_stability", float_column [1; 3; 2; 4]%Z);
              (lit "altitude", float_column [5; 5; 5; 5]%Z)] |}.

Definition report_world : world :=
  {| heap := {[ 1%positive := report_frame ]};
     files := ∅; log := []; np_random := 0%N; threads := 0%N |}.

(** A stand-in for [scipy.stats.pearsonr] on the columns of [report_frame]:
    it raises and answers (nan, nan) as [pearsonr_on_constant] does, and for
    the three varying features against the counts 1, 2, 3, 4 it gives the
    coefficient of the textbook formula (3/5, -1 and 4/5) with the p-value
    of four observations, 1 - |r|. *)
Definition pearsonr_on_report (x y : column) : result (pyfloat * pyfloat) :=
  if negb (bool_decide (length (cells x) = length (cells y))) then Raise ValueError
  else if bool_decide (length (cells x) < 2)%nat then Raise ValueError
  else if is_constant x || is_constant y then Ok (NaN, NaN)
  else if bool_decide (cells x = cells (float_column [1; 2; 3; 4]%Z)) then
    if bool_decide (cells y = cells (float_column [2; 1; 4; 3]%Z))
    then Ok (Fin (Q2Qc (3 # 5)), Fin (Q2Qc (2 # 5)))
    else if bool_decide (cells y = cells (float_column [4; 3; 2; 1]%Z))
    then Ok (float_of_Z (-1), float_of_Z 0)
    else if bool_decide (cells y = cells (float_column [1; 3; 2; 4]%Z))
    then Ok (Fin (Q2Qc (4 # 5)), Fin (Q2Qc (1 # 5)))
    else Ok (float_of_Z 0, float_of_Z 1)
  else Ok (float_of_Z 0, float_of_Z 1).

(** A table with a constant numeric column beside the counts. *)
Definition constant_feature_frame : DataFrame :=
  {| index := [0; 1; 2]%Z;
     cols := [(lit "migration_count",
               FloatCol F64 [float_of_Z 1; float_of_Z 2; float_of_Z 3]);
              (lit "distance_km",
               FloatCol F64 [float_of_Z 5; float_of_Z 5; float_of_Z 5])] |}.

Definition constant_feature_world : world :=
  {| heap := {[ 1%positive := constant_feature_frame ]};
     files := ∅; log := []; np_random := 0%N; threads := 0%N |}.

(** The postcondition [Q] holds of the result and the final world of [m]
    started in [w]. *)
Definition wp {A} (m : M A) (w : world) (Q : result A → world → Prop) : Prop :=
  Q (m w).1 (m w).2.

(** ** More Python string methods *)

(** [s.split(sep)] for a one-character separator: the pieces between the
    separators, at least one piece. *)
Fixpoint str_split (sep : N) (s : str) : list str :=
  match s with
  | [] => [[]]
  | c :: rest =>
      if bool_decide (c = sep) then [] :: str_split sep rest
      else match str_split sep rest with
           | piece :: pieces => (c :: piece) :: pieces
           | [] => [[c]]
           end
  end.

(** [s.endswith(suffix)] *)
Definition endswith (s suffix : str) : bool :=
  bool_decide (suffix `suffix_of` s).

(** ** scripts/fetch_movebank_data.py: the name of the downloaded file *)

Module fetch_movebank_data.

(** The file name that [main] derives from the URL: the text after the last
    slash, or [migration_data.csv] if that does not end in [.csv].  [None]
    stands for the IndexError of [[-1]] on an empty list. *)
Definition filename (s3_url : str) : option str :=
  filename ← last (str_split 47 s3_url);
  if negb (endswith filename (lit ".csv")) then Some (lit "migration_data.csv")
  else Some filename.

End fetch_movebank_data.

(** ** data.py: DataLoader.load_excel *)

Module DataLoaderExcel.

(** What [pd.read_excel] returns: one table for a named sheet, a dictionary
    of tables by sheet name for [sheet_name=None]. *)
Inductive workbook :=
| Sheet (df : loc)
| Sheets (dfs : list (str * loc)).

Section load_excel.

(** [pd.read_excel(path, sheet_name=sheet_name)].  The file store keeps the
    text of CSV files; what the reader makes of the file at a path is left
    open. *)
Variable pd_read_excel : str → option str → M workbook.

(** A dictionary lookup [data_dirs[data_type]] with a key that is not there
    raises [KeyError]. *)
Definition load_excel (self : DataLoader.t) (filename : str)
    (sheet_name : option str) (data_type : str) : M workbook :=
  let data_dirs := [(lit "raw", DataLoader.raw_dir self);
                    (lit "processed", DataLoader.processed_dir self);
                    (lit "external", DataLoader.external_dir self)] in
  match list_find (λ kv, kv.1 = data_type) data_dirs with
  | None => raise (KeyError data_type)
  | Some (_, (_, dir)) =>
      let file_path := DataLoader.joinpath dir filename in
      found ← DataLoader.path_exists file_path;
      if negb found then raise (FileNotFoundError file_path)
      else
        logger_info (MsgLoading file_path);;
        pd_read_excel file_path sheet_name
  end.

End load_excel.
End DataLoaderExcel.

(** ** utils.py: validate_dataframe and detect_outliers *)

Module utils_checks.

(** The records that [utils.py] hands to the root logger through
    [logging.warning]; the other modules log through a logger of their
    own. *)
Inductive root_message :=
| MsgMissingRequired (missing_columns : gset str).

(** [validate_dataframe] reads the labels of the table and changes nothing:
    a function of the table that gives the answer together with the records
    for the root logger. *)
Definition validate_dataframe (d : DataFrame) (required_columns : list str)
  : bool * list (log_level * root_message) :=
  let missing_columns : gset str :=
    list_to_set required_columns ∖ list_to_set (columns d) in
  if bool_decide (missing_columns ≠ ∅)
  then (false, [(WARNING, MsgMissingRequired missing_columns)])
  else (true, []).

Section detect_outliers.

(** The statistics of a column are scalars of pandas (floats for a numeric
    column, timestamps for a datetime column); they, their arithmetic and
    the element-wise operations on a column are parameters.  Each operation
    on a Series returns a Series on the index of its argument or raises. *)
Variable scalar : Type.
Variable quantile : column → pyfloat → result scalar.
Variable series_mean : column → result scalar.
Variable series_std : column → result scalar.
Variable scalar_sub : scalar → scalar → result scalar.
Variable scalar_add : scalar → scalar → result scalar.
Variable float_mul_scalar : pyfloat → scalar → result scalar.
Variable series_lt : column → scalar → result (list bool).
Variable series_gt : column → scalar → result (list bool).
Variable series_sub_scalar : column → scalar → result column.
Variable series_div_scalar : column → scalar → result column.
Variable np_abs : column → result column.
Variable series_gt_int : column → Z → result (list bool).

Definition detect_outliers (df : loc) (columns_ : list str) (method : str) : M loc :=
  df_result ← df_copy df;
  for_each columns_ (λ col,
    labels ← df_columns df;
    if negb (bool_decide (col ∈ labels)) then mret ()
    else if bool_decide (method = lit "iqr") then
      s ← df_getitem df col;
      Q1 ← lift (quantile s (Fin (Q2Qc (1 # 4))));
      s ← df_getitem df col;
      Q3 ← lift (quantile s (Fin (Q2Qc (3 # 4))));
      IQR ← lift (scalar_sub Q3 Q1);
      t ← lift (float_mul_scalar (Fin (Q2Qc (3 # 2))) IQR);
      lower_bound ← lift (scalar_sub Q1 t);
      t ← lift (float_mul_scalar (Fin (Q2Qc (3 # 2))) IQR);
      upper_bound ← lift (scalar_add Q3 t);
      s ← df_getitem df col;
      below ← lift (series_lt s lower_bound);
      s ← df_getitem df col;
      above ← lift (series_gt s upper_bound);
      df_setitem df_result (col ++ lit "_outlier") (BoolCol (zip_with orb below above))
    else if bool_decide (method = lit "zscore") then
      s ← df_getitem df col;
      s' ← df_getitem df col;
      mean ← lift (series_mean s');
      centred ← lift (series_sub_scalar s mean);
      s' ← df_getitem df col;
      std ← lift (series_std s');
      ratio ← lift (series_div_scalar centred std);
      z_scores ← lift (np_abs ratio);
      flags ← lift (series_gt_int z_scores 3);
      df_setitem df_result (col ++ lit "_outlier") (BoolCol flags)
    else mret ());;
  mret df_result.

End detect_outliers.
End utils_checks.

(** ** Further notions used in the statements *)

(** A character of a label in standard form: ASCII, and neither a capital
    letter nor a space nor a hyphen. *)
Definition standard_char (c : N) : Prop :=
  (c < 128)%N ∧ ¬ (65 ≤ c ≤ 90)%N ∧ c ≠ 32%N ∧ c ≠ 45%N.

(** The record that [validate_data_types] logs for a declared column that
    is in the table [d]: the outcome of the [try] block. *)
Definition validate_record
    (to_datetime to_numeric_coerce astype_category : column → result column)
    (d : DataFrame) (item : str * str) : log_level * log_message :=
  if bool_decide (item.2 ∈ [lit "datetime"; lit "numeric"; lit "category"]) then
    match getitem d item.1 with
    | Ok c =>
        match DataProcessor.conversion to_datetime to_numeric_coerce astype_category
                item.2 c with
        | Ok _ => (INFO, MsgConverted item.1 item.2)
        | Raise e => (WARNING, MsgCouldNotConvert item.1 item.2 e)
        end
    | Raise e => (WARNING, MsgCouldNotConvert item.1 item.2 e)
    end
  else (INFO, MsgConverted item.1 item.2).

(** The feature columns that [correlation_analysis] goes through: the ones
    given, or by default the numeric columns other than the target. *)
Definition requested_features (d : DataFrame) (target_col : str)
    (feature_cols : option (list str)) : list str :=
  match feature_cols with
  | Some cols => cols
  | None => filter (λ col, col ≠ target_col) (select_dtypes MigrationAnalyzer.is_number d)
  end.

(** A feature column gets a row of the report when it is a column of the
    table whose dtype passes the test [dtype in [np.number]]. *)
Definition usable_feature (np_number_eq : dtype → bool) (d : DataFrame) (col : str) : bool :=
  bool_decide (col ∈ columns d) &&
  match getitem d col with
  | Ok c => np_number_eq (dtype_of c)
  | Raise _ => false
  end.

(** [f] applied to the columns whose dtype is selected by [p]. *)
Definition map_where (p : dtype → bool) (f : column → column) (d : DataFrame) : DataFrame :=
  {| index := index d;
     cols := (λ lc, if p (dtype_of lc.2) then (lc.1, f lc.2) else lc) <$> cols d |}.

(** The test of [optimize_dtypes] for an integer type: the minimum and the
    maximum of the column lie in its range. *)
Definition fits (w : int_width) (xs : list Z) : bool :=
  utils.ge_bound (series_min xs) (iinfo_min w)
  && utils.le_bound (series_max xs) (iinfo_max w).

(** What [optimize_dtypes] makes of one column of a table of [n] rows. *)
Definition optimized_column (round_float32 : pyfloat → pyfloat)
    (allclose : list pyfloat → list pyfloat → bool) (n : nat) (c : column) : column :=
  match c with
  | IntCol W64 xs =>
      if fits W8 xs then astype_int W8 xs
      else if fits W16 xs then astype_int W16 xs
      else if fits W32 xs then astype_int W32 xs
      else c
  | FloatCol F64 xs => utils.downcast_float round_float32 allclose xs
  | ObjectCol xs =>
      if bool_decide (2 * nunique xs < n)%nat then CategoryCol xs else c
  | _ => c
  end.

(** The table [dc] is [d] with flag columns for columns listed in
    [columns_]: the rows and the leading labels are those of [d], a column
    of [d] is unchanged unless its label is that of a flag column, and every
    further column is a column of flags for a listed column of [d]. *)
Definition flagged (columns_ : list str) (d dc : DataFrame) : Prop :=
  index dc = index d ∧
  columns d `prefix_of` columns dc ∧
  (∀ i label c, cols d !! i = Some (label, c) →
     (∀ col, col ∈ columns_ → label ≠ col ++ lit "_outlier") →
     cols dc !! i = Some (label, c)) ∧
  (∀ i label c, cols dc !! i = Some (label, c) → (length (cols d) ≤ i)%nat →
     ∃ col flags, col ∈ columns_ ∧ col ∈ columns d ∧
                  label = col ++ lit "_outlier" ∧ c = BoolCol flags).


(** * Proofs *)

(** ** Running computations: weakest preconditions *)

Lemma wp_run {A} (m : M A) w Q : wp m w Q → Q (m w).1 (m w).2.
Proof. done. Qed.

Lemma wp_mono {A} (m : M A) w (Q Q' : result A → world → Prop) :
  wp m w Q → (∀ r w', Q r w' → Q' r w') → wp m w Q'.
Proof. unfold wp. auto. Qed.

Lemma wp_ret {A} (a : A) w Q : Q (Ok a) w → wp (mret a) w Q.
Proof. done. Qed.

Lemma wp_raise {A} e w (Q : result A → world → Prop) :
  Q (Raise e) w → wp (raise e) w Q.
Proof. done. Qed.

Lemma wp_lift {A} (r : result A) w Q : Q r w → wp (lift r) w Q.
Proof. done. Qed.

Lemma wp_bind {A B} (m : M A) (f : A → M B) w Q :
  wp m w (λ r w', match r with
                  | Ok a => wp (f a) w' Q
                  | Raise e => Q (Raise e) w'
                  end) →
  wp (m ≫= f) w Q.
Proof.
  unfold wp, mbind, M_bind. destruct (m w) as [[a|e] w']; simpl; auto.
Qed.

Lemma wp_try_except {A} (m : M A) h w Q :
  wp m w (λ r w', match r with
                  | Ok a => Q (Ok a) w'
                  | Raise e => wp (h e) w' Q
                  end) →
  wp (try_except m h) w Q.
Proof.
  unfold wp, try_except. destruct (m w) as [[a|e] w']; simpl; auto.
Qed.

Lemma wp_when b m w Q :
  (b = true → wp m w Q) → (b = false → Q (Ok ()) w) → wp (when b m) w Q.
Proof.
  intros H1 H2. destruct b; simpl; [by apply H1 | by apply wp_ret, H2].
Qed.

(** A loop with an invariant; an exception leaves the loop. *)
Lemma wp_for_each {A} (xs : list A) body (I : world → Prop) w Q :
  I w →
  (∀ x w1, x ∈ xs → I w1 →
     wp (body x) w1 (λ r w2, match r with
                             | Ok _ => I w2
                             | Raise e => Q (Raise e) w2
                             end)) →
  (∀ w1, I w1 → Q (Ok ()) w1) →
  wp (for_each xs body) w Q.
Proof.
  revert w. induction xs as [|x xs IH]; intros w Hw Hbody Hend; simpl.
  - apply wp_ret. auto.
  - apply wp_bind. eapply wp_mono.
    + apply Hbody; [left | exact Hw].
    + intros [[]|e] w2 H2; [|exact H2].
      apply IH; [exact H2 | | exact Hend].
      intros y w3 Hy. apply Hbody. by right.
Qed.

(** A loop with an invariant that knows what is still to be done. *)
Lemma wp_for_each_rest {A} (xs : list A) body (I : list A → world → Prop) w Q :
  I xs w →
  (∀ x rest w1, I (x :: rest) w1 →
     wp (body x) w1 (λ r w2, match r with
                             | Ok _ => I rest w2
                             | Raise e => Q (Raise e) w2
                             end)) →
  (∀ w1, I [] w1 → Q (Ok ()) w1) →
  wp (for_each xs body) w Q.
Proof.
  revert w. induction xs as [|x xs IH]; intros w Hw Hbody Hend; simpl.
  - apply wp_ret. auto.
  - apply wp_bind. eapply wp_mono; [by apply Hbody|].
    intros [[]|e] w2 H2; [|exact H2]. by apply IH.
Qed.

Lemma wp_get_threads w Q : Q (Ok (threads w)) w → wp get_threads w Q.
Proof. done. Qed.

Lemma wp_logger_info msg w Q :
  Q (Ok ()) (add_log (INFO, msg) w) → wp (logger_info msg) w Q.
Proof. done. Qed.

Lemma wp_logger_warning msg w Q :
  Q (Ok ()) (add_log (WARNING, msg) w) → wp (logger_warning msg) w Q.
Proof. done. Qed.

Lemma wp_read l d w Q :
  heap w !! l = Some d → Q (Ok d) w → wp (read l) w Q.
Proof. unfold wp, read. intros ->. done. Qed.

Lemma wp_write l d w Q :
  Q (Ok ()) (set_heap (<[l := d]> (heap w)) w) → wp (write l d) w Q.
Proof. done. Qed.

Lemma wp_new_frame d w Q :
  (∀ l, heap w !! l = None → Q (Ok l) (set_heap (<[l := d]> (heap w)) w)) →
  wp (new_frame d) w Q.
Proof.
  intros H. unfold wp, new_frame. simpl. apply H.
  apply not_elem_of_dom, is_fresh.
Qed.

Lemma wp_df_copy df d w Q :
  heap w !! df = Some d →
  (∀ l, heap w !! l = None → Q (Ok l) (set_heap (<[l := d]> (heap w)) w)) →
  wp (df_copy df) w Q.
Proof.
  intros Hd H. apply wp_bind, (wp_read _ d); [done|]. by apply wp_new_frame.
Qed.

Lemma wp_df_len df d w Q :
  heap w !! df = Some d → Q (Ok (len d)) w → wp (df_len df) w Q.
Proof. intros Hd H. apply wp_bind, (wp_read _ d); [done|]. by apply wp_ret. Qed.

Lemma wp_df_columns df d w Q :
  heap w !! df = Some d → Q (Ok (columns d)) w → wp (df_columns df) w Q.
Proof. intros Hd H. apply wp_bind, (wp_read _ d); [done|]. by apply wp_ret. Qed.

Lemma wp_df_isnull_sum df d w Q :
  heap w !! df = Some d → Q (Ok (isnull_sum d)) w → wp (df_isnull_sum df) w Q.
Proof. intros Hd H. apply wp_bind, (wp_read _ d); [done|]. by apply wp_ret. Qed.

Lemma wp_df_select_dtypes_columns df d p w Q :
  heap w !! df = Some d → Q (Ok (select_dtypes p d)) w →
  wp (df_select_dtypes_columns df p) w Q.
Proof. intros Hd H. apply wp_bind, (wp_read _ d); [done|]. by apply wp_ret. Qed.

Lemma wp_df_getitem df d key w Q :
  heap w !! df = Some d → Q (getitem d key) w → wp (df_getitem df key) w Q.
Proof. intros Hd H. apply wp_bind, (wp_read _ d); [done|]. by apply wp_lift. Qed.

Lemma wp_df_setitem df d key c w Q :
  heap w !! df = Some d →
  Q (Ok ()) (set_heap (<[df := setitem d key c]> (heap w)) w) →
  wp (df_setitem df key c) w Q.
Proof. intros Hd H. apply wp_bind, (wp_read _ d); [done|]. by apply wp_write. Qed.

Lemma wp_df_drop_duplicates df d w Q :
  heap w !! df = Some d →
  (∀ l, heap w !! l = None →
        Q (Ok l) (set_heap (<[l := frame_drop_duplicates d]> (heap w)) w)) →
  wp (df_drop_duplicates df) w Q.
Proof.
  intros Hd H. apply wp_bind, (wp_read _ d); [done|]. by apply wp_new_frame.
Qed.

Lemma wp_df_dropna df d w Q :
  heap w !! df = Some d →
  (∀ l, heap w !! l = None →
        Q (Ok l) (set_heap (<[l := frame_dropna d]> (heap w)) w)) →
  wp (df_dropna df) w Q.
Proof.
  intros Hd H. apply wp_bind, (wp_read _ d); [done|]. by apply wp_new_frame.
Qed.

(** The objects of [h0] are still there, unchanged. *)
Lemma keeps_insert (h0 h : gmap loc DataFrame) l d :
  h0 ⊆ h → h0 !! l = None → h0 ⊆ <[l := d]> h.
Proof. intros Hs Hl. by apply insert_subseteq_r. Qed.

Lemma keeps_fresh (h0 h : gmap loc DataFrame) l :
  h0 ⊆ h → h !! l = None → h0 !! l = None.
Proof. intros Hs Hl. by eapply lookup_weaken_None. Qed.

(** ** Boolean indexing and rows *)

Lemma mfilter_nil_r {A} m : mfilter m (@nil A) = [].
Proof. by destruct m. Qed.

Lemma mfilter_fmap {A B} (g : A → B) m xs :
  mfilter m (g <$> xs) = g <$> mfilter m xs.
Proof.
  revert xs. induction m as [|b m IH]; intros [|x xs]; simpl; try done.
  destruct b; simpl; by rewrite IH.
Qed.

Lemma mfilter_zip_with {A B C} (g : A → B → C) m xs ys :
  mfilter m (zip_with g xs ys) = zip_with g (mfilter m xs) (mfilter m ys).
Proof.
  revert xs ys. induction m as [|b m IH]; intros [|x xs] [|y ys]; simpl; try done.
  - destruct b; simpl; [done|]. by destruct (mfilter m xs).
  - destruct b; simpl; by rewrite IH.
Qed.

Lemma mfilter_all_true {A} (xs : list A) n :
  (length xs ≤ n)%nat → mfilter (replicate n true) xs = xs.
Proof.
  revert n. induction xs as [|x xs IH]; intros [|n] Hn; simpl in *; try done; try lia.
  f_equal. apply IH. lia.
Qed.

Lemma mfilter_sublist {A} m (xs : list A) : mfilter m xs `sublist_of` xs.
Proof.
  revert xs. induction m as [|b m IH]; intros [|x xs]; simpl;
    try apply sublist_nil_l.
  destruct b; [by apply sublist_skip | by apply sublist_cons].
Qed.

Lemma cells_map_rows (f : ∀ A : Type, list A → list A) c :
  (∀ A B (g : A → B) xs, f B (g <$> xs) = g <$> f A xs) →
  cells (column_map_rows f c) = f _ (cells c).
Proof. intros Hf. destruct c; simpl; by rewrite Hf. Qed.

Lemma cells_column_filter m c :
  cells (column_map_rows (λ A, mfilter m) c) = mfilter m (cells c).
Proof. apply cells_map_rows. intros. apply mfilter_fmap. Qed.

Lemma rows_frame_filter m d :
  rows (frame_filter m d) = mfilter m (rows d).
Proof.
  destruct d as [idx cs]. unfold rows, frame_filter, frame_map_rows. simpl.
  induction cs as [|[l c] cs IH]; [simpl; by rewrite mfilter_fmap|].
  rewrite fmap_cons. cbn [foldr]. rewrite IH. cbn [fst snd].
  by rewrite cells_column_filter, mfilter_zip_with.
Qed.

Lemma columns_frame_map_rows f d : columns (frame_map_rows f d) = columns d.
Proof.
  unfold columns, frame_map_rows. simpl. rewrite <- list_fmap_compose.
  by apply list_fmap_ext.
Qed.

Lemma dtypes_frame_map_rows f d : dtypes (frame_map_rows f d) = dtypes d.
Proof.
  unfold dtypes, frame_map_rows. simpl. rewrite <- !list_fmap_compose.
  apply list_fmap_ext. intros i [l c] _. simpl. by destruct c.
Qed.

Lemma filter_none {A} (P : A → Prop) `{∀ x, Decision (P x)} (l : list A) :
  (∀ x, x ∈ l → ¬ P x) → filter P l = [].
Proof.
  induction l as [|x l IH]; intros Hl; [done|].
  rewrite filter_cons_False by (apply Hl; left).
  apply IH. intros y Hy. apply Hl. by right.
Qed.

(** ** Marking duplicates *)

Lemma duplicated_from_length seen rs :
  length (duplicated_from seen rs) = length rs.
Proof. revert seen. induction rs as [|r rs IH]; intros seen; simpl; auto. Qed.

(** A marked row repeats a row seen before or an earlier row. *)
Lemma duplicated_from_true seen rs i :
  duplicated_from seen rs !! i = Some true →
  ∃ r, rs !! i = Some r ∧
       (r ∈ seen ∨ ∃ j, (j < i)%nat ∧ rs !! j = Some r).
Proof.
  revert seen i. induction rs as [|r rs IH]; intros seen [|i] H; simpl in *; try done.
  - injection H as H. apply bool_decide_eq_true in H. eauto.
  - destruct (IH _ _ H) as (r' & Hr' & Hin). exists r'. split; [done|].
    destruct Hin as [Hin|(j & Hj & Hjr)].
    + apply elem_of_cons in Hin as [->|Hin]; [|by left].
      right. exists 0%nat. split; [lia|done].
    + right. exists (S j). split; [lia|done].
Qed.

(** The unmarked rows: no row twice, none seen before, and every row is
    among them unless it was seen before. *)
Lemma kept_from_spec seen rs :
  let kept := mfilter (negb <$> duplicated_from seen rs) rs in
  NoDup kept ∧ (∀ r, r ∈ kept → r ∉ seen) ∧ (∀ r, r ∈ rs → r ∈ seen ∨ r ∈ kept).
Proof.
  revert seen. induction rs as [|r rs IH]; intros seen; simpl.
  - split; [constructor|]. split; intros r Hr; by apply elem_of_nil in Hr.
  - destruct (IH (r :: seen)) as (Hnd & Hns & Hall).
    case_bool_decide as Hr; simpl.
    + split; [done|]. split.
      * intros r' Hr' Hin. apply (Hns _ Hr'). by right.
      * intros r' Hr'. apply elem_of_cons in Hr' as [->|Hr']; [by left|].
        destruct (Hall _ Hr') as [H|H]; [|by right].
        apply elem_of_cons in H as [->|H]; by left.
    + split; [|split].
      * constructor; [|done]. intros Hin. apply (Hns _ Hin). by left.
      * intros r' Hr'. apply elem_of_cons in Hr' as [->|Hr']; [done|].
        intros Hin. apply (Hns _ Hr'). by right.
      * intros r' Hr'. apply elem_of_cons in Hr' as [->|Hr']; [right; by left|].
        destruct (Hall _ Hr') as [H|H]; [|right; by right].
        apply elem_of_cons in H as [->|H]; [right; by left|by left].
Qed.

(** Rows that are pairwise different and not seen before are all unmarked. *)
Lemma duplicated_from_NoDup seen rs :
  NoDup rs → (∀ r, r ∈ rs → r ∉ seen) →
  duplicated_from seen rs = replicate (length rs) false.
Proof.
  revert seen. induction rs as [|r rs IH]; intros seen Hnd Hns; simpl; [done|].
  inversion Hnd as [|? ? Hr Hnd']; subst.
  rewrite bool_decide_eq_false_2 by (apply Hns; left). f_equal.
  apply IH; [done|]. intros r' Hr' Hin.
  apply elem_of_cons in Hin as [->|Hin]; [done|].
  eapply Hns; [by right|done].
Qed.

Lemma rows_length_index d : (length (rows d) ≤ length (index d))%nat.
Proof.
  destruct d as [idx cs]. unfold rows. simpl.
  induction cs as [|[l c] cs IH]; simpl.
  - by rewrite length_fmap.
  - rewrite length_zip_with. lia.
Qed.

Lemma rows_length_column d lc :
  lc ∈ cols d → (length (rows d) ≤ length (cells lc.2))%nat.
Proof.
  destruct d as [idx cs]. unfold rows. simpl.
  induction cs as [|[l c] cs IH]; simpl; intros Hin.
  - by apply elem_of_nil in Hin.
  - rewrite length_zip_with. apply elem_of_cons in Hin as [->|Hin]; simpl; [lia|].
    specialize (IH Hin). lia.
Qed.

Lemma cells_length_map_rows (f : ∀ A : Type, list A → list A) c n :
  (∀ A (xs : list A), length (f A xs) = n) → length (cells (column_map_rows f c)) = n.
Proof. intros Hf. destruct c; simpl; by rewrite length_fmap. Qed.


Lemma mfilter_length_eq {A B} m (xs : list A) (ys : list B) :
  (length m ≤ length xs)%nat → (length m ≤ length ys)%nat →
  length (mfilter m xs) = length (mfilter m ys).
Proof.
  revert xs ys. induction m as [|b m IH]; intros [|x xs] [|y ys] Hx Hy;
    simpl in *; try done; try lia.
  destruct b; simpl; [f_equal|]; apply IH; lia.
Qed.

Lemma column_filter_all_true c n :
  (length (cells c) ≤ n)%nat →
  column_map_rows (λ A, mfilter (replicate n true)) c = c.
Proof.
  intros Hn. destruct c; simpl in *; rewrite length_fmap in Hn;
    by rewrite mfilter_all_true.
Qed.

Lemma frame_filter_all_true d n :
  (length (index d) ≤ n)%nat →
  (∀ lc, lc ∈ cols d → (length (cells lc.2) ≤ n)%nat) →
  frame_filter (replicate n true) d = d.
Proof.
  destruct d as [idx cs]. unfold frame_filter, frame_map_rows. simpl.
  intros Hi Hc. f_equal; [by apply mfilter_all_true|].
  induction cs as [|[l c] cs IH]; [done|].
  rewrite fmap_cons. f_equal.
  - simpl. f_equal. apply column_filter_all_true. apply (Hc (l, c)). left.
  - apply IH. intros lc Hlc. apply Hc. by right.
Qed.

Lemma mfilter_lookup_kept {A} m (xs : list A) x :
  x ∈ mfilter m xs → x ∈ xs.
Proof. intros H. eapply elem_of_sublist; [done|apply mfilter_sublist]. Qed.

(** What [drop_duplicates] does to a table. *)
Lemma frame_drop_duplicates_spec d :
  let d' := frame_drop_duplicates d in
  columns d' = columns d ∧ dtypes d' = dtypes d ∧
  ∃ mask,
    length mask = length (rows d) ∧
    rows d' = mfilter mask (rows d) ∧
    (∀ i, mask !! i = Some false →
       ∃ j r0 r, (j < i)%nat ∧ rows d !! j = Some r0 ∧ rows d !! i = Some r
                 ∧ r0.2 = r.2) ∧
    (∀ r, r ∈ rows d → ∃ r', r' ∈ rows d' ∧ r'.2 = r.2).
Proof.
  unfold frame_drop_duplicates. case_bool_decide as Hc; simpl.
  - split; [done|]. split; [done|].
    exists (replicate (length (rows d)) true). rewrite length_replicate.
    split; [done|]. split; [by rewrite mfilter_all_true|]. split.
    + intros i Hi. apply lookup_replicate in Hi as [? _]. done.
    + intros r Hr. eauto.
  - unfold frame_filter. rewrite columns_frame_map_rows, dtypes_frame_map_rows.
    split; [done|]. split; [done|].
    exists (negb <$> duplicated d).
    assert (Hlen : length (negb <$> duplicated d) = length (rows d)).
    { unfold duplicated. by rewrite length_fmap, duplicated_from_length, length_fmap. }
    split; [done|]. split; [apply rows_frame_filter|]. split.
    + intros i Hi. rewrite list_lookup_fmap in Hi.
      destruct (duplicated d !! i) as [[]|] eqn:Hdi; simpl in Hi; try done.
      apply duplicated_from_true in Hdi as (r & Hr & [Hin|(j & Hj & Hjr)]).
      { by apply elem_of_nil in Hin. }
      rewrite list_lookup_fmap in Hr, Hjr.
      destruct (rows d !! i) as [ri|] eqn:Hri; simpl in Hr; [|done].
      destruct (rows d !! j) as [rj|] eqn:Hrj; simpl in Hjr; [|done].
      exists j, rj, ri. repeat split; try done. congruence.
    + intros r Hr.
      destruct (kept_from_spec [] (rows d).*2) as (_ & _ & Hall).
      destruct (Hall r.2) as [Hin|Hin].
      { apply list_elem_of_fmap. eauto. }
      { by apply elem_of_nil in Hin. }
      fold (duplicated d) in Hin. rewrite mfilter_fmap in Hin.
      apply list_elem_of_fmap in Hin as (r' & Hr' & Hin).
      exists r'. split; [|done].
      change (r' ∈ rows (frame_filter (negb <$> duplicated d) d)).
      by rewrite rows_frame_filter.
Qed.

(** Dropping duplicates a second time changes nothing. *)
Lemma frame_drop_duplicates_idemp d :
  frame_drop_duplicates (frame_drop_duplicates d) = frame_drop_duplicates d.
Proof.
  destruct (decide (cols d = [])) as [Hc|Hc].
  { assert (H : frame_drop_duplicates d = d).
    { unfold frame_drop_duplicates. by rewrite bool_decide_eq_true_2. }
    by rewrite !H. }
  set (m := negb <$> duplicated d). set (d1 := frame_filter m d).
  assert (Hm : length m = length (rows d)).
  { unfold m, duplicated. by rewrite length_fmap, duplicated_from_length, length_fmap. }
  assert (Hc1 : cols d1 ≠ []).
  { unfold d1, frame_filter, frame_map_rows. simpl. by destruct (cols d). }
  assert (frame_drop_duplicates d = d1) as ->.
  { unfold frame_drop_duplicates. by rewrite bool_decide_eq_false_2. }
  unfold frame_drop_duplicates. rewrite bool_decide_eq_false_2 by done.
  assert (Hdup : duplicated d1 = replicate (length (rows d1)) false).
  { unfold duplicated.
    destruct (kept_from_spec [] (rows d).*2) as (Hnd & _ & _).
    fold (duplicated d) in Hnd. fold m in Hnd. rewrite mfilter_fmap in Hnd.
    unfold d1. rewrite rows_frame_filter.
    rewrite duplicated_from_NoDup; [by rewrite length_fmap|done|].
    intros r _ Hin. by apply elem_of_nil in Hin. }
  rewrite Hdup, fmap_replicate. simpl.
  apply frame_filter_all_true.
  - unfold d1 at 1. simpl. unfold d1. rewrite rows_frame_filter.
    rewrite (mfilter_length_eq m (index d) (rows d)); [done| |lia].
    rewrite Hm. apply rows_length_index.
  - intros lc Hlc. unfold d1 in Hlc. simpl in Hlc.
    apply list_elem_of_fmap in Hlc as ([l c] & -> & Hin). simpl.
    rewrite cells_column_filter. unfold d1. rewrite rows_frame_filter.
    rewrite (mfilter_length_eq m (cells c) (rows d)); [done| |lia].
    rewrite Hm. apply (rows_length_column d (l, c) Hin).
Qed.

(** ** DataProcessor.clean_migration_data *)

(** Logging the missing values does not touch the store. *)
Lemma wp_log_missing (missing_info : list (str * nat)) w Q :
  (∀ w', heap w' = heap w → Q (Ok ()) w') →
  wp (when (bool_decide (0 < sum_list missing_info.*2)%nat)
        (logger_info MsgMissingFound;;
         for_each (filter (λ cm, (0 < cm.2)%nat) missing_info)
                  (λ cm, logger_info (MsgMissingIn cm.1 cm.2)))) w Q.
Proof.
  intros HQ. apply wp_when; intros _; [|by apply HQ].
  apply wp_bind, wp_logger_info.
  apply (wp_for_each _ _ (λ w', heap w' = heap w)); [done| |done].
  intros cm w1 _ H1. by apply wp_logger_info.
Qed.

Lemma clean_migration_data_spec df d w :
  heap w !! df = Some d →
  wp (DataProcessor.clean_migration_data df) w (λ r w',
    ∃ l, r = Ok l ∧ heap w ⊆ heap w' ∧ heap w !! l = None
         ∧ heap w' !! l = Some (frame_drop_duplicates d)).
Proof.
  intros Hd. unfold DataProcessor.clean_migration_data.
  apply wp_bind, wp_logger_info.
  apply wp_bind, (wp_df_copy _ d); [done|]. intros l1 Hl1.
  apply wp_bind, (wp_df_len _ d); [by simpl; rewrite lookup_insert_eq|].
  apply wp_bind, (wp_df_drop_duplicates _ d); [by simpl; rewrite lookup_insert_eq|].
  simpl. intros l2 Hl2.
  apply lookup_insert_None in Hl2 as [Hl2 Hne].
  apply wp_bind, (wp_df_len _ (frame_drop_duplicates d));
    [by simpl; rewrite lookup_insert_eq|].
  apply wp_bind, wp_when; intros _; [apply wp_logger_info|];
    (apply wp_bind, (wp_df_isnull_sum _ (frame_drop_duplicates d));
      [by simpl; rewrite lookup_insert_eq|];
     apply wp_bind, wp_log_missing; intros w' Hw'; apply wp_ret;
     exists l2; simpl in Hw'; rewrite Hw';
     split; [done|]; split; [|split; [done|by rewrite lookup_insert_eq]];
     apply keeps_insert; [|done]; by apply keeps_insert).
Qed.

(** C2. [clean_migration_data] returns a new table with the labels and types
    of its argument whose rows are a selection of the argument's rows: a row
    is left out only if an earlier row has the same cells, the cells of every
    row of the argument still occur, and cleaning the result again returns a
    table equal to it. *)
Theorem clean_migration_data_removes_only_duplicates w df d :
  heap w !! df = Some d →
  ∃ out w1 d1,
    DataProcessor.clean_migration_data df w = (Ok out, w1) ∧
    heap w1 !! out = Some d1 ∧
    columns d1 = columns d ∧ dtypes d1 = dtypes d ∧
    (∃ mask,
       length mask = length (rows d) ∧
       rows d1 = mfilter mask (rows d) ∧
       (∀ i, mask !! i = Some false →
          ∃ j r0 r, (j < i)%nat ∧ rows d !! j = Some r0 ∧ rows d !! i = Some r
                    ∧ r0.2 = r.2) ∧
       (∀ r, r ∈ rows d → ∃ r', r' ∈ rows d1 ∧ r'.2 = r.2)) ∧
    rows d1 `sublist_of` rows d ∧
    ∃ out2 w2,
      DataProcessor.clean_migration_data out w1 = (Ok out2, w2) ∧
      heap w2 !! out2 = Some d1.
Proof.
  intros Hd.
  pose proof (clean_migration_data_spec df d w Hd) as H1. unfold wp in H1.
  destruct (DataProcessor.clean_migration_data df w) as [r w1]. simpl in H1.
  destruct H1 as (out & -> & _ & _ & Hout).
  exists out, w1, (frame_drop_duplicates d). split; [done|]. split; [done|].
  destruct (frame_drop_duplicates_spec d) as (Hcols & Hty & mask & Hlen & Hrows & Hrm & Hall).
  split; [done|]. split; [done|]. split; [by exists mask|].
  split; [rewrite Hrows; apply mfilter_sublist|].
  pose proof (clean_migration_data_spec out _ w1 Hout) as H2. unfold wp in H2.
  destruct (DataProcessor.clean_migration_data out w1) as [r2 w2]. simpl in H2.
  destruct H2 as (out2 & -> & _ & _ & Hout2).
  exists out2, w2. split; [done|]. by rewrite frame_drop_duplicates_idemp in Hout2.
Qed.

Lemma clean_migration_data_removes_only_duplicates_witness :
  ∃ out w1 d1,
    DataProcessor.clean_migration_data 1%positive example_world = (Ok out, w1) ∧
    heap w1 !! out = Some d1 ∧ rows d1 `sublist_of` rows example_frame.
Proof.
  destruct (clean_migration_data_removes_only_duplicates example_world 1%positive
              example_frame) as (out & w1 & d1 & H1 & H2 & _ & _ & _ & H3 & _).
  { reflexivity. }
  exists out, w1, d1. auto.
Defined.

Example clean_example :
  (frame_drop_duplicates example_frame) =
  {| index := [0; 1]%Z;
     cols := [(lit "origin", ObjectCol [Some (lit "A"); Some (lit "B")]);
              (lit "migration_count", IntCol W64 [5; 7]%Z)] |}.
Proof. vm_compute. reflexivity. Qed.

(** ** DataProcessor.standardize_column_names *)

Lemma set_columns_fmap f d :
  set_columns d (f <$> columns d) = Ok (relabel f d).
Proof.
  unfold set_columns, columns. rewrite bool_decide_eq_true_2.
  - f_equal. unfold relabel. f_equal.
    induction (cols d) as [|[l c] cs IH]; [done|]. cbn. f_equal. exact IH.
  - by rewrite !length_fmap.
Qed.

Lemma wp_df_set_columns_fmap df d f w Q :
  heap w !! df = Some d →
  Q (Ok ()) (set_heap (<[df := relabel f d]> (heap w)) w) →
  wp (df_set_columns df (f <$> columns d)) w Q.
Proof.
  intros Hd H. apply wp_bind, (wp_read _ d); [done|].
  apply wp_bind, wp_lift. rewrite set_columns_fmap. by apply wp_write.
Qed.

Section Lowercase.

Variable unicode_lower : N → list N.
Variable final_sigma : str → str → bool.
Hypothesis table : lower_table_stable unicode_lower.

Local Abbreviation fixed := (lowercase_fixed unicode_lower).
Local Abbreviation standardize_name :=
  (DataProcessor.standardize_name unicode_lower final_sigma).

Lemma to_lower_full_fixed d : fixed d → to_lower_full unicode_lower d = [d].
Proof.
  intros (_ & Hup & Hhi). unfold to_lower_full.
  rewrite bool_decide_eq_false_2 by done.
  case_bool_decide as Hlt; [done|]. apply Hhi. lia.
Qed.

Lemma to_lower_full_yields c d :
  d ∈ to_lower_full unicode_lower c → fixed d.
Proof.
  destruct table as (Htab & _ & _). unfold to_lower_full.
  case_bool_decide as Hup.
  { intros ->%list_elem_of_singleton. repeat split; try lia. }
  case_bool_decide as Hlt.
  { intros ->%list_elem_of_singleton. repeat split; try lia. }
  apply Htab. lia.
Qed.

Lemma small_sigma_fixed b : fixed (if b : bool then 962%N else 963%N).
Proof.
  destruct table as (_ & H2 & H3). destruct b; repeat split; try lia; done.
Qed.

Lemma lower_from_yields before s : Forall fixed (lower_from unicode_lower final_sigma before s).
Proof.
  revert before. induction s as [|c s IH]; intros before; simpl; [constructor|].
  apply Forall_app. split; [|apply IH].
  case_bool_decide.
  - apply Forall_singleton, small_sigma_fixed.
  - apply Forall_forall. intros d. apply to_lower_full_yields.
Qed.

Lemma lower_from_fixed before s :
  Forall fixed s → lower_from unicode_lower final_sigma before s = s.
Proof.
  intros Hs. revert before. induction Hs as [|c s Hc Hs IH]; intros before; simpl; [done|].
  rewrite bool_decide_eq_false_2 by apply Hc.
  by rewrite to_lower_full_fixed, IH.
Qed.

Lemma str_replace_fixed old s :
  Forall fixed s → Forall fixed (str_replace old 95 s).
Proof.
  intros Hs. unfold str_replace. apply Forall_fmap.
  eapply Forall_impl; [exact Hs|]. intros c Hc. simpl.
  case_bool_decide; [|done]. repeat split; lia.
Qed.

Lemma str_replace_absent old new s :
  old ∉ s → str_replace old new s = s.
Proof.
  intros Hs. unfold str_replace. induction s as [|c s IH]; [done|].
  apply not_elem_of_cons in Hs as [Hc Hs].
  rewrite fmap_cons, bool_decide_eq_false_2 by done. f_equal. by apply IH.
Qed.

Lemma str_replace_removes old new s :
  old ≠ new → old ∉ str_replace old new s.
Proof.
  intros Hne. unfold str_replace. intros (c & Hc & _)%list_elem_of_fmap.
  case_bool_decide; congruence.
Qed.

Lemma str_replace_keeps_absent old new x s :
  x ≠ new → x ∉ s → x ∉ str_replace old new s.
Proof.
  intros Hne Hs. unfold str_replace. intros (c & Hc & Hin)%list_elem_of_fmap.
  case_bool_decide; congruence.
Qed.

(** A standardized label is left alone by a second pass. *)
Lemma standardize_name_idemp name :
  standardize_name (standardize_name name) = standardize_name name.
Proof.
  unfold DataProcessor.standardize_name at 1.
  set (t := standardize_name name).
  assert (Hfix : Forall fixed t).
  { unfold t, DataProcessor.standardize_name.
    do 2 apply str_replace_fixed. apply lower_from_yields. }
  assert (H45 : 45%N ∉ t).
  { unfold t, DataProcessor.standardize_name. by apply str_replace_removes. }
  assert (H32 : 32%N ∉ t).
  { unfold t, DataProcessor.standardize_name.
    apply str_replace_keeps_absent; [done|]. by apply str_replace_removes. }
  unfold str_lower. rewrite lower_from_fixed by done.
  rewrite (str_replace_absent 32%N) by done.
  by rewrite (str_replace_absent 45%N).
Qed.

Lemma relabel_standardize_idemp d :
  relabel standardize_name (relabel standardize_name d) = relabel standardize_name d.
Proof.
  unfold relabel. simpl. f_equal. rewrite <- list_fmap_compose.
  apply list_fmap_ext. intros i [l c] _. simpl. by rewrite standardize_name_idemp.
Qed.

(** On ASCII text the three string methods are the character map of the
    specification. *)
Lemma standardize_name_ascii name :
  Forall (λ c, (c < 128)%N) name →
  standardize_name name = lower_and_underscore <$> name.
Proof.
  intros Hname. unfold DataProcessor.standardize_name, str_lower, str_replace.
  generalize (@nil N). induction Hname as [|c name Hc _ IH]; intros before; [done|].
  cbn [lower_from]. rewrite bool_decide_eq_false_2 by lia.
  unfold to_lower_full, lower_and_underscore.
  rewrite !fmap_app, !fmap_cons. cbn [app fmap list_fmap].
  case_bool_decide as Hup; cbn [app fmap list_fmap].
  - rewrite (bool_decide_eq_false_2 (_ = 32)%N) by lia.
    rewrite (bool_decide_eq_false_2 (_ = 45)%N) by lia.
    f_equal. apply IH.
  - rewrite (bool_decide_eq_true_2 (c < 128)%N) by done. cbn [app fmap list_fmap].
    f_equal; [|apply IH].
    repeat case_bool_decide; lia.
Qed.

(** What a standardized label is made of. *)
Lemma standardize_name_chars name :
  (32%N ∉ standardize_name name) ∧ (45%N ∉ standardize_name name) ∧
  Forall fixed (standardize_name name).
Proof.
  unfold DataProcessor.standardize_name. split; [|split].
  - apply str_replace_keeps_absent; [done|]. by apply str_replace_removes.
  - by apply str_replace_removes.
  - do 2 apply str_replace_fixed. apply lower_from_yields.
Qed.

Lemma standardize_column_names_spec df d w :
  heap w !! df = Some d →
  wp (DataProcessor.standardize_column_names unicode_lower final_sigma df) w (λ r w',
    heap w ⊆ heap w' ∧ (∀ l, r = Ok l → heap w !! l = None) ∧
    (cols d = [] → r = Raise AttributeError) ∧
    (cols d ≠ [] →
     ∃ l, r = Ok l ∧ heap w' !! l = Some (relabel standardize_name d))).
Proof.
  intros Hd. unfold DataProcessor.standardize_column_names.
  apply wp_bind, (wp_df_copy _ d); [done|]. intros l Hl.
  apply wp_bind, (wp_df_columns _ d); [by simpl; rewrite lookup_insert_eq|].
  apply wp_bind, wp_lift.
  assert (Hsub : heap w ⊆ <[l := d]> (heap w)) by (by apply keeps_insert).
  destruct (columns d) as [|label labels] eqn:Hlabels; cbn [Index_str].
  { split; [done|]. split; [done|]. split; [done|].
    intros Hne. unfold columns in Hlabels. by destruct (cols d). }
  rewrite <- Hlabels.
  apply wp_bind, (wp_df_set_columns_fmap _ d); [by simpl; rewrite lookup_insert_eq|].
  apply wp_bind, wp_logger_info, wp_ret. simpl.
  split; [by apply keeps_insert|]. split; [by intros ? [= <-]|].
  split; [intros Hnil; unfold columns in Hlabels; by rewrite Hnil in Hlabels|].
  intros _. exists l. split; [done|]. by rewrite lookup_insert_eq.
Qed.

End Lowercase.

Lemma sigma_only_table_stable : lower_table_stable sigma_only_table.
Proof.
  split; [|by split].
  intros c d Hc. unfold sigma_only_table. case_bool_decide as H931.
  - intros ->%list_elem_of_singleton. repeat split; try lia; done.
  - intros ->%list_elem_of_singleton. split; [done|]. split; [lia|].
    intros _. by rewrite bool_decide_eq_false_2.
Qed.

(** C3. For a table with at least one column and a lowercase table that only
    yields code points it leaves alone, [standardize_column_names] returns a
    new table with the same rows and columns under new labels.  Each new
    label holds no space and no hyphen, and only characters that
    lower-casing leaves alone, so no capital letter of ASCII; for a label of
    ASCII characters it is the label with every capital letter turned into
    the small letter and every space and hyphen into an underscore.
    Standardizing the returned table again returns a table equal to it. *)
Theorem standardize_column_names_idempotent unicode_lower final_sigma w df d :
  lower_table_stable unicode_lower →
  heap w !! df = Some d →
  cols d ≠ [] →
  ∃ out1 w1 d1,
    DataProcessor.standardize_column_names unicode_lower final_sigma df w = (Ok out1, w1) ∧
    heap w1 !! out1 = Some d1 ∧
    columns d1 = DataProcessor.standardize_name unicode_lower final_sigma <$> columns d ∧
    index d1 = index d ∧ (cols d1).*2 = (cols d).*2 ∧
    Forall2 (λ label label',
               (32%N ∉ label') ∧ (45%N ∉ label') ∧
               Forall (lowercase_fixed unicode_lower) label' ∧
               (Forall (λ c, (c < 128)%N) label →
                label' = lower_and_underscore <$> label))
            (columns d) (columns d1) ∧
    ∃ out2 w2,
      DataProcessor.standardize_column_names unicode_lower final_sigma out1 w1 = (Ok out2, w2) ∧
      heap w2 !! out2 = Some d1.
Proof.
  intros Htab Hd Hne.
  pose proof (standardize_column_names_spec unicode_lower final_sigma df d w Hd) as H1.
  unfold wp in H1.
  destruct (DataProcessor.standardize_column_names _ _ df w) as [r w1]. simpl in H1.
  destruct H1 as (_ & _ & _ & H1). destruct (H1 Hne) as (out & -> & Hout).
  set (f := DataProcessor.standardize_name unicode_lower final_sigma) in *.
  assert (Hcols : columns (relabel f d) = f <$> columns d).
  { unfold columns, relabel. simpl. rewrite <- !list_fmap_compose.
    by apply list_fmap_ext. }
  eexists out, w1, _. split; [done|]. split; [exact Hout|].
  split; [exact Hcols|]. split; [done|]. split; [|split].
  - unfold relabel. simpl. rewrite <- !list_fmap_compose. by apply list_fmap_ext.
  - rewrite Hcols. apply Forall2_fmap_r, Forall_Forall2_diag, Forall_forall.
    intros label _.
    destruct (standardize_name_chars unicode_lower final_sigma Htab label)
      as (H32 & H45 & Hfix).
    split; [done|]. split; [done|]. split; [done|].
    apply standardize_name_ascii.
  - pose proof (standardize_column_names_spec unicode_lower final_sigma out _ w1 Hout) as H2.
    unfold wp in H2.
    destruct (DataProcessor.standardize_column_names _ _ out w1) as [r2 w2]. simpl in H2.
    destruct H2 as (_ & _ & _ & H2).
    destruct H2 as (out2 & -> & Hout2).
    { unfold relabel. simpl. by destruct (cols d). }
    exists out2, w2. split; [done|]. subst f.
    by rewrite (relabel_standardize_idemp _ _ Htab) in Hout2.
Qed.

Lemma standardize_column_names_idempotent_witness :
  ∃ out1 w1 d1,
    DataProcessor.standardize_column_names sigma_only_table (λ _ _, false)
      1%positive capitalised_world = (Ok out1, w1) ∧
    heap w1 !! out1 = Some d1 ∧
    columns d1 = [lit "migration_count"; lit "origin_country"] ∧
    ∃ out2 w2,
      DataProcessor.standardize_column_names sigma_only_table (λ _ _, false)
        out1 w1 = (Ok out2, w2) ∧
      heap w2 !! out2 = Some d1.
Proof.
  destruct (standardize_column_names_idempotent sigma_only_table (λ _ _, false)
              capitalised_world 1%positive capitalised_frame)
    as (out1 & w1 & d1 & H1 & H2 & Hlabels & _ & _ & _ & H3).
  { apply sigma_only_table_stable. }
  { reflexivity. }
  { discriminate. }
  exists out1, w1, d1. split; [exact H1|]. split; [exact H2|].
  split; [exact Hlabels | exact H3].
Defined.

(** A table without columns: the string accessor refuses the labels. *)
Example standardize_column_names_no_columns :
  (DataProcessor.standardize_column_names sigma_only_table (λ _ _, false) 1%positive
     {| heap := {[ 1%positive := {| index := []; cols := [] |} ]};
        files := ∅; log := []; np_random := 0%N; threads := 0%N |}).1
  = Raise AttributeError.
Proof. reflexivity. Qed.

(** The labels of the test suite. *)
Example standardize_name_test :
  DataProcessor.standardize_name sigma_only_table (λ _ _, false)
    <$> [lit "Migration Count"; lit "Origin-Country"; lit "DESTINATION REGION"]
  = [lit "migration_count"; lit "origin_country"; lit "destination_region"].
Proof. vm_compute. reflexivity. Qed.

(** ** DataProcessor.validate_data_types *)

Lemma wp_for_each_fold {A} l (step : DataFrame → A → DataFrame) body (xs : list A) :
  (∀ x dc w, heap w !! l = Some dc →
     wp (body x) w (rewrites_at l (step dc x) w)) →
  ∀ dc w, heap w !! l = Some dc →
    wp (for_each xs body) w (rewrites_at l (foldl step dc xs) w).
Proof.
  intros Hbody. induction xs as [|x xs IH]; intros dc w Hl; simpl.
  { by apply wp_ret. }
  apply wp_bind. eapply wp_mono; [by apply Hbody|].
  intros r w1 (-> & H1 & Hfr1).
  eapply wp_mono; [by apply IH|].
  intros r w2 (-> & H2 & Hfr2). split; [done|]. split; [done|].
  intros l' Hne. rewrite Hfr2 by done. by apply Hfr1.
Qed.

Lemma wp_convert (conv : column → result column) l col dc w Q :
  heap w !! l = Some dc →
  match getitem dc col with
  | Ok c =>
      match conv c with
      | Ok v => Q (Ok ()) (set_heap (<[l := setitem dc col v]> (heap w)) w)
      | Raise e => Q (Raise e) w
      end
  | Raise e => Q (Raise e) w
  end →
  wp (c ← df_getitem l col; v ← lift (conv c); df_setitem l col v) w Q.
Proof.
  intros Hl H. apply wp_bind, (wp_df_getitem _ dc); [done|].
  destruct (getitem dc col) as [c|e]; [|done].
  apply wp_bind, wp_lift. destruct (conv c) as [v|e]; [|done].
  by apply (wp_df_setitem _ dc).
Qed.

(** The [try] block for one conversion routine, with its handler. *)
Lemma wp_try_convert (conv : column → result column) l col ty dc w :
  heap w !! l = Some dc →
  wp (try_except
        ((c ← df_getitem l col; v ← lift (conv c); df_setitem l col v);;
         logger_info (MsgConverted col ty))
        (λ e, logger_warning (MsgCouldNotConvert col ty e))) w
     (rewrites_at l
        match getitem dc col with
        | Ok c => match conv c with Ok v => setitem dc col v | Raise _ => dc end
        | Raise _ => dc
        end w).
Proof.
  intros Hl. apply wp_try_except, wp_bind, (wp_convert _ _ _ dc); [done|].
  destruct (getitem dc col) as [c|e].
  - destruct (conv c) as [v|e].
    + apply wp_logger_info. split; [done|]. simpl.
      split; [by rewrite lookup_insert_eq|].
      intros l' Hne. by rewrite lookup_insert_ne.
    + by apply wp_logger_warning.
  - by apply wp_logger_warning.
Qed.

Section Validate.

Variables to_datetime to_numeric_coerce astype_category : column → result column.

Local Abbreviation conversion :=
  (DataProcessor.conversion to_datetime to_numeric_coerce astype_category).
Local Abbreviation validate_item :=
  (DataProcessor.validate_item to_datetime to_numeric_coerce astype_category).
Local Abbreviation validate_data_types :=
  (DataProcessor.validate_data_types to_datetime to_numeric_coerce astype_category).

Lemma validate_data_types_spec df d et w :
  heap w !! df = Some d →
  wp (validate_data_types df et) w (λ r w',
    ∃ l, r = Ok l ∧ heap w ⊆ heap w' ∧ heap w !! l = None
         ∧ heap w' !! l = Some (foldl validate_item d et)).
Proof.
  intros Hd. unfold DataProcessor.validate_data_types.
  apply wp_bind, (wp_df_copy _ d); [done|]. intros l Hl.
  apply wp_bind. eapply wp_mono.
  - apply (wp_for_each_fold l validate_item) with (dc := d);
      [|by simpl; rewrite lookup_insert_eq].
    clear. intros [col ty] dc w Hl. cbn [fst snd].
    apply wp_bind, (wp_df_columns _ dc); [done|].
    unfold DataProcessor.validate_item, DataProcessor.conversion. cbn [fst snd].
    apply wp_when; intros Hin; rewrite Hin; [|by split].
    destruct (decide (ty = lit "datetime")) as [->|H1].
    { rewrite !bool_decide_eq_true_2 by (done || by left).
      by apply wp_try_convert. }
    rewrite (bool_decide_eq_false_2 (ty = lit "datetime")) by done.
    destruct (decide (ty = lit "numeric")) as [->|H2].
    { rewrite !bool_decide_eq_true_2 by (done || by right; left).
      by apply wp_try_convert. }
    rewrite (bool_decide_eq_false_2 (ty = lit "numeric")) by done.
    destruct (decide (ty = lit "category")) as [->|H3].
    { rewrite !bool_decide_eq_true_2 by (done || by right; right; left).
      by apply wp_try_convert. }
    rewrite (bool_decide_eq_false_2 (ty = lit "category")) by done.
    rewrite bool_decide_eq_false_2.
    2:{ rewrite !elem_of_cons, elem_of_nil. tauto. }
    apply wp_try_except, wp_bind, wp_ret, wp_logger_info. by split.
  - intros r w1 (-> & Hw1 & Hfr). apply wp_ret. exists l.
    split; [done|]. split; [|by split].
    apply map_subseteq_spec. intros l0 d0 H0.
    rewrite Hfr; simpl.
    + rewrite lookup_insert_ne; [done|]. intros ->. congruence.
    + intros ->. congruence.
Qed.

(** *** The table after the loop *)

Lemma setitem_index d key c : index (setitem d key c) = index d.
Proof. done. Qed.

Lemma setitem_columns d key c :
  key ∈ columns d → columns (setitem d key c) = columns d.
Proof.
  intros Hin. unfold columns, setitem. simpl. rewrite bool_decide_eq_true_2 by done.
  rewrite <- list_fmap_compose. apply list_fmap_ext.
  intros i [l c'] _. simpl. by case_bool_decide.
Qed.

Lemma setitem_lookup_ne d key c i label c' :
  key ∈ columns d → label ≠ key →
  cols d !! i = Some (label, c') → cols (setitem d key c) !! i = Some (label, c').
Proof.
  intros Hin Hne Hi. unfold setitem. simpl. rewrite bool_decide_eq_true_2 by done.
  rewrite list_lookup_fmap, Hi. simpl. by rewrite bool_decide_eq_false_2.
Qed.

(** A Series that [df[key]] returns is the column at any position that
    carries the label. *)
Lemma getitem_Ok_lookup d key c i c' :
  getitem d key = Ok c → cols d !! i = Some (key, c') → c' = c.
Proof.
  unfold getitem. intros Hg Hi.
  assert (Hin : (key, c') ∈ filter (λ lc, lc.1 = key) (cols d)).
  { apply list_elem_of_filter. split; [done|]. by eapply list_elem_of_lookup_2. }
  destruct (filter (λ lc, lc.1 = key) (cols d)) as [|lc [|lc' rest]]; try done.
  injection Hg as <-. by apply list_elem_of_singleton in Hin as <-.
Qed.

Lemma validate_item_index d item : index (validate_item d item) = index d.
Proof.
  unfold DataProcessor.validate_item. repeat case_bool_decide; try done.
  destruct (getitem d item.1); [|done]. by destruct (conversion item.2 a).
Qed.

Lemma validate_item_columns d item : columns (validate_item d item) = columns d.
Proof.
  unfold DataProcessor.validate_item. repeat case_bool_decide; try done.
  destruct (getitem d item.1); [|done]. destruct (conversion item.2 a); [|done].
  by apply setitem_columns.
Qed.

Lemma validate_item_lookup_ne d item i label c :
  label ≠ item.1 →
  cols d !! i = Some (label, c) → cols (validate_item d item) !! i = Some (label, c).
Proof.
  intros Hne Hi. unfold DataProcessor.validate_item. repeat case_bool_decide; try done.
  destruct (getitem d item.1); [|done]. destruct (conversion item.2 a); [|done].
  by apply setitem_lookup_ne.
Qed.

Lemma validate_item_failed d label ty e i c :
  conversion ty c = Raise e →
  cols d !! i = Some (label, c) → validate_item d (label, ty) = d.
Proof.
  intros Hc Hi. unfold DataProcessor.validate_item. cbn [fst snd].
  repeat case_bool_decide; try done.
  destruct (getitem d label) as [c'|] eqn:Hg; [|done].
  rewrite <- (getitem_Ok_lookup _ _ _ _ _ Hg Hi). by rewrite Hc.
Qed.

Lemma validate_fold_index et : ∀ d, index (foldl validate_item d et) = index d.
Proof.
  induction et as [|item et IH]; intros d; simpl; [done|].
  by rewrite IH, validate_item_index.
Qed.

Lemma validate_fold_columns et : ∀ d, columns (foldl validate_item d et) = columns d.
Proof.
  induction et as [|item et IH]; intros d; simpl; [done|].
  by rewrite IH, validate_item_columns.
Qed.

Lemma validate_fold_undeclared et : ∀ d i label c,
  label ∉ et.*1 →
  cols d !! i = Some (label, c) → cols (foldl validate_item d et) !! i = Some (label, c).
Proof.
  induction et as [|item et IH]; intros d i label c Hnot Hi; simpl; [done|].
  rewrite fmap_cons in Hnot. apply not_elem_of_cons in Hnot as [Hne Hnot].
  apply IH; [done|]. by apply validate_item_lookup_ne.
Qed.

Lemma validate_fold_failed et : ∀ d i label ty e c,
  NoDup et.*1 → (label, ty) ∈ et → conversion ty c = Raise e →
  cols d !! i = Some (label, c) → cols (foldl validate_item d et) !! i = Some (label, c).
Proof.
  induction et as [|[k t] et IH]; intros d i label ty e c Hnd Hin Hc Hi; simpl.
  { by apply elem_of_nil in Hin. }
  rewrite fmap_cons in Hnd. apply NoDup_cons in Hnd as [Hk Hnd]. simpl in Hk.
  apply elem_of_cons in Hin as [Heq|Hin].
  - injection Heq as <- <-.
    rewrite (validate_item_failed d label ty e i c) by done.
    by apply validate_fold_undeclared.
  - assert (label ≠ k).
    { intros ->. apply Hk. apply list_elem_of_fmap. by exists (k, ty). }
    eapply IH; try done. by apply validate_item_lookup_ne.
Qed.

End Validate.

(** C7. [validate_data_types] returns for every table and every dictionary
    of declared types; the result has the rows and labels of the argument, a
    column that is not declared is unchanged, and so is a declared column
    whose conversion raises. *)
Theorem validate_data_types_never_raises
    (to_datetime to_numeric_coerce astype_category : column → result column)
    w df d (expected_types : list (str * str)) :
  heap w !! df = Some d →
  NoDup expected_types.*1 →
  ∃ out w1 d1,
    DataProcessor.validate_data_types to_datetime to_numeric_coerce astype_category
      df expected_types w = (Ok out, w1) ∧
    heap w1 !! out = Some d1 ∧
    index d1 = index d ∧ columns d1 = columns d ∧
    ∀ i label c, cols d !! i = Some (label, c) →
      (label ∉ expected_types.*1 → cols d1 !! i = Some (label, c)) ∧
      (∀ ty e, (label, ty) ∈ expected_types →
         DataProcessor.conversion to_datetime to_numeric_coerce astype_category ty c
           = Raise e →
         cols d1 !! i = Some (label, c)).
Proof.
  intros Hd Hnd.
  pose proof (validate_data_types_spec to_datetime to_numeric_coerce astype_category
                df d expected_types w Hd) as H1.
  unfold wp in H1.
  destruct (DataProcessor.validate_data_types _ _ _ df expected_types w) as [r w1].
  simpl in H1. destruct H1 as (out & -> & _ & _ & Hout).
  eexists out, w1, _. split; [done|]. split; [exact Hout|].
  split; [apply validate_fold_index|]. split; [apply validate_fold_columns|].
  intros i label c Hi. split.
  - intros Hnot. by apply validate_fold_undeclared.
  - intros ty e Hin Hc. by eapply validate_fold_failed.
Qed.

Lemma validate_data_types_never_raises_witness :
  ∃ out w1 d1,
    DataProcessor.validate_data_types (λ _, Raise ValueError) Ok Ok
      1%positive [(lit "origin", lit "datetime")] example_world = (Ok out, w1) ∧
    heap w1 !! out = Some d1 ∧ columns d1 = columns example_frame.
Proof.
  destruct (validate_data_types_never_raises (λ _, Raise ValueError) Ok Ok
              example_world 1%positive example_frame [(lit "origin", lit "datetime")])
    as (out & w1 & d1 & H1 & H2 & _ & H3 & _).
  { reflexivity. }
  { repeat constructor. intros H. by apply elem_of_nil in H. }
  exists out, w1, d1. auto.
Defined.

(** A conversion that raises leaves the column as it was, here the text
    column [origin] declared as a datetime. *)
Example validate_failed_example :
  foldl (DataProcessor.validate_item (λ _, Raise ValueError) Ok Ok) example_frame
        [(lit "origin", lit "datetime")] = example_frame.
Proof. vm_compute. reflexivity. Qed.

(** ** MigrationAnalyzer.migration_trends *)

Section Trends.

Variable to_datetime : column → result column.
Variable groupby_year_agg : DataFrame → option str → str → str → result DataFrame.

Lemma migration_trends_spec df d time_col migration_col groupby_col w :
  heap w !! df = Some d →
  wp (MigrationAnalyzer.migration_trends to_datetime groupby_year_agg
        df time_col migration_col groupby_col) w
     (λ r w', heap w ⊆ heap w' ∧ ∀ l, r = Ok l → heap w !! l = None).
Proof.
  intros Hd. unfold MigrationAnalyzer.migration_trends.
  apply wp_bind, (wp_df_columns _ d); [done|].
  destruct (negb (bool_decide (time_col ∈ columns d))); [by apply wp_raise|].
  destruct (negb (bool_decide (migration_col ∈ columns d))); [by apply wp_raise|].
  apply wp_bind, (wp_df_copy _ d); [done|]. intros l Hl.
  assert (H0 : heap w ⊆ <[l := d]> (heap w)) by (by apply keeps_insert).
  apply wp_bind, (wp_df_getitem _ d); [by simpl; rewrite lookup_insert_eq|].
  destruct (getitem d time_col) as [c|e]; [|by split].
  apply wp_bind, wp_lift. destruct (to_datetime c) as [v|e]; [|by split].
  apply wp_bind, (wp_df_setitem _ d); [by simpl; rewrite lookup_insert_eq|].
  simpl. rewrite insert_insert_eq.
  assert (H1 : heap w ⊆ <[l := setitem d time_col v]> (heap w)) by (by apply keeps_insert).
  apply wp_bind, (wp_read _ (setitem d time_col v)); [by simpl; rewrite lookup_insert_eq|].
  apply wp_bind.
  assert (Hagg : ∀ by_, wp
            (t ← lift (groupby_year_agg (setitem d time_col v) by_ time_col migration_col);
             new_frame t)
            (set_heap (<[l := setitem d time_col v]> (heap w)) w)
            (λ r w', match r with
                     | Ok a =>
                         wp (logger_info MsgTrendsCompleted;; mret a) w'
                            (λ r w'', heap w ⊆ heap w'' ∧ ∀ l, r = Ok l → heap w !! l = None)
                     | Raise e => heap w ⊆ heap w' ∧ ∀ l, Raise e = Ok l → heap w !! l = None
                     end)).
  { intros by_. apply wp_bind, wp_lift.
    destruct (groupby_year_agg _ _ _ _) as [t|e]; [|by split].
    apply wp_new_frame. simpl. intros l2 Hl2.
    apply wp_bind, wp_logger_info, wp_ret. simpl.
    apply lookup_insert_None in Hl2 as [Hl2 Hne].
    split; [by apply keeps_insert|]. by intros ? [= <-]. }
  destruct groupby_col as [[|ch g]|]; apply Hagg.
Qed.

End Trends.

(** C9. Each of [clean_migration_data], [standardize_column_names],
    [validate_data_types] and [migration_trends] leaves the table it is given
    as it was, whether it returns or raises, and a table it returns is a new
    object. *)
Theorem processing_leaves_argument_unchanged
    unicode_lower final_sigma
    (to_datetime to_numeric_coerce astype_category : column → result column)
    (groupby_year_agg : DataFrame → option str → str → str → result DataFrame)
    w df d expected_types time_col migration_col groupby_col :
  heap w !! df = Some d →
  let unchanged (run : result loc * world) :=
    heap run.2 !! df = Some d ∧ ∀ out, run.1 = Ok out → heap w !! out = None in
  unchanged (DataProcessor.clean_migration_data df w) ∧
  unchanged (DataProcessor.standardize_column_names unicode_lower final_sigma df w) ∧
  unchanged (DataProcessor.validate_data_types to_datetime to_numeric_coerce
               astype_category df expected_types w) ∧
  unchanged (MigrationAnalyzer.migration_trends to_datetime groupby_year_agg
               df time_col migration_col groupby_col w).
Proof.
  intros Hd unchanged. unfold unchanged. repeat split.
  - destruct (clean_migration_data_spec df d w Hd) as (l & _ & Hsub & _).
    by eapply lookup_weaken.
  - destruct (clean_migration_data_spec df d w Hd) as (l & Hr & _ & Hl & _).
    intros out Hout. congruence.
  - destruct (standardize_column_names_spec unicode_lower final_sigma df d w Hd)
      as (Hsub & _).
    by eapply lookup_weaken.
  - destruct (standardize_column_names_spec unicode_lower final_sigma df d w Hd)
      as (_ & Hl & _).
    apply Hl.
  - destruct (validate_data_types_spec to_datetime to_numeric_coerce astype_category
                df d expected_types w Hd) as (l & _ & Hsub & _).
    by eapply lookup_weaken.
  - destruct (validate_data_types_spec to_datetime to_numeric_coerce astype_category
                df d expected_types w Hd) as (l & Hr & _ & Hl & _).
    intros out Hout. congruence.
  - destruct (migration_trends_spec to_datetime groupby_year_agg df d time_col
                migration_col groupby_col w Hd) as [Hsub _].
    by eapply lookup_weaken.
  - destruct (migration_trends_spec to_datetime groupby_year_agg df d time_col
                migration_col groupby_col w Hd) as [_ Hl].
    apply Hl.
Qed.

Lemma processing_leaves_argument_unchanged_witness :
  heap (DataProcessor.clean_migration_data 1%positive example_world).2 !! 1%positive
    = Some example_frame ∧
  heap (MigrationAnalyzer.migration_trends (λ _, Raise ValueError)
          (λ _ _ _ _, Raise ValueError) 1%positive (lit "origin")
          (lit "migration_count") None example_world).2 !! 1%positive
    = Some example_frame.
Proof.
  destruct (processing_leaves_argument_unchanged sigma_only_table (λ _ _, false)
              (λ _, Raise ValueError) Ok Ok (λ _ _ _ _, Raise ValueError)
              example_world 1%positive example_frame [] (lit "origin")
              (lit "migration_count") None)
    as ([H1 _] & _ & _ & [H4 _]).
  { reflexivity. }
  split; [exact H1 | exact H4].
Defined.

(** ** utils.optimize_dtypes *)

Lemma foldr_min_le y ys x : x ∈ y :: ys → (foldr Z.min y ys ≤ x)%Z.
Proof.
  induction ys as [|z ys IH]; simpl; intros Hx.
  - apply list_elem_of_singleton in Hx as ->. lia.
  - apply elem_of_cons in Hx as [->|Hx].
    + specialize (IH ltac:(left)). lia.
    + apply elem_of_cons in Hx as [->|Hx]; [lia|].
      specialize (IH ltac:(by right)). lia.
Qed.

Lemma foldr_max_ge y ys x : x ∈ y :: ys → (x ≤ foldr Z.max y ys)%Z.
Proof.
  induction ys as [|z ys IH]; simpl; intros Hx.
  - apply list_elem_of_singleton in Hx as ->. lia.
  - apply elem_of_cons in Hx as [->|Hx].
    + specialize (IH ltac:(left)). lia.
    + apply elem_of_cons in Hx as [->|Hx]; [lia|].
      specialize (IH ltac:(by right)). lia.
Qed.

Lemma series_min_le xs lo x : series_min xs = Some lo → x ∈ xs → (lo ≤ x)%Z.
Proof.
  destruct xs as [|y ys]; [done|]. simpl. intros [= <-]. apply foldr_min_le.
Qed.

Lemma series_max_ge xs hi x : series_max xs = Some hi → x ∈ xs → (x ≤ hi)%Z.
Proof.
  destruct xs as [|y ys]; [done|]. simpl. intros [= <-]. apply foldr_max_ge.
Qed.

(** A value in the range of a type is left alone by the cast to it. *)
Lemma wrap_in_range w x :
  (iinfo_min w ≤ x ≤ iinfo_max w)%Z → wrap w x = x.
Proof.
  unfold wrap, iinfo_min, iinfo_max. intros Hx.
  destruct w; simpl in *; rewrite Z.mod_small; lia.
Qed.

Lemma astype_int_in_range w xs lo hi :
  series_min xs = Some lo → series_max xs = Some hi →
  (iinfo_min w ≤ lo)%Z → (hi ≤ iinfo_max w)%Z →
  astype_int w xs = IntCol w xs.
Proof.
  intros Hlo Hhi H1 H2. unfold astype_int. f_equal.
  rewrite <- (list_fmap_id xs) at 2. apply list_fmap_ext.
  intros i x Hx. simpl. apply wrap_in_range.
  apply list_elem_of_lookup_2 in Hx.
  pose proof (series_min_le _ _ _ Hlo Hx). pose proof (series_max_ge _ _ _ Hhi Hx). lia.
Qed.

Lemma bounds_true w xs :
  utils.ge_bound (series_min xs) (iinfo_min w)
    && utils.le_bound (series_max xs) (iinfo_max w) = true →
  ∃ lo hi, series_min xs = Some lo ∧ series_max xs = Some hi ∧
           (iinfo_min w ≤ lo)%Z ∧ (hi ≤ iinfo_max w)%Z.
Proof.
  intros [H1 H2]%andb_true_iff. unfold utils.ge_bound, utils.le_bound in *.
  destruct (series_min xs) as [lo|]; [|done].
  destruct (series_max xs) as [hi|]; [|done].
  apply bool_decide_eq_true in H1, H2. by exists lo, hi.
Qed.

Lemma getitem_Ok_elem d key c : getitem d key = Ok c → key ∈ columns d.
Proof.
  unfold getitem. intros Hg.
  destruct (filter (λ lc, lc.1 = key) (cols d)) as [|lc [|lc' rest]] eqn:Hf; try done.
  assert (Hin : lc ∈ filter (λ lc, lc.1 = key) (cols d)) by (rewrite Hf; left).
  apply list_elem_of_filter in Hin as [<- Hin].
  apply list_elem_of_fmap. eauto.
Qed.

Lemma setitem_lookup_eq d key c i c' :
  key ∈ columns d →
  cols d !! i = Some (key, c') → cols (setitem d key c) !! i = Some (key, c).
Proof.
  intros Hin Hi. unfold setitem. simpl. rewrite bool_decide_eq_true_2 by done.
  rewrite list_lookup_fmap, Hi. simpl. by rewrite bool_decide_eq_true_2.
Qed.

Lemma int64_kept_refl d : int64_kept d d.
Proof. split; [done|]. split; [done|]. intros i label xs Hi. exists W64. by split. Qed.

(** Overwriting a column that is not an integer column. *)
Lemma int64_kept_setitem_other d dc col c v :
  int64_kept d dc → getitem dc col = Ok c → (∀ w xs, c ≠ IntCol w xs) →
  int64_kept d (setitem dc col v).
Proof.
  intros (Hidx & Hcols & Hint) Hg Hc.
  pose proof (getitem_Ok_elem _ _ _ Hg) as Hin.
  split; [done|]. split; [by rewrite setitem_columns|].
  intros i label xs Hi. destruct (Hint _ _ _ Hi) as (w & Hdc & Hfit).
  exists w. split; [|done].
  destruct (decide (label = col)) as [->|Hne].
  - pose proof (getitem_Ok_lookup _ _ _ _ _ Hg Hdc) as Heq. by destruct (Hc w xs).
  - by apply setitem_lookup_ne.
Qed.

(** Casting an integer column to a type that holds its minimum and maximum. *)
Lemma int64_kept_setitem_int d dc col w0 xs w :
  int64_kept d dc → getitem dc col = Ok (IntCol w0 xs) →
  utils.ge_bound (series_min xs) (iinfo_min w)
    && utils.le_bound (series_max xs) (iinfo_max w) = true →
  int64_kept d (setitem dc col (astype_int w xs)).
Proof.
  intros (Hidx & Hcols & Hint) Hg Hb.
  pose proof (getitem_Ok_elem _ _ _ Hg) as Hin.
  destruct (bounds_true _ _ Hb) as (lo & hi & Hlo & Hhi & H1 & H2).
  split; [done|]. split; [by rewrite setitem_columns|].
  intros i label ys Hi. destruct (Hint _ _ _ Hi) as (w' & Hdc & Hfit).
  destruct (decide (label = col)) as [->|Hne].
  - pose proof (getitem_Ok_lookup _ _ _ _ _ Hg Hdc) as [= -> ->].
    exists w. split.
    + rewrite (astype_int_in_range w xs lo hi) by done.
      by eapply setitem_lookup_eq.
    + intros _. by exists lo, hi.
  - exists w'. split; [|done]. by apply setitem_lookup_ne.
Qed.

Section Optimize.

Variable round_float32 : pyfloat → pyfloat.
Variable allclose : list pyfloat → list pyfloat → bool.

Local Abbreviation optimize_dtypes := (utils.optimize_dtypes round_float32 allclose).

Lemma optimize_dtypes_spec df d w :
  heap w !! df = Some d →
  wp (optimize_dtypes df) w (λ r w',
    heap w ⊆ heap w' ∧
    ∀ out, r = Ok out →
      heap w !! out = None ∧ ∃ d1, heap w' !! out = Some d1 ∧ int64_kept d d1).
Proof.
  intros Hd. unfold utils.optimize_dtypes.
  apply wp_bind, (wp_df_copy _ d); [done|]. intros l Hl.
  (* while the loops run: the copy at [l] keeps the integer columns, the
     objects of the caller are untouched *)
  set (Inv := λ w1 : world,
         heap w ⊆ heap w1 ∧ ∃ dc, heap w1 !! l = Some dc ∧ int64_kept d dc).
  set (Q := λ (r : result loc) (w' : world),
         heap w ⊆ heap w' ∧
         ∀ out, r = Ok out →
           heap w !! out = None ∧ ∃ d1, heap w' !! out = Some d1 ∧ int64_kept d d1).
  assert (Hset : ∀ w1 dc col v,
            heap w ⊆ heap w1 → heap w1 !! l = Some dc → int64_kept d (setitem dc col v) →
            Inv (set_heap (<[l := setitem dc col v]> (heap w1)) w1)).
  { intros w1 dc col v Hsub Hdc Hk. split; simpl.
    - apply keeps_insert; [done|]. done.
    - eexists. split; [by rewrite lookup_insert_eq|done]. }
  assert (Hstart : Inv (set_heap (<[l := d]> (heap w)) w)).
  { split; simpl; [by apply keeps_insert|].
    exists d. split; [by rewrite lookup_insert_eq|apply int64_kept_refl]. }
  revert Hstart. generalize (set_heap (<[l := d]> (heap w)) w). intros w0 H0.
  destruct H0 as (Hsub0 & dc0 & Hdc0 & Hk0).
  apply wp_bind, (wp_df_select_dtypes_columns _ dc0); [done|].
  apply wp_bind.
  apply (wp_for_each _ _ Inv); [by split; eauto| |].
  { intros col w1 _ (Hsub & dc & Hdc & Hk).
    apply wp_bind, (wp_df_getitem _ dc); [done|].
    destruct (getitem dc col) as [c|e] eqn:Hg; [|by split].
    destruct c as [w0' xs| | | | |]; try (apply wp_raise; by split).
    destruct (utils.ge_bound _ (iinfo_min W8) && _) eqn:H8.
    { apply (wp_df_setitem _ dc); [done|]. apply Hset; try done.
      by eapply int64_kept_setitem_int. }
    destruct (utils.ge_bound _ (iinfo_min W16) && _) eqn:H16.
    { apply (wp_df_setitem _ dc); [done|]. apply Hset; try done.
      by eapply int64_kept_setitem_int. }
    destruct (utils.ge_bound _ (iinfo_min W32) && _) eqn:H32.
    { apply (wp_df_setitem _ dc); [done|]. apply Hset; try done.
      by eapply int64_kept_setitem_int. }
    apply wp_ret. split; eauto. }
  clear dependent w0. clear dc0 Hk0. intros w0 (Hsub0 & dc0 & Hdc0 & Hk0).
  apply wp_bind, (wp_df_select_dtypes_columns _ dc0); [done|].
  apply wp_bind.
  apply (wp_for_each _ _ Inv); [by split; eauto| |].
  { intros col w1 _ (Hsub & dc & Hdc & Hk).
    apply wp_bind, (wp_df_getitem _ dc); [done|].
    destruct (getitem dc col) as [c|e] eqn:Hg; [|by split].
    destruct c as [|w0' xs| | | |]; try (apply wp_raise; by split).
    apply (wp_df_setitem _ dc); [done|]. apply Hset; try done.
    by eapply int64_kept_setitem_other. }
  clear dependent w0. clear dc0 Hk0. intros w0 (Hsub0 & dc0 & Hdc0 & Hk0).
  apply wp_bind, (wp_df_select_dtypes_columns _ dc0); [done|].
  apply wp_bind.
  apply (wp_for_each _ _ Inv); [by split; eauto| |].
  { intros col w1 _ (Hsub & dc & Hdc & Hk).
    apply wp_bind, (wp_df_getitem _ dc); [done|].
    destruct (getitem dc col) as [c|e] eqn:Hg; [|by split].
    apply wp_bind, (wp_df_len _ dc); [done|].
    destruct c as [| | |xs| |]; try (apply wp_raise; by split).
    case_bool_decide; [apply wp_raise; by split|].
    apply wp_when; intros _; [|split; eauto].
    apply (wp_df_setitem _ dc); [done|]. apply Hset; try done.
    by eapply int64_kept_setitem_other. }
  clear dependent w0. clear dc0 Hk0. intros w0 (Hsub0 & dc0 & Hdc0 & Hk0).
  apply wp_ret. split; [done|]. intros out [= <-]. split; [done|]. eauto.
Qed.

End Optimize.

(** C10. When [optimize_dtypes] returns, the result has the shape and the
    labels of the argument, and every 64-bit integer column of the argument
    is an integer column with exactly the same values; its type is narrower
    than 64 bits only if the minimum and the maximum of the column lie in the
    range of that type. *)
Theorem optimize_dtypes_preserves_int64
    (round_float32 : pyfloat → pyfloat) (allclose : list pyfloat → list pyfloat → bool)
    w df d out w1 :
  heap w !! df = Some d →
  utils.optimize_dtypes round_float32 allclose df w = (Ok out, w1) →
  ∃ d1, heap w1 !! out = Some d1 ∧
        shape d1 = shape d ∧ columns d1 = columns d ∧
        ∀ i label xs, cols d !! i = Some (label, IntCol W64 xs) →
          ∃ t, cols d1 !! i = Some (label, IntCol t xs) ∧
               (t ≠ W64 →
                ∃ lo hi, series_min xs = Some lo ∧ series_max xs = Some hi ∧
                         (iinfo_min t ≤ lo)%Z ∧ (hi ≤ iinfo_max t)%Z).
Proof.
  intros Hd Hrun.
  pose proof (optimize_dtypes_spec round_float32 allclose df d w Hd) as H.
  unfold wp in H. rewrite Hrun in H. simpl in H.
  destruct H as [_ H]. destruct (H out eq_refl) as (_ & d1 & Hd1 & Hidx & Hcols & Hint).
  exists d1. split; [done|]. split; [|by split].
  unfold shape. f_equal; [by rewrite Hidx|].
  unfold columns in Hcols. by rewrite <- (length_fmap fst (cols d1)), Hcols, length_fmap.
Qed.

Lemma optimize_dtypes_preserves_int64_witness :
  ∃ out w1 d1,
    utils.optimize_dtypes (λ x, x) (λ _ _, true) 1%positive example_world = (Ok out, w1) ∧
    heap w1 !! out = Some d1 ∧ shape d1 = shape example_frame.
Proof.
  destruct (utils.optimize_dtypes (λ x, x) (λ _ _, true) 1%positive example_world)
    as [[out|e] w1] eqn:Hrun; [|by vm_compute in Hrun].
  destruct (optimize_dtypes_preserves_int64 (λ x, x) (λ _ _, true)
              example_world 1%positive example_frame out w1)
    as (d1 & H1 & H2 & _).
  { reflexivity. }
  { exact Hrun. }
  exists out, w1, d1. auto.
Defined.

(** The counts 5, 7, 5 fit in eight bits. *)
Example optimize_dtypes_example :
  ∃ out w1,
    utils.optimize_dtypes (λ x, x) (λ _ _, true) 1%positive example_world = (Ok out, w1) ∧
    (cols <$> heap w1 !! out) =
      Some [(lit "origin", ObjectCol [Some (lit "A"); Some (lit "B"); Some (lit "A")]);
            (lit "migration_count", IntCol W8 [5; 7; 5]%Z)].
Proof. eexists _, _. split; vm_compute; reflexivity. Qed.

(** The division by the number of rows fails on a table without rows that
    has a text column. *)
Example optimize_dtypes_no_rows :
  (utils.optimize_dtypes (λ x, x) (λ _ _, true) 1%positive
     {| heap := {[ 1%positive := {| index := []; cols := [(lit "origin", ObjectCol [])] |} ]};
        files := ∅; log := []; np_random := 0%N; threads := 0%N |}).1
  = Raise ZeroDivisionError.
Proof. vm_compute. reflexivity. Qed.

(** *** When the call returns *)

Lemma getitem_NoDup d key c :
  NoDup (columns d) → (key, c) ∈ cols d → getitem d key = Ok c.
Proof.
  unfold getitem, columns. intros Hnd Hin.
  assert (Hf : filter (λ lc, lc.1 = key) (cols d) = [(key, c)]).
  { induction (cols d) as [|[l c'] cs IH]; [by apply elem_of_nil in Hin|].
    rewrite fmap_cons in Hnd. apply NoDup_cons in Hnd as [Hl Hnd]. simpl in Hl.
    apply elem_of_cons in Hin as [[= <- <-]|Hin].
    - rewrite filter_cons_True by done. f_equal.
      apply filter_none. intros [l' c''] Hin' Heq. simpl in Heq. subst l'.
      apply Hl. apply list_elem_of_fmap. by exists (key, c'').
    - rewrite filter_cons_False; [by apply IH|].
      simpl. intros ->. apply Hl. apply list_elem_of_fmap. by exists (key, c). }
  by rewrite Hf.
Qed.

Lemma select_dtypes_getitem p d col :
  NoDup (columns d) → col ∈ select_dtypes p d →
  ∃ c, getitem d col = Ok c ∧ p (dtype_of c) = true.
Proof.
  intros Hnd. unfold select_dtypes.
  intros ([l c] & -> & [Hp Hin]%list_elem_of_filter)%list_elem_of_fmap. simpl in *.
  exists c. split; [by apply getitem_NoDup|done].
Qed.

Lemma select_dtypes_NoDup p d : NoDup (columns d) → NoDup (select_dtypes p d).
Proof.
  unfold select_dtypes, columns. intros Hnd.
  induction (cols d) as [|[l c] cs IH]; [constructor|].
  rewrite fmap_cons in Hnd. apply NoDup_cons in Hnd as [Hl Hnd]. simpl in Hl.
  destruct (decide (p (dtype_of c) = true)) as [Hp|Hp].
  - rewrite filter_cons_True by done. rewrite fmap_cons. apply NoDup_cons.
    split; [|by apply IH]. simpl. intros Hin. apply Hl.
    apply list_elem_of_fmap in Hin as (lc & -> & [_ Hin]%list_elem_of_filter).
    apply list_elem_of_fmap. by exists lc.
  - rewrite filter_cons_False by done. by apply IH.
Qed.

Lemma getitem_setitem_eq d key c v :
  NoDup (columns d) → getitem d key = Ok c → getitem (setitem d key v) key = Ok v.
Proof.
  intros Hnd Hg. pose proof (getitem_Ok_elem _ _ _ Hg) as Hin.
  apply getitem_NoDup; [by rewrite setitem_columns|].
  unfold columns in Hin. apply list_elem_of_fmap in Hin as ([l c'] & -> & Hin).
  apply list_elem_of_lookup in Hin as [i Hi]. simpl in *.
  apply (list_elem_of_lookup_2 _ i).
  apply setitem_lookup_eq with (c' := c'); [|done].
  apply list_elem_of_fmap. exists (l, c'). split; [done|]. by eapply list_elem_of_lookup_2.
Qed.

Lemma getitem_setitem_ne d key key' v :
  key ∈ columns d → key' ≠ key → getitem (setitem d key v) key' = getitem d key'.
Proof.
  intros Hin Hne. unfold getitem, setitem. simpl. rewrite bool_decide_eq_true_2 by done.
  assert (Hf : filter (λ lc, lc.1 = key')
                 ((λ lc, if bool_decide (lc.1 = key) then (key, v) else lc) <$> cols d)
               = filter (λ lc, lc.1 = key') (cols d)); [|by rewrite Hf].
  clear Hin. induction (cols d) as [|[l c'] cs IH]; [done|].
  rewrite fmap_cons. simpl. case_bool_decide as Hl.
  - subst l. rewrite !filter_cons_False by (simpl; congruence). exact IH.
  - destruct (decide (l = key')) as [->|Hl'].
    + rewrite !filter_cons_True by done. by rewrite IH.
    + rewrite !filter_cons_False by done. exact IH.
Qed.

Section OptimizeReturns.

Variable round_float32 : pyfloat → pyfloat.
Variable allclose : list pyfloat → list pyfloat → bool.

(** A table with pairwise different labels and at least one row is
    optimized without an exception. *)
Lemma optimize_dtypes_returns df d w :
  heap w !! df = Some d →
  NoDup (columns d) → index d ≠ [] →
  ∃ out w1, utils.optimize_dtypes round_float32 allclose df w = (Ok out, w1).
Proof.
  intros Hd Hnd Hrows.
  cut (wp (utils.optimize_dtypes round_float32 allclose df) w
          (λ r _, ∃ out, r = Ok out)).
  { unfold wp. destruct (utils.optimize_dtypes _ _ df w) as [r w1]. simpl.
    intros [out ->]. by exists out, w1. }
  unfold utils.optimize_dtypes.
  apply wp_bind, (wp_df_copy _ d); [done|]. intros l Hl.
  set (Base := λ (dc : DataFrame), columns dc = columns d ∧ index dc = index d).
  set (Inv := λ (P : column → Prop) (rest : list str) (w1 : world),
         ∃ dc, heap w1 !! l = Some dc ∧ Base dc ∧ NoDup rest ∧
               ∀ col, col ∈ rest → ∃ c, getitem dc col = Ok c ∧ P c).
  assert (Hstart : ∀ p (P : column → Prop) dc w1,
            heap w1 !! l = Some dc → Base dc →
            (∀ c, p (dtype_of c) = true → P c) →
            Inv P (select_dtypes p dc) w1).
  { intros p P dc w1 Hdc [Hc Hi] HP. exists dc. split; [done|]. split; [done|].
    split; [apply select_dtypes_NoDup; by rewrite Hc|].
    intros col Hcol. destruct (select_dtypes_getitem p dc col) as (c & Hg & Hp);
      [by rewrite Hc|done|]. eauto. }
  assert (Hstep : ∀ (P : column → Prop) col rest dc w1 c v,
            heap w1 !! l = Some dc → Base dc → NoDup (col :: rest) →
            (∀ col', col' ∈ col :: rest → ∃ c, getitem dc col' = Ok c ∧ P c) →
            getitem dc col = Ok c →
            Inv P rest (set_heap (<[l := setitem dc col v]> (heap w1)) w1)).
  { intros P col rest dc w1 c v Hdc [Hc Hi] Hnd' Hall Hg.
    apply NoDup_cons in Hnd' as [Hcol Hnd'].
    pose proof (getitem_Ok_elem _ _ _ Hg) as Hin.
    exists (setitem dc col v). split; [by simpl; rewrite lookup_insert_eq|].
    split; [split; [by rewrite setitem_columns|done]|]. split; [done|].
    intros col' Hcol'. rewrite getitem_setitem_ne by (done || congruence).
    apply Hall. by right. }
  assert (Hskip : ∀ (P : column → Prop) col rest w1,
            Inv P (col :: rest) w1 → Inv P rest w1).
  { intros P col rest w1 (dc & Hdc & HB & Hnd' & Hall).
    apply NoDup_cons in Hnd' as [_ Hnd'].
    exists dc. repeat (split; [done|]). intros col' Hcol'. apply Hall. by right. }
  assert (H0 : ∃ dc, heap (set_heap (<[l := d]> (heap w)) w) !! l = Some dc ∧ Base dc).
  { exists d. split; [by simpl; rewrite lookup_insert_eq|done]. }
  revert H0. generalize (set_heap (<[l := d]> (heap w)) w). clear Hd Hl.
  intros w0 (dc0 & Hdc0 & HB0).
  (* integer columns *)
  apply wp_bind, (wp_df_select_dtypes_columns _ dc0); [done|].
  apply wp_bind.
  apply (wp_for_each_rest _ _ (Inv (λ c, ∃ t xs, c = IntCol t xs))).
  { apply Hstart; [done|done|]. intros [] Hp; try done. eauto. }
  { intros col rest w1 Hinv. pose proof Hinv as (dc & Hdc & HB & Hnd' & Hall).
    destruct (Hall col ltac:(left)) as (c & Hg & t & xs & ->).
    apply wp_bind, (wp_df_getitem _ dc); [done|]. rewrite Hg.
    repeat (destruct (utils.ge_bound _ _ && _);
            [by apply (wp_df_setitem _ dc); [done|]; eapply Hstep|]).
    apply wp_ret. by eapply Hskip. }
  clear dependent w0. clear dc0 HB0. intros w0 (dc0 & Hdc0 & HB0 & _).
  (* float columns *)
  apply wp_bind, (wp_df_select_dtypes_columns _ dc0); [done|].
  apply wp_bind.
  apply (wp_for_each_rest _ _ (Inv (λ c, ∃ t xs, c = FloatCol t xs))).
  { apply Hstart; [done|done|]. intros [] Hp; try done. eauto. }
  { intros col rest w1 Hinv. pose proof Hinv as (dc & Hdc & HB & Hnd' & Hall).
    destruct (Hall col ltac:(left)) as (c & Hg & t & xs & ->).
    apply wp_bind, (wp_df_getitem _ dc); [done|]. rewrite Hg.
    apply (wp_df_setitem _ dc); [done|]. by eapply Hstep. }
  clear dependent w0. clear dc0 HB0. intros w0 (dc0 & Hdc0 & HB0 & _).
  (* text columns *)
  apply wp_bind, (wp_df_select_dtypes_columns _ dc0); [done|].
  apply wp_bind.
  apply (wp_for_each_rest _ _ (Inv (λ c, ∃ xs, c = ObjectCol xs))).
  { apply Hstart; [done|done|]. intros [] Hp; try done. eauto. }
  { intros col rest w1 Hinv. pose proof Hinv as (dc & Hdc & HB & Hnd' & Hall).
    destruct (Hall col ltac:(left)) as (c & Hg & xs & ->).
    apply wp_bind, (wp_df_getitem _ dc); [done|]. rewrite Hg.
    apply wp_bind, (wp_df_len _ dc); [done|].
    rewrite bool_decide_eq_false_2.
    2:{ unfold len. destruct HB as [_ ->]. by destruct (index d). }
    apply wp_when; intros _; [|by eapply Hskip].
    apply (wp_df_setitem _ dc); [done|]. by eapply Hstep. }
  intros w1 _. apply wp_ret. eauto.
Qed.

End OptimizeReturns.

(** ** utils.calculate_migration_metrics *)

Lemma exact_sum_app xs ys : exact_sum (xs ++ ys) = (exact_sum xs + exact_sum ys)%Z.
Proof. unfold exact_sum. induction xs as [|x xs IH]; cbn [foldr app]; lia. Qed.

Lemma abs_sum_app xs ys : abs_sum (xs ++ ys) = (abs_sum xs + abs_sum ys)%Z.
Proof.
  unfold abs_sum. induction xs as [|x xs IH]; [done|].
  cbn [app]. rewrite !fmap_cons. cbn [foldr]. lia.
Qed.

Lemma abs_exact_sum xs : (Z.abs (exact_sum xs) ≤ abs_sum xs)%Z.
Proof.
  unfold exact_sum, abs_sum. induction xs as [|x xs IH]; [done|].
  rewrite fmap_cons. cbn [foldr]. lia.
Qed.

Lemma exact_sum_Permutation xs ys : xs ≡ₚ ys → exact_sum xs = exact_sum ys.
Proof. unfold exact_sum. induction 1; cbn [foldr]; lia. Qed.

Lemma abs_sum_Permutation xs ys : xs ≡ₚ ys → abs_sum xs = abs_sum ys.
Proof. unfold abs_sum. induction 1; rewrite ?fmap_cons; cbn [foldr]; lia. Qed.

(** A rearrangement of the images of [zs] is the images of a rearrangement
    of [zs]. *)
Lemma Permutation_fmap_inv {A B} (f : A → B) ys l :
  ys ≡ₚ l → ∀ zs, l = f <$> zs → ∃ zs', ys = f <$> zs' ∧ zs' ≡ₚ zs.
Proof.
  induction 1 as [|y ys l _ IH|y1 y2 l|ys l1 l2 _ IH1 _ IH2]; intros zs Hzs.
  - symmetry in Hzs. apply fmap_nil_inv in Hzs as ->. by exists [].
  - symmetry in Hzs. apply fmap_cons_inv in Hzs as (z & zs0 & -> & -> & ->).
    destruct (IH zs0 eq_refl) as (zs' & -> & Hp). exists (z :: zs').
    split; [done|]. by constructor.
  - symmetry in Hzs. apply fmap_cons_inv in Hzs as (z1 & zs0 & -> & Hzs & ->).
    symmetry in Hzs. apply fmap_cons_inv in Hzs as (z2 & zs1 & -> & -> & ->).
    exists (z2 :: z1 :: zs1). split; [done|]. apply Permutation_swap.
  - destruct (IH2 zs Hzs) as (zs2 & -> & Hp2).
    destruct (IH1 zs2 eq_refl) as (zs1 & -> & Hp1).
    exists zs1. split; [done|]. by etrans.
Qed.

(** Adding up whole numbers whose absolute values stay within the
    significand gives their sum, whatever the grouping. *)
Lemma summed_whole add w ys v :
  float_add_contract add →
  summed (add w) ys v →
  ∀ zs, ys = float_of_Z <$> zs → (abs_sum zs ≤ 2 ^ precision w)%Z →
        v = float_of_Z (exact_sum zs).
Proof.
  intros Hadd. induction 1 as [|x|xs ys a b _ IHa _ IHb]; intros zs Hzs Hbound.
  - symmetry in Hzs. by apply fmap_nil_inv in Hzs as ->.
  - symmetry in Hzs. apply fmap_cons_inv in Hzs as (z & zs0 & -> & Hnil & ->).
    symmetry in Hnil. apply fmap_nil_inv in Hnil as ->.
    unfold exact_sum. simpl. f_equal. f_equal. lia.
  - symmetry in Hzs. apply fmap_app_inv in Hzs as (zs1 & zs2 & -> & -> & ->).
    rewrite abs_sum_app in Hbound.
    pose proof (abs_exact_sum zs1). pose proof (abs_exact_sum zs2).
    assert (0 ≤ abs_sum zs1)%Z by lia. assert (0 ≤ abs_sum zs2)%Z by lia.
    rewrite (IHa zs1 eq_refl), (IHb zs2 eq_refl) by lia.
    rewrite exact_sum_app. apply Hadd; lia.
Qed.

(** Adding one after the other is one of the groupings. *)
Lemma summed_foldl add ys : ∀ pre acc,
  summed add pre acc → summed add (pre ++ ys) (foldl add acc ys).
Proof.
  induction ys as [|y ys IH]; intros pre acc Hacc; simpl.
  - by rewrite app_nil_r.
  - rewrite (cons_middle y pre ys), app_assoc. apply IH.
    apply summed_add; [done|constructor].
Qed.

Lemma round_float_whole w z :
  (Z.abs z ≤ 2 ^ precision w)%Z → round_float w (Qc_of_Z z) = float_of_Z z.
Proof.
  intros Hz. unfold round_float. cbn [Qc_of_Z this inject_Z Qnum Qden].
  by rewrite bool_decide_eq_true_2.
Qed.

Lemma float_add_keeps_contract : float_add_contract float_add.
Proof.
  intros w a b _ _ Hab. unfold float_of_Z. cbn [float_add].
  rewrite <- Z2Qc_inj_add. by apply round_float_whole.
Qed.

Lemma float_sum_in_order_contract : float_sum_contract float_add float_sum_in_order.
Proof.
  intros w xs. exists (filter (λ x, isnan x = false) xs). split; [done|].
  unfold float_sum_in_order. apply (summed_foldl _ _ []). constructor.
Qed.

Section Metrics.

Variable float_sum : float_width → list pyfloat → pyfloat.
Variable object_sum : list (option str) → result cell.
Variable compute_others : DataFrame → str → str → str → result utils.other_metrics.

(** The first entry is the sum of the migration column, computed before
    anything else. *)
Lemma calculate_migration_metrics_total df d origin_col destination_col migration_col w :
  heap w !! df = Some d →
  wp (utils.calculate_migration_metrics float_sum object_sum compute_others
        df origin_col destination_col migration_col) w
     (λ r _, ∀ m, r = Ok m →
        ∃ c, getitem d migration_col = Ok c ∧
             utils.series_sum float_sum object_sum c = Ok (utils.total_migration m)).
Proof.
  intros Hd. unfold utils.calculate_migration_metrics.
  apply wp_bind, (wp_df_getitem _ d); [done|].
  destruct (getitem d migration_col) as [c|e]; [|done].
  apply wp_bind, wp_lift.
  destruct (utils.series_sum float_sum object_sum c) as [total|e] eqn:Hs; [|done].
  apply wp_bind, (wp_read _ d); [done|].
  destruct (negb _); [done|].
  apply wp_bind, wp_lift.
  destruct (compute_others d origin_col destination_col migration_col); [|done].
  apply wp_ret. intros ? [= <-]. exists c. split; [done|]. exact Hs.
Qed.


End Metrics.



(** ** MigrationAnalyzer.migration_clustering *)

Section Clustering.

Variable fit_transform : DataFrame → result (list (list pyfloat)).
Variable RandomState : Z → rng_state.
Variable kmeans : thread_state → rng_state → Z → list (list pyfloat)
                  → result (list Z * pyfloat * list (list pyfloat)).

Local Abbreviation migration_clustering :=
  (MigrationAnalyzer.migration_clustering fit_transform RandomState kmeans).

(** The run reads the table at [df] and nothing else of the world. *)
Lemma migration_clustering_spec df d feature_cols n_clusters w :
  heap w !! df = Some d →
  wp (migration_clustering df feature_cols n_clusters) w (λ r w',
    match clustering_of fit_transform RandomState kmeans (threads w) d feature_cols
            n_clusters with
    | Ok (d1, info) => ∃ l, r = Ok (l, info) ∧ heap w' !! l = Some d1
    | Raise e => r = Raise e
    end).
Proof.
  intros Hd. unfold MigrationAnalyzer.migration_clustering, clustering_of.
  apply wp_bind. unfold df_getitem_list.
  apply wp_bind, (wp_read _ d); [done|].
  apply wp_bind, wp_lift.
  destruct (getitem_list d feature_cols) as [cs|e]; [|done].
  cbv zeta. apply wp_new_frame. intros l1 Hl1.
  set (d0 := {| index := index d; cols := cs |}).
  apply wp_bind, (wp_df_dropna _ d0); [by simpl; rewrite lookup_insert_eq|].
  simpl. intros l2 Hl2.
  apply wp_bind, (wp_read _ (frame_dropna d0)); [by simpl; rewrite lookup_insert_eq|].
  apply wp_bind, wp_lift.
  destruct (fit_transform (frame_dropna d0)) as [scaled|e]; [|done].
  apply wp_bind. unfold MigrationAnalyzer.KMeans_fit_predict.
  apply wp_bind, wp_ret, wp_bind, wp_get_threads, wp_lift. cbn [threads set_heap].
  destruct (kmeans (threads w) (RandomState 42%Z) n_clusters scaled) as [fit|e]; [|done].
  apply wp_bind, (wp_df_copy _ (frame_dropna d0)); [by simpl; rewrite lookup_insert_eq|].
  simpl. intros l3 Hl3.
  apply wp_bind. unfold df_setitem_array.
  apply wp_bind, (wp_read _ (frame_dropna d0)); [by simpl; rewrite lookup_insert_eq|].
  change (cells (IntCol W32 fit.1.1)) with (CInt <$> fit.1.1).
  case_bool_decide as Hb; [|by apply wp_raise].
  apply wp_write, wp_bind, wp_logger_info, wp_ret. simpl.
  exists l3. split; [done|]. by rewrite lookup_insert_eq.
Qed.


End Clustering.

Lemma kmeans_three_rows_seeded : seeded_fit_labels kmeans_three_rows.
Proof. by intros t1 t2 rs k data. Qed.


(** The two runs of the witness return different inertias. *)
Example migration_clustering_inertia_differs :
  ∃ out1 info1 w1 out2 info2 w2,
    MigrationAnalyzer.migration_clustering (λ _, Ok []) (λ seed, Z.to_N seed)
      kmeans_three_rows 1%positive [lit "migration_count"] 2%Z example_world
      = (Ok (out1, info1), w1) ∧
    MigrationAnalyzer.migration_clustering (λ _, Ok []) (λ seed, Z.to_N seed)
      kmeans_three_rows 7%positive [lit "migration_count"] 2%Z busy_world
      = (Ok (out2, info2), w2) ∧
    MigrationAnalyzer.inertia info1 ≠ MigrationAnalyzer.inertia info2.
Proof.
  eexists _, _, _, _, _, _.
  split; [vm_compute; reflexivity|]. split; [vm_compute; reflexivity|].
  vm_compute. intros H. by injection H.
Qed.

(** Without a seed the fit would read the global generator: the same call in
    two worlds that differ in that state only can give different labels. *)
Example unseeded_fit_reads_global_state :
  (MigrationAnalyzer.KMeans_fit_predict (λ seed, Z.to_N seed)
     (λ _ rs _ _, Ok ([Z.of_N rs], Fin 0, [])) 2%Z None []
     {| heap := ∅; files := ∅; log := []; np_random := 0%N; threads := 0%N |}).1
  ≠ (MigrationAnalyzer.KMeans_fit_predict (λ seed, Z.to_N seed)
       (λ _ rs _ _, Ok ([Z.of_N rs], Fin 0, [])) 2%Z None []
       {| heap := ∅; files := ∅; log := []; np_random := 1%N; threads := 0%N |}).1.
Proof. vm_compute. discriminate. Qed.

(** The cluster labels are stored in a new column of the result. *)
Example migration_clustering_example :
  ∃ out info w1,
    MigrationAnalyzer.migration_clustering (λ _, Ok []) (λ seed, Z.to_N seed)
      (λ _ _ _ _, Ok ([0; 1; 0]%Z, Fin 0, []))
      1%positive [lit "migration_count"] 2%Z example_world = (Ok (out, info), w1) ∧
    (cols <$> heap w1 !! out) =
      Some [(lit "migration_count", IntCol W64 [5; 7; 5]%Z);
            (lit "cluster", IntCol W32 [0; 1; 0]%Z)] ∧
    MigrationAnalyzer.cluster_sizes info = [(0%Z, 2%nat); (1%Z, 1%nat)].
Proof. eexists _, _, _. repeat split; vm_compute; reflexivity. Qed.

(** ** DataLoader.load_csv *)

Lemma unnamed_named (names : list str) :
  [] ∉ names → imap unnamed names = names.
Proof.
  intros Hne. apply list_eq. intros i. rewrite list_lookup_imap.
  destruct (names !! i) as [name|] eqn:Hi; simpl; [|done].
  unfold unnamed. rewrite bool_decide_eq_false_2; [done|].
  intros ->. apply Hne. by eapply list_elem_of_lookup_2.
Qed.

Lemma dedup_names_distinct (names : list str) :
  NoDup names → dedup_names names = names.
Proof.
  intros Hnd. apply list_eq. intros i. unfold dedup_names.
  rewrite list_lookup_imap.
  destruct (names !! i) as [name|] eqn:Hi; simpl; [|done].
  rewrite filter_none; [done|].
  intros n Hn ->. apply list_elem_of_lookup in Hn as [j Hj].
  pose proof (lookup_lt_Some _ _ _ Hj) as Hlt. rewrite length_take in Hlt.
  rewrite lookup_take_lt in Hj by lia.
  pose proof (NoDup_lookup _ _ _ _ Hnd Hi Hj). lia.
Qed.

Section Loading.

Variable infer_dtype : list str → dtype.
Variable parse_int : str → Z.
Variable parse_float : str → pyfloat.
Variable parse_bool : str → bool.
Variable na_values : list str.

Local Abbreviation pandas_read_csv :=
  (read_csv infer_dtype parse_int parse_float parse_bool na_values).
Local Abbreviation loader_load_csv :=
  (DataLoader.load_csv infer_dtype parse_int parse_float parse_bool na_values).

(** A file with a header whose records all have as many fields as the header
    is read into a table of that shape. *)
Lemma read_csv_rectangular f :
  header f ≠ [] →
  Forall (λ r, length r = length (header f)) (records f) →
  ∃ d, pandas_read_csv f = Ok d ∧
       shape d = (length (records f), length (header f)) ∧
       columns d = dedup_names (imap unnamed (header f)).
Proof.
  intros Hh Hrect. unfold read_csv.
  assert (Hrs : filter (λ r, r ≠ []) (records f) = records f).
  { induction Hrect as [|r rs Hr _ IH]; [done|].
    rewrite filter_cons_True, IH; [done|].
    intros ->. simpl in Hr. destruct (header f); done. }
  rewrite Hrs. rewrite bool_decide_eq_false_2 by done.
  rewrite bool_decide_eq_true_2.
  2:{ eapply Forall_impl; [exact Hrect|]. simpl. intros r ->. done. }
  eexists. split; [done|]. unfold shape, columns. simpl. split.
  - f_equal.
    + by rewrite length_fmap, length_seq.
    + rewrite length_zip. unfold dedup_names.
      rewrite !length_imap, length_fmap, length_seq. lia.
  - apply fst_zip. unfold dedup_names.
    rewrite !length_imap, length_fmap, length_seq. done.
Qed.

Lemma load_csv_spec self filename data_type dir f w :
  (data_type, dir) ∈ [(lit "raw", DataLoader.raw_dir self);
                      (lit "processed", DataLoader.processed_dir self);
                      (lit "external", DataLoader.external_dir self)] →
  files w !! DataLoader.joinpath dir filename = Some f →
  wp (loader_load_csv self filename data_type) w (λ r w',
    match pandas_read_csv f with
    | Ok d => ∃ l, r = Ok l ∧ heap w !! l = None ∧ heap w' !! l = Some d
    | Raise e => r = Raise e
    end).
Proof.
  intros Hin Hf. unfold DataLoader.load_csv.
  assert (Hfind : ∃ i, list_find (λ kv : str * str, kv.1 = data_type)
             [(lit "raw", DataLoader.raw_dir self);
              (lit "processed", DataLoader.processed_dir self);
              (lit "external", DataLoader.external_dir self)]
           = Some (i, (data_type, dir))).
  { rewrite !elem_of_cons, elem_of_nil in Hin.
    destruct Hin as [[= -> ->]|[[= -> ->]|[[= -> ->]|[]]]];
      [exists 0%nat|exists 1%nat|exists 2%nat]; reflexivity. }
  destruct Hfind as [i ->].
  apply wp_bind. unfold wp, DataLoader.path_exists. simpl. rewrite Hf.
  rewrite bool_decide_eq_true_2 by eauto. simpl.
  unfold DataLoader.pd_read_csv, mbind, M_bind, logger_info. simpl. rewrite Hf.
  destruct (pandas_read_csv f) as [d|e]; simpl; [|done].
  eexists. split; [done|]. split.
  - apply not_elem_of_dom, is_fresh.
  - by rewrite lookup_insert_eq.
Qed.

End Loading.

(** C8 (amended). For a CSV file in one of the three data directories that
    has a header and N records of as many fields as the header has names,
    [load_csv] returns a new table of N rows and as many columns as the
    header has names; the column labels are the header names verbatim when
    these are pairwise different and none is blank. *)
Theorem load_csv_shape_and_names
    (infer_dtype : list str → dtype) (parse_int : str → Z)
    (parse_float : str → pyfloat) (parse_bool : str → bool) (na_values : list str)
    self filename data_type dir f w :
  (data_type, dir) ∈ [(lit "raw", DataLoader.raw_dir self);
                      (lit "processed", DataLoader.processed_dir self);
                      (lit "external", DataLoader.external_dir self)] →
  files w !! DataLoader.joinpath dir filename = Some f →
  header f ≠ [] →
  Forall (λ r, length r = length (header f)) (records f) →
  ∃ out w1 d1,
    DataLoader.load_csv infer_dtype parse_int parse_float parse_bool na_values
      self filename data_type w = (Ok out, w1) ∧
    heap w !! out = None ∧ heap w1 !! out = Some d1 ∧
    shape d1 = (length (records f), length (header f)) ∧
    (NoDup (header f) → [] ∉ header f → columns d1 = header f).
Proof.
  intros Hin Hf Hh Hrect.
  pose proof (load_csv_spec infer_dtype parse_int parse_float parse_bool na_values
                self filename data_type dir f w Hin Hf) as H.
  destruct (read_csv_rectangular infer_dtype parse_int parse_float parse_bool
              na_values f Hh Hrect) as (d & Hd & Hshape & Hcols).
  unfold wp in H. rewrite Hd in H.
  destruct (DataLoader.load_csv _ _ _ _ _ self filename data_type w) as [r w1].
  simpl in H. destruct H as (out & -> & Hnew & Hout).
  exists out, w1, d. repeat (split; [done|]).
  intros Hnd Hne. by rewrite Hcols, unnamed_named, dedup_names_distinct.
Qed.

Lemma load_csv_shape_and_names_witness :
  ∃ out w1 d1,
    DataLoader.load_csv (λ _, object_) (λ _, 0%Z) (λ _, NaN) (λ _, false) []
      (DataLoader.__init__ (lit "data")) (lit "birds.csv") (lit "raw") movebank_world
      = (Ok out, w1) ∧
    heap w1 !! out = Some d1 ∧ shape d1 = (2%nat, 4%nat) ∧
    columns d1 = header movebank_csv.
Proof.
  destruct (load_csv_shape_and_names (λ _, object_) (λ _, 0%Z) (λ _, NaN) (λ _, false) []
              (DataLoader.__init__ (lit "data")) (lit "birds.csv") (lit "raw")
              (lit "data/raw") movebank_csv movebank_world)
    as (out & w1 & d1 & H1 & _ & H2 & H3 & H4).
  { left. }
  { reflexivity. }
  { discriminate. }
  { repeat constructor. }
  exists out, w1, d1. repeat (split; [done|]). apply H4.
  - apply (bool_decide_unpack _). by vm_compute.
  - apply (bool_decide_unpack _). by vm_compute.
Defined.

(** C8, as stated, fails: a header that repeats the name [a] is read into the
    labels [a] and [a.1]. *)
Lemma load_csv_renames_repeated_header :
  ∃ out w1 d1,
    DataLoader.load_csv (λ _, object_) (λ _, 0%Z) (λ _, NaN) (λ _, false) []
      (DataLoader.__init__ (lit "data")) (lit "birds.csv") (lit "raw")
      repeated_header_world = (Ok out, w1) ∧
    heap w1 !! out = Some d1 ∧
    shape d1 = (length (records repeated_header_csv), length (header repeated_header_csv)) ∧
    columns d1 = [lit "a"; lit "a.1"] ∧
    columns d1 ≠ header repeated_header_csv.
Proof.
  eexists _, _, _. split; [vm_compute; reflexivity|].
  split; [vm_compute; reflexivity|]. split; [vm_compute; reflexivity|].
  split; [vm_compute; reflexivity|]. vm_compute. discriminate.
Qed.

(** A blank header name is replaced as well. *)
Example read_csv_blank_name :
  columns <$> (match read_csv (λ _, object_) (λ _, 0%Z) (λ _, NaN) (λ _, false) []
                       {| header := [lit "a"; []]; records := [] |} with
               | Ok d => Some d
               | Raise _ => None
               end)
  = Some [lit "a"; lit "Unnamed: 1"].
Proof. vm_compute. reflexivity. Qed.

(** The two failures that the loader checks for itself. *)
Example load_csv_invalid_data_type :
  (DataLoader.load_csv (λ _, object_) (λ _, 0%Z) (λ _, NaN) (λ _, false) []
     (DataLoader.__init__ (lit "data")) (lit "test.csv") (lit "invalid")
     movebank_world).1 = Raise ValueError.
Proof. vm_compute. reflexivity. Qed.

Example load_csv_file_not_found :
  (DataLoader.load_csv (λ _, object_) (λ _, 0%Z) (λ _, NaN) (λ _, false) []
     (DataLoader.__init__ (lit "data")) (lit "nonexistent.csv") (lit "raw")
     movebank_world).1 = Raise (FileNotFoundError (lit "data/raw/nonexistent.csv")).
Proof. vm_compute. reflexivity. Qed.

(** ** MigrationAnalyzer.correlation_analysis *)

(** *** Order on floats that are not NaN *)

Lemma float_lt_le a b :
  float_lt a b = true → float_le a b = true.
Proof.
  destruct a, b; simpl; try done.
  intros H%bool_decide_eq_true. apply bool_decide_eq_true. by apply Qclt_le_weak.
Qed.

Lemma float_not_lt_le a b :
  isnan a = false → isnan b = false → float_lt a b = false → float_le b a = true.
Proof.
  destruct a, b; simpl; try done.
  intros _ _ H%bool_decide_eq_false. apply bool_decide_eq_true. by apply Qcnot_lt_le.
Qed.

Lemma isnan_float_abs x : isnan (float_abs x) = isnan x.
Proof. by destruct x. Qed.

(** *** Positional selection *)

Lemma mtake_fmap {A B} (g : A → B) idx xs :
  mtake idx (g <$> xs) = g <$> mtake idx xs.
Proof.
  unfold mtake. induction idx as [|i idx IH]; [done|].
  cbn [omap list_omap]. rewrite list_lookup_fmap.
  destruct (xs !! i); simpl; by rewrite IH.
Qed.

Lemma mtake_app {A} idx1 idx2 (xs : list A) :
  mtake (idx1 ++ idx2) xs = mtake idx1 xs ++ mtake idx2 xs.
Proof. apply omap_app. Qed.

Lemma mtake_elem_of {A} idx (xs : list A) x : x ∈ mtake idx xs → x ∈ xs.
Proof.
  unfold mtake. intros (i & _ & Hi)%list_elem_of_omap. by eapply list_elem_of_lookup_2.
Qed.

Lemma mtake_positions {A} (ps : list (A * nat)) (xs : list A) :
  Forall (λ ki, xs !! ki.2 = Some ki.1) ps → mtake ps.*2 xs = ps.*1.
Proof.
  unfold mtake. induction 1 as [|[k i] ps Hk _ IH]; [done|].
  cbn [fmap list_fmap omap list_omap snd fst] in *. by rewrite Hk, IH.
Qed.

(** *** Insertion by decreasing key *)

Lemma insert_desc_Forall (P : pyfloat * nat → Prop) k i sorted :
  P (k, i) → Forall P sorted → Forall P (insert_desc k i sorted).
Proof.
  intros Hk. induction 1 as [|[k' i'] rest Hk' Hrest IH]; simpl.
  - by constructor.
  - destruct (float_lt k' k); repeat constructor; done.
Qed.

Lemma insert_desc_sorted k i sorted :
  isnan k = false →
  Forall (λ ki, isnan ki.1 = false) sorted →
  Sorted (λ a b, float_le b.1 a.1 = true) sorted →
  Sorted (λ a b, float_le b.1 a.1 = true) (insert_desc k i sorted).
Proof.
  intros Hk Hnn Hs. induction sorted as [|[k' i'] rest IH]; simpl.
  - by repeat constructor.
  - apply Forall_cons in Hnn as [Hk' Hnn]. simpl in Hk'.
    apply Sorted_inv in Hs as [Hs Hhd].
    destruct (float_lt k' k) eqn:Hlt.
    + constructor; [by constructor|]. constructor. simpl. by apply float_lt_le.
    + constructor; [by apply IH|].
      destruct rest as [|[k'' i''] rest']; simpl.
      * constructor. simpl. by apply float_not_lt_le.
      * destruct (float_lt k'' k); constructor; simpl.
        -- by apply float_not_lt_le.
        -- by inversion Hhd.
Qed.

(** The keys, taken in the order of [argsort_desc], are sorted with the NaN
    keys last. *)
Lemma argsort_desc_sorted keys :
  desc_nan_last (mtake (argsort_desc keys) keys).
Proof.
  unfold argsort_desc.
  set (ks := imap (λ i k, (k, i)) keys).
  assert (Hks : Forall (λ ki, keys !! ki.2 = Some ki.1) ks).
  { apply Forall_lookup. intros j [k i] Hj. unfold ks in Hj.
    rewrite list_lookup_imap in Hj.
    destruct (keys !! j) eqn:Hkj; simpl in Hj; [|done]. by injection Hj as <- <-. }
  set (nn := filter (λ ki, isnan ki.1 = false) ks).
  set (nans := filter (λ ki, isnan ki.1 = true) ks).
  assert (Hnn : Forall (λ ki, isnan ki.1 = false ∧ keys !! ki.2 = Some ki.1) nn).
  { apply Forall_forall. intros ki [H1 H2]%list_elem_of_filter. split; [done|].
    by eapply Forall_forall in Hks. }
  assert (Hnans : Forall (λ ki, isnan ki.1 = true ∧ keys !! ki.2 = Some ki.1) nans).
  { apply Forall_forall. intros ki [H1 H2]%list_elem_of_filter. split; [done|].
    by eapply Forall_forall in Hks. }
  assert (Hsorted : ∀ acc,
            Forall (λ ki, isnan ki.1 = false ∧ keys !! ki.2 = Some ki.1) acc →
            Sorted (λ a b, float_le b.1 a.1 = true) acc →
            let res := foldl (λ acc ki, insert_desc ki.1 ki.2 acc) acc nn in
            Forall (λ ki, isnan ki.1 = false ∧ keys !! ki.2 = Some ki.1) res ∧
            Sorted (λ a b, float_le b.1 a.1 = true) res).
  { clear Hnans. induction Hnn as [|[k i] nn' [Hk Hki] _ IH]; intros acc Hacc Hs; simpl.
    { done. }
    apply IH.
    - by apply insert_desc_Forall.
    - apply insert_desc_sorted; [done| |done].
      eapply Forall_impl; [exact Hacc|]. by intros ? [? _]. }
  destruct (Hsorted []) as [Hres Hress]; [constructor|constructor|].
  rewrite mtake_app.
  rewrite !mtake_positions.
  2:{ eapply Forall_impl; [exact Hnans|]. by intros ? [_ ?]. }
  2:{ eapply Forall_impl; [exact Hres|]. by intros ? [_ ?]. }
  eexists _, _. split; [done|]. split; [|split].
  - apply Forall_fmap. eapply Forall_impl; [exact Hres|]. by intros ? [? _].
  - apply Forall_fmap. eapply Forall_impl; [exact Hnans|]. by intros ? [? _].
  - eapply Sorted_fmap; [|exact Hress]. done.
Qed.

Section Correlation.

Variable np_number_eq : dtype → bool.
Variable pearsonr : column → column → result (pyfloat * pyfloat).

Local Abbreviation correlation_analysis :=
  (MigrationAnalyzer.correlation_analysis np_number_eq pearsonr).

(** The loop reads the table and appends rows written from [pearsonr]. *)
Lemma correlations_loop_spec df d target_col feature_cols :
  ∀ correlations w,
    heap w !! df = Some d →
    Forall (report_row np_number_eq pearsonr d target_col) correlations →
    wp (MigrationAnalyzer.correlations_loop np_number_eq pearsonr
          df target_col feature_cols correlations) w
       (λ r w', w' = w ∧
                ∀ rs, r = Ok rs → Forall (report_row np_number_eq pearsonr d target_col) rs).
Proof.
  induction feature_cols as [|col rest IH]; intros correlations w Hd Hacc; simpl.
  { apply wp_ret. split; [done|]. by intros ? [= <-]. }
  apply wp_bind, (wp_df_columns _ d); [done|]. apply wp_bind.
  case_bool_decide; [|by apply wp_ret, IH].
  apply wp_bind, (wp_df_getitem _ d); [done|].
  destruct (getitem d col) as [c|e] eqn:Hg; [|by split].
  destruct (np_number_eq (dtype_of c)) eqn:Hnum; [|by apply wp_ret, IH].
  apply wp_bind, (wp_df_getitem _ d); [done|].
  destruct (getitem d target_col) as [t|e] eqn:Ht; [|by split].
  apply wp_bind, wp_lift.
  destruct (pearsonr (column_dropna t) (column_dropna c)) as [[r p]|e] eqn:Hp; [|by split].
  apply wp_ret, IH; [done|].
  apply Forall_app. split; [done|]. apply Forall_singleton.
  split; [done|]. exists t, c. by repeat split.
Qed.

Lemma getitem_correlation rs :
  rs ≠ [] →
  getitem (MigrationAnalyzer.DataFrame_of_correlations rs) (lit "correlation")
  = Ok (FloatCol F64 (MigrationAnalyzer.correlation <$> rs)).
Proof. by destruct rs. Qed.

(** Sorting the report: its rows in the order of [argsort_desc]. *)
Lemma sort_correlations rs d1 :
  sort_values_abs_desc (MigrationAnalyzer.DataFrame_of_correlations rs)
    (lit "correlation") = Ok d1 →
  ∃ rs', cols d1 = correlation_columns rs' ∧
         (∀ r, r ∈ rs' → r ∈ rs) ∧
         desc_nan_last (float_abs <$> (MigrationAnalyzer.correlation <$> rs')).
Proof.
  destruct (decide (rs = [])) as [->|Hne]; [done|].
  unfold sort_values_abs_desc. rewrite getitem_correlation by done. simpl.
  intros [= <-].
  set (keys := float_abs <$> (MigrationAnalyzer.correlation <$> rs)).
  exists (mtake (argsort_desc keys) rs). split; [|split].
  - destruct rs as [|r0 rs0]; [done|].
    unfold correlation_columns. by rewrite <- !mtake_fmap.
  - intros r. apply mtake_elem_of.
  - rewrite <- !mtake_fmap. apply argsort_desc_sorted.
Qed.

Lemma correlation_analysis_spec df d target_col feature_cols w :
  heap w !! df = Some d →
  wp (correlation_analysis df target_col feature_cols) w (λ r w',
    ∀ out, r = Ok out →
      ∃ d1 rs, heap w' !! out = Some d1 ∧ cols d1 = correlation_columns rs ∧
               Forall (report_row np_number_eq pearsonr d target_col) rs ∧
               desc_nan_last (float_abs <$> (MigrationAnalyzer.correlation <$> rs))).
Proof.
  intros Hd. unfold MigrationAnalyzer.correlation_analysis.
  apply wp_bind.
  assert (Hrest : ∀ fc,
    wp (MigrationAnalyzer.correlations_loop np_number_eq pearsonr df target_col fc []
        ≫= λ correlations,
             new_frame (MigrationAnalyzer.DataFrame_of_correlations correlations)
             ≫= λ corr_df,
                  df_sort_values_abs_desc corr_df (lit "correlation")
                  ≫= λ corr_df0, logger_info MsgCorrelationCompleted ;; mret corr_df0)
       w (λ r w', ∀ out, r = Ok out →
            ∃ d1 rs, heap w' !! out = Some d1 ∧ cols d1 = correlation_columns rs ∧
                     Forall (report_row np_number_eq pearsonr d target_col) rs ∧
                     desc_nan_last (float_abs <$> (MigrationAnalyzer.correlation <$> rs)))).
  { intros fc. apply wp_bind. eapply wp_mono.
    { apply (correlations_loop_spec df d); [done|constructor]. }
    intros [rs|e] w' [-> Hrs]; [|done].
    specialize (Hrs rs eq_refl).
    apply wp_bind, wp_new_frame. intros l1 Hl1.
    apply wp_bind. unfold df_sort_values_abs_desc.
    apply wp_bind, (wp_read _ (MigrationAnalyzer.DataFrame_of_correlations rs));
      [by simpl; rewrite lookup_insert_eq|].
    apply wp_bind, wp_lift.
    destruct (sort_values_abs_desc _ _) as [d1|e] eqn:Hsort; [|done].
    apply wp_new_frame. intros l2 Hl2.
    apply wp_bind, wp_logger_info, wp_ret. intros out [= <-]. simpl.
    destruct (sort_correlations rs d1 Hsort) as (rs' & Hcols & Hsub & Hsorted).
    exists d1, rs'. split; [by rewrite lookup_insert_eq|]. split; [done|].
    split; [|done]. apply Forall_forall. intros r Hr.
    eapply Forall_forall in Hrs; [exact Hrs|]. by apply Hsub. }
  destruct feature_cols as [fc|].
  - apply wp_ret, Hrest.
  - apply wp_bind, (wp_df_select_dtypes_columns _ d); [done|]. apply wp_ret, Hrest.
Qed.

End Correlation.

(** The threshold of the code is the double nearest to 1/20. *)
Lemma p_threshold_nearest :
  MigrationAnalyzer.p_threshold = round_float F64 (Q2Qc (1 # 20)).
Proof.
  assert (E : round_float F64 (Q2Qc (1 # 20))
              = Fin (Q2Qc (7205759403792794 # 144115188075855872)))
    by (vm_compute; reflexivity).
  rewrite E. unfold MigrationAnalyzer.p_threshold. f_equal.
  apply Qc_is_canon. by vm_compute.
Qed.


Lemma pearsonr_on_constant_contract : pearsonr_contract pearsonr_on_constant.
Proof.
  intros x y r p. unfold pearsonr_on_constant.
  destruct (negb _); [done|]. destruct (bool_decide _); [done|].
  destruct (_ || _); intros [= <- <-]; [by left|right].
  split; by vm_compute.
Qed.

Lemma pearsonr_on_report_contract : pearsonr_contract pearsonr_on_report.
Proof.
  intros x y r p. unfold pearsonr_on_report.
  destruct (negb _); [done|]. destruct (bool_decide (_ < _)%nat); [done|].
  destruct (_ || _); [intros [= <- <-]; by left|].
  repeat destruct (bool_decide (cells _ = _));
    intros [= <- <-]; right; split; by vm_compute.
Qed.


(** The report for [report_frame]: the features by decreasing absolute
    correlation, the constant column last, the column of integers left
    out. *)
Example correlation_analysis_report :
  ∃ out w1,
    MigrationAnalyzer.correlation_analysis numpy1_number_eq pearsonr_on_report
      1%positive (lit "migration_count") None report_world = (Ok out, w1) ∧
    (cols <$> heap w1 !! out) =
      Some (correlation_columns
              [{| MigrationAnalyzer.feature := lit "economic_factor";
                  MigrationAnalyzer.correlation := float_of_Z (-1);
                  MigrationAnalyzer.p_value := float_of_Z 0;
                  MigrationAnalyzer.significant := true |};
               {| MigrationAnalyzer.feature := lit "political_stability";
                  MigrationAnalyzer.correlation := Fin (Q2Qc (4 # 5));
                  MigrationAnalyzer.p_value := Fin (Q2Qc (1 # 5));
                  MigrationAnalyzer.significant := false |};
               {| MigrationAnalyzer.feature := lit "distance_km";
                  MigrationAnalyzer.correlation := Fin (Q2Qc (3 # 5));
                  MigrationAnalyzer.p_value := Fin (Q2Qc (2 # 5));
                  MigrationAnalyzer.significant := false |};
               {| MigrationAnalyzer.feature := lit "altitude";
                  MigrationAnalyzer.correlation := NaN;
                  MigrationAnalyzer.p_value := NaN;
                  MigrationAnalyzer.significant := false |}]).
Proof. eexists _, _. split; vm_compute; reflexivity. Qed.


(** ** scripts: calculate_distance *)

Section Haversine.

Local Open Scope R_scope.

Lemma PI_lower : 3141 / 1000 < PI.
Proof.
  destruct (PI_2_3_7_ineq 1) as [Hlo _].
  unfold PI_2_3_7_tg, tg_alt, Ratan_seq in Hlo. simpl in Hlo.
  lra.
Qed.

Lemma PI_upper : PI < 3143 / 1000.
Proof.
  destruct (PI_2_3_7_ineq 1) as [_ Hhi].
  unfold PI_2_3_7_tg, tg_alt, Ratan_seq in Hhi. simpl in Hhi.
  lra.
Qed.

Lemma cos_upper_at (x : R) : -2 <= x <= 2 -> cos x <= 1 - x^2/2 + x^4/24.
Proof.
  intros [H1 H2]. destruct (pre_cos_bound x 0 H1 H2) as [_ H].
  unfold cos_approx, cos_term in H. simpl in H. lra.
Qed.

Lemma cos_lower_at (x : R) : -2 <= x <= 2 -> 1 - x^2/2 + x^4/24 - x^6/720 <= cos x.
Proof.
  intros [H1 H2]. destruct (pre_cos_bound x 1 H1 H2) as [H _].
  unfold cos_approx, cos_term in H. simpl in H. lra.
Qed.

Lemma sin_lower_at (x : R) : 0 <= x <= 4 -> x - x^3/6 <= sin x.
Proof.
  intros [H1 H2]. destruct (pre_sin_bound x 0 H1 H2) as [H _].
  unfold sin_approx, sin_term in H. simpl in H. lra.
Qed.

Lemma sin_sq_enclosure (x lo hi : R) :
  0 <= lo - hi ^ 3 / 6 -> 0 <= lo -> lo <= x -> x <= hi -> hi <= 1 ->
  (lo - hi ^ 3 / 6) ^ 2 <= sin x ^ 2 <= hi ^ 2.
Proof.
  intros Hp Hlo Hx Hhi H1.
  assert (Hs : x - x ^ 3 / 6 <= sin x) by (apply sin_lower_at; lra).
  assert (Hc : x ^ 3 <= hi ^ 3) by (apply pow_incr; lra).
  assert (Hu : sin x <= x).
  { destruct (Req_dec x 0) as [->|Hn]; [rewrite sin_0; lra|].
    left. apply sin_lt_x. lra. }
  split; apply pow_incr; lra.
Qed.

Lemma cos_enclosure (x lo hi : R) :
  0 <= lo -> lo <= x -> x <= hi -> hi <= 2 ->
  1 - hi ^ 2 / 2 + lo ^ 4 / 24 - hi ^ 6 / 720 <= cos x
  /\ cos x <= 1 - lo ^ 2 / 2 + hi ^ 4 / 24.
Proof.
  intros Hlo Hx Hhi H2.
  assert (Hl : 1 - x ^ 2 / 2 + x ^ 4 / 24 - x ^ 6 / 720 <= cos x)
    by (apply cos_lower_at; lra).
  assert (Hu : cos x <= 1 - x ^ 2 / 2 + x ^ 4 / 24)
    by (apply cos_upper_at; lra).
  assert (x ^ 2 <= hi ^ 2) by (apply pow_incr; lra).
  assert (lo ^ 2 <= x ^ 2) by (apply pow_incr; lra).
  assert (x ^ 4 <= hi ^ 4) by (apply pow_incr; lra).
  assert (lo ^ 4 <= x ^ 4) by (apply pow_incr; lra).
  assert (x ^ 6 <= hi ^ 6) by (apply pow_incr; lra).
  lra.
Qed.

Lemma sin_atan_ratio (s c : R) :
  0 < c -> s * s + c * c = 1 -> sin (atan (s / c)) = s.
Proof.
  intros Hc Hsc. rewrite sin_atan. unfold Rsqr.
  assert (He : 1 + s / c * (s / c) = / (c * c)).
  { field_simplify_eq; [|lra]. nra. }
  rewrite He, sqrt_inv, sqrt_square by lra.
  field. lra.
Qed.

(** The half angle [atan2 (sqrt a) (sqrt (1 - a))] is the arc sine of
    [sqrt a]; it is enclosed by comparing sines. *)
Lemma half_angle_enclosure (a L U : R) :
  0 < a < 1 ->
  0 <= L -> L ^ 2 <= a ->
  0 <= U -> 0 <= U - U ^ 3 / 6 -> U <= 1 -> a <= (U - U ^ 3 / 6) ^ 2 ->
  L <= scripts.atan2 (sqrt a) (sqrt (1 - a)) <= U.
Proof.
  intros [Ha0 Ha1] HL HLa HU HU0 HU1 HUa.
  assert (Hx : 0 < sqrt (1 - a)) by (apply sqrt_lt_R0; lra).
  unfold scripts.atan2. destruct (Rlt_dec 0 (sqrt (1 - a))) as [_|Hn]; [|lra].
  set (t := sqrt a / sqrt (1 - a)).
  assert (Hsin : sin (atan t) = sqrt a).
  { apply sin_atan_ratio; [exact Hx|].
    rewrite !sqrt_sqrt by lra. ring. }
  pose proof (atan_bound t) as [Hb1 Hb2].
  pose proof PI_lower as Hpi.
  assert (HsL : sin L <= sqrt a).
  { apply Rle_trans with L.
    - destruct (Req_dec L 0) as [->|Hne]; [rewrite sin_0; lra|].
      left; apply sin_lt_x; lra.
    - rewrite <- (sqrt_pow2 L) by lra. apply sqrt_le_1_alt. lra. }
  assert (HL1 : L <= 1).
  { destruct (Rle_dec L 1); [assumption|].
    assert (1 ^ 2 <= L ^ 2) by (apply pow_incr; lra). lra. }
  assert (HsU : sqrt a <= sin U).
  { apply Rle_trans with (U - U ^ 3 / 6).
    - rewrite <- (sqrt_pow2 (U - U ^ 3 / 6)) by lra. apply sqrt_le_1_alt. lra.
    - apply sin_lower_at. lra. }
  split.
  - apply sin_incr_0; lra.
  - apply sin_incr_0; lra.
Qed.

(** Berlin to Paris: the distance is between 875 km and 881 km. *)
Lemma berlin_paris_enclosure :
  875 <= scripts.calculate_distance (5252/100) (13405/1000) (488566/10000) (23522/10000)
      <= 881.
Proof.
  unfold scripts.calculate_distance, scripts.radians.
  pose proof PI_lower as Hlo. pose proof PI_upper as Hhi.
  set (k := PI / 180).
  assert (Hk : 3141 / 180000 < k < 3143 / 180000) by (unfold k; lra).
  replace ((488566 / 10000 * k - 5252 / 100 * k) / 2) with (- (18317 / 10000 * k)) by field.
  replace ((23522 / 10000 * k - 13405 / 1000 * k) / 2) with (- (55264 / 10000 * k)) by field.
  rewrite !sin_neg.
  replace ((- sin (18317 / 10000 * k)) ^ 2) with (sin (18317 / 10000 * k) ^ 2) by ring.
  replace ((- sin (55264 / 10000 * k)) ^ 2) with (sin (55264 / 10000 * k) ^ 2) by ring.
  pose proof (sin_sq_enclosure (18317 / 10000 * k) (3196/100000) (3199/100000))
    as [S1l S1u]; try lra.
  pose proof (sin_sq_enclosure (55264 / 10000 * k) (9643/100000) (9650/100000))
    as [S2l S2u]; try lra.
  pose proof (cos_enclosure (5252 / 100 * k) (9164/10000) (9171/10000))
    as [C1l C1u]; try lra.
  pose proof (cos_enclosure (488566 / 10000 * k) (8525/10000) (8531/10000))
    as [C2l C2u]; try lra.
  set (s1 := sin (18317 / 10000 * k) ^ 2) in *.
  set (s2 := sin (55264 / 10000 * k) ^ 2) in *.
  set (c1 := cos (5252 / 100 * k)) in *.
  set (c2 := cos (488566 / 10000 * k)) in *.
  assert (Hs1 : 102 / 100000 <= s1 <= 103 / 100000) by lra.
  assert (Hs2 : 926 / 100000 <= s2 <= 932 / 100000) by lra.
  assert (Hc1 : 608 / 1000 <= c1 <= 6096 / 10000) by lra.
  assert (Hc2 : 6575 / 10000 <= c2 <= 6587 / 10000) by lra.
  clear S1l S1u S2l S2u C1l C1u C2l C2u.
  assert (Hp : 608 / 1000 * (6575 / 10000) <= c1 * c2 <= 6096 / 10000 * (6587 / 10000)).
  { split; apply Rmult_le_compat; lra. }
  assert (Hq : 608 / 1000 * (6575 / 10000) * (926 / 100000) <= c1 * c2 * s2
               <= 6096 / 10000 * (6587 / 10000) * (932 / 100000)).
  { split; apply Rmult_le_compat; lra. }
  set (a := s1 + c1 * c2 * s2) in *.
  assert (Ha : 4721 / 1000000 <= a <= 47725 / 10000000) by (unfold a; lra).
  pose proof (half_angle_enclosure a (875 / 12742) (881 / 12742)) as [Hl Hu]; lra.
Qed.

(** C1. With Earth radius 6371 km, [calculate_distance] applied to
    (52.52, 13.405) and (48.8566, 2.3522) is within 5 km of 878 km. *)
Theorem berlin_paris_distance :
  Rabs (scripts.calculate_distance (5252/100) (13405/1000) (488566/10000) (23522/10000)
        - 878) <= 5.
Proof.
  pose proof berlin_paris_enclosure as [Hl Hu]. apply Rabs_le. lra.
Qed.

(** A computed distance that is off the exact one by up to 2 km, rounding
    included, is still within 5 km of 878 km. *)
Lemma berlin_paris_rounding_margin (computed : R) :
  Rabs (computed
        - scripts.calculate_distance (5252/100) (13405/1000) (488566/10000) (23522/10000))
    <= 2 ->
  Rabs (computed - 878) <= 5.
Proof.
  intros H. pose proof berlin_paris_enclosure as [Hl Hu].
  set (exact := scripts.calculate_distance _ _ _ _) in *.
  pose proof (Rle_abs (computed - exact)) as H1.
  pose proof (Rle_abs (- (computed - exact))) as H2. rewrite Rabs_Ropp in H2.
  apply Rabs_le. lra.
Qed.

End Haversine.

(** ** scripts: calculate_distance for all arguments *)

Section HaversineGeneral.

Local Open Scope R_scope.

(** X2. [calculate_distance] is symmetric in its two points. *)
Theorem calculate_distance_symmetric (lat1 lon1 lat2 lon2 : R) :
  scripts.calculate_distance lat1 lon1 lat2 lon2
  = scripts.calculate_distance lat2 lon2 lat1 lon1.
Proof.
  unfold scripts.calculate_distance. cbv zeta.
  set (p := scripts.radians lat1). set (q := scripts.radians lat2).
  set (l1 := scripts.radians lon1). set (l2 := scripts.radians lon2).
  assert (E : sin ((q - p) / 2) ^ 2 + cos p * cos q * sin ((l2 - l1) / 2) ^ 2
            = sin ((p - q) / 2) ^ 2 + cos q * cos p * sin ((l1 - l2) / 2) ^ 2).
  { replace ((p - q) / 2) with (- ((q - p) / 2)) by field.
    replace ((l1 - l2) / 2) with (- ((l2 - l1) / 2)) by field.
    rewrite !sin_neg. ring. }
  by rewrite E.
Qed.


End HaversineGeneral.

(** ** fetch_movebank_data: the file name taken from the URL *)

Lemma str_split_nonempty sep s : str_split sep s ≠ [].
Proof.
  destruct s as [|c rest]; simpl; [done|].
  case_bool_decide; [done|]. by destruct (str_split sep rest).
Qed.

(** No piece holds the separator. *)
Lemma str_split_pieces sep s : Forall (λ piece, sep ∉ piece) (str_split sep s).
Proof.
  induction s as [|c rest IH]; simpl.
  { apply Forall_singleton. apply not_elem_of_nil. }
  case_bool_decide as Hc.
  { constructor; [apply not_elem_of_nil|done]. }
  destruct (str_split sep rest) as [|piece pieces].
  { apply Forall_singleton. intros Hin.
    apply elem_of_cons in Hin as [->|Hin]; [done|by apply elem_of_nil in Hin]. }
  apply Forall_cons in IH as [Hp Hps]. constructor; [|done].
  intros Hin. apply elem_of_cons in Hin as [->|Hin]; done.
Qed.

(** A text without the separator is one piece. *)
Lemma str_split_one_piece sep name : sep ∉ name → str_split sep name = [name].
Proof.
  induction name as [|c rest IH]; simpl; [done|].
  intros [Hc Hrest]%not_elem_of_cons.
  rewrite bool_decide_eq_false_2 by done. by rewrite IH.
Qed.

(** Splitting at a separator: the pieces before it, then the pieces after. *)
Lemma str_split_app sep before after :
  str_split sep (before ++ sep :: after) = str_split sep before ++ str_split sep after.
Proof.
  induction before as [|c rest IH]; simpl.
  { by rewrite bool_decide_eq_true_2. }
  rewrite IH. case_bool_decide; [done|].
  pose proof (str_split_nonempty sep rest) as Hne.
  by destruct (str_split sep rest).
Qed.

(** The last piece is what follows the last separator. *)
Lemma str_split_last sep dir name :
  sep ∉ name → last (str_split sep (dir ++ sep :: name)) = Some name.
Proof.
  intros Hname. rewrite str_split_app, (str_split_one_piece sep name) by done.
  apply last_snoc.
Qed.

(** X5. The name under which the download is stored always ends in [.csv] and
    holds no slash, so the file lies in [data/movebank] itself, whatever the
    URL. *)
Theorem filename_is_plain_csv_name (s3_url : str) :
  ∃ name, fetch_movebank_data.filename s3_url = Some name ∧
          lit ".csv" `suffix_of` name ∧ 47%N ∉ name.
Proof.
  unfold fetch_movebank_data.filename.
  destruct (last (str_split 47 s3_url)) as [piece|] eqn:Hlast; simpl.
  - destruct (endswith piece (lit ".csv")) eqn:He; simpl.
    + exists piece. split; [done|]. split.
      * unfold endswith in He. by apply bool_decide_eq_true in He.
      * pose proof (str_split_pieces 47 s3_url) as Hp.
        rewrite Forall_forall in Hp. apply Hp.
        apply last_Some in Hlast as [l' ->]. apply elem_of_app. right. left.
    + exists (lit "migration_data.csv"). split; [done|]. split.
      * by exists (lit "migration_data").
      * apply (bool_decide_unpack _). by vm_compute.
  - apply last_None in Hlast. by apply str_split_nonempty in Hlast.
Qed.

(** X6. The name is the text after the last slash of the URL when that text
    ends in [.csv], and [migration_data.csv] otherwise; a URL without a slash
    counts as a whole. *)
Theorem filename_is_last_segment (dir name : str) :
  47%N ∉ name →
  let stored := if endswith name (lit ".csv") then name else lit "migration_data.csv" in
  fetch_movebank_data.filename (dir ++ lit "/" ++ name) = Some stored ∧
  fetch_movebank_data.filename name = Some stored.
Proof.
  intros Hname stored. unfold fetch_movebank_data.filename.
  change (lit "/" ++ name) with (47%N :: name).
  rewrite str_split_last, str_split_one_piece by done. simpl.
  unfold stored. by destruct (endswith name (lit ".csv")).
Qed.

Lemma filename_is_last_segment_witness :
  fetch_movebank_data.filename (lit "https://bucket.s3.amazonaws.com/birds" ++ lit "/" ++ lit "tracks.csv")
    = Some (lit "tracks.csv") ∧
  fetch_movebank_data.filename (lit "tracks.csv") = Some (lit "tracks.csv").
Proof.
  apply (filename_is_last_segment (lit "https://bucket.s3.amazonaws.com/birds")
           (lit "tracks.csv")).
  apply (bool_decide_unpack _). by vm_compute.
Defined.

(** The default URL of the script, and a URL with a query string. *)
Example filename_examples :
  fetch_movebank_data.filename
    (lit "https://arctic-shoebird-migration.s3.us-east-1.amazonaws.com/Arctic+shorebird+migration+tracking+study+-+Semipalmated+Sandpiper.csv")
  = Some (lit "Arctic+shorebird+migration+tracking+study+-+Semipalmated+Sandpiper.csv") ∧
  fetch_movebank_data.filename (lit "https://host/data.csv?version=2")
  = Some (lit "migration_data.csv").
Proof. split; vm_compute; reflexivity. Qed.

(** ** DataLoader: the failures that the loaders raise themselves *)

Lemma data_dirs_find self data_type :
  let data_dirs := [(lit "raw", DataLoader.raw_dir self);
                    (lit "processed", DataLoader.processed_dir self);
                    (lit "external", DataLoader.external_dir self)] in
  (data_type ∉ [lit "raw"; lit "processed"; lit "external"] →
   list_find (λ kv : str * str, kv.1 = data_type) data_dirs = None) ∧
  (∀ dir, (data_type, dir) ∈ data_dirs →
   ∃ i, list_find (λ kv : str * str, kv.1 = data_type) data_dirs
        = Some (i, (data_type, dir))).
Proof.
  intros data_dirs. split.
  - intros Hnot. apply list_find_None. unfold data_dirs.
    repeat (apply Forall_cons; split;
            [simpl; intros <-; apply Hnot;
             rewrite !elem_of_cons; tauto|]).
    constructor.
  - intros dir Hin. unfold data_dirs in *.
    rewrite !elem_of_cons, elem_of_nil in Hin.
    destruct Hin as [[= -> ->]|[[= -> ->]|[[= -> ->]|[]]]];
      [exists 0%nat|exists 1%nat|exists 2%nat]; reflexivity.
Qed.

(** X7. [load_csv] checks its arguments before it reads: a [data_type] other
    than raw, processed and external is a [ValueError], and a file that is
    not in the directory is a [FileNotFoundError] that names the path; in
    both cases nothing is logged and no table is created. *)
Theorem load_csv_failures
    (infer_dtype : list str → dtype) (parse_int : str → Z)
    (parse_float : str → pyfloat) (parse_bool : str → bool) (na_values : list str)
    self filename data_type w :
  let run := DataLoader.load_csv infer_dtype parse_int parse_float parse_bool
               na_values self filename data_type w in
  (data_type ∉ [lit "raw"; lit "processed"; lit "external"] →
   run = (Raise ValueError, w)) ∧
  (∀ dir, (data_type, dir) ∈ [(lit "raw", DataLoader.raw_dir self);
                              (lit "processed", DataLoader.processed_dir self);
                              (lit "external", DataLoader.external_dir self)] →
          files w !! DataLoader.joinpath dir filename = None →
          run = (Raise (FileNotFoundError (DataLoader.joinpath dir filename)), w)).
Proof.
  intros run. unfold run, DataLoader.load_csv.
  destruct (data_dirs_find self data_type) as [Hnone Hsome]. split.
  - intros Hnot. by rewrite Hnone.
  - intros dir Hin Hf. destruct (Hsome dir Hin) as [i ->].
    unfold mbind, M_bind, DataLoader.path_exists. simpl. rewrite Hf.
    rewrite bool_decide_eq_false_2; [done|]. by intros [? ?].
Qed.

Lemma load_csv_failures_witness :
  DataLoader.load_csv (λ _, object_) (λ _, 0%Z) (λ _, NaN) (λ _, false) []
    (DataLoader.__init__ (lit "data")) (lit "birds.csv") (lit "interim") movebank_world
  = (Raise ValueError, movebank_world) ∧
  DataLoader.load_csv (λ _, object_) (λ _, 0%Z) (λ _, NaN) (λ _, false) []
    (DataLoader.__init__ (lit "data")) (lit "birds.csv") (lit "processed") movebank_world
  = (Raise (FileNotFoundError (lit "data/processed/birds.csv")), movebank_world).
Proof.
  split.
  - apply (proj1 (load_csv_failures (λ _, object_) (λ _, 0%Z) (λ _, NaN) (λ _, false) []
                    (DataLoader.__init__ (lit "data")) (lit "birds.csv")
                    (lit "interim") movebank_world)).
    apply (bool_decide_unpack _). by vm_compute.
  - apply (proj2 (load_csv_failures (λ _, object_) (λ _, 0%Z) (λ _, NaN) (λ _, false) []
                    (DataLoader.__init__ (lit "data")) (lit "birds.csv")
                    (lit "processed") movebank_world) (lit "data/processed")).
    + right. left.
    + reflexivity.
Defined.

(** X8. [load_excel] has no check of [data_type]: a value other than raw,
    processed and external surfaces as the [KeyError] of the dictionary
    lookup, where [load_csv] raises [ValueError]; a missing file is a
    [FileNotFoundError] as for [load_csv].  Nothing is logged or read in
    either case. *)
Theorem load_excel_failures
    (pd_read_excel : str → option str → M DataLoaderExcel.workbook)
    self filename sheet_name data_type w :
  let run := DataLoaderExcel.load_excel pd_read_excel self filename sheet_name
               data_type w in
  (data_type ∉ [lit "raw"; lit "processed"; lit "external"] →
   run = (Raise (KeyError data_type), w)) ∧
  (∀ dir, (data_type, dir) ∈ [(lit "raw", DataLoader.raw_dir self);
                              (lit "processed", DataLoader.processed_dir self);
                              (lit "external", DataLoader.external_dir self)] →
          files w !! DataLoader.joinpath dir filename = None →
          run = (Raise (FileNotFoundError (DataLoader.joinpath dir filename)), w)).
Proof.
  intros run. unfold run, DataLoaderExcel.load_excel.
  destruct (data_dirs_find self data_type) as [Hnone Hsome]. split.
  - intros Hnot. by rewrite Hnone.
  - intros dir Hin Hf. destruct (Hsome dir Hin) as [i ->].
    unfold mbind, M_bind, DataLoader.path_exists. simpl. rewrite Hf.
    rewrite bool_decide_eq_false_2; [done|]. by intros [? ?].
Qed.

Lemma load_excel_failures_witness :
  DataLoaderExcel.load_excel (λ _ _, raise ValueError)
    (DataLoader.__init__ (lit "data")) (lit "birds.xlsx") None (lit "interim")
    movebank_world
  = (Raise (KeyError (lit "interim")), movebank_world).
Proof.
  apply (proj1 (load_excel_failures (λ _ _, raise ValueError)
                  (DataLoader.__init__ (lit "data")) (lit "birds.xlsx") None
                  (lit "interim") movebank_world)).
  apply (bool_decide_unpack _). by vm_compute.
Defined.

(** ** DataProcessor: what the processing steps guarantee besides *)

(** X9. After cleaning, no two rows of a table with at least one column have
    the same cells. *)
Theorem clean_migration_data_leaves_no_duplicates w df d :
  heap w !! df = Some d → cols d ≠ [] →
  ∃ out w1 d1,
    DataProcessor.clean_migration_data df w = (Ok out, w1) ∧
    heap w1 !! out = Some d1 ∧ NoDup (rows d1).*2.
Proof.
  intros Hd Hc.
  pose proof (clean_migration_data_spec df d w Hd) as H. unfold wp in H.
  destruct (DataProcessor.clean_migration_data df w) as [r w1]. simpl in H.
  destruct H as (out & -> & _ & _ & Hout).
  exists out, w1, (frame_drop_duplicates d). split; [done|]. split; [done|].
  unfold frame_drop_duplicates. rewrite bool_decide_eq_false_2 by done.
  rewrite rows_frame_filter, <- mfilter_fmap.
  destruct (kept_from_spec [] (rows d).*2) as (Hnd & _ & _). exact Hnd.
Qed.

Lemma clean_migration_data_leaves_no_duplicates_witness :
  ∃ out w1 d1,
    DataProcessor.clean_migration_data 1%positive example_world = (Ok out, w1) ∧
    heap w1 !! out = Some d1 ∧ NoDup (rows d1).*2.
Proof.
  apply (clean_migration_data_leaves_no_duplicates example_world 1%positive
           example_frame).
  - reflexivity.
  - discriminate.
Defined.

(** *** Labels after standardization *)

Lemma standardize_name_no_space_hyphen unicode_lower final_sigma name :
  (32%N ∉ DataProcessor.standardize_name unicode_lower final_sigma name) ∧
  (45%N ∉ DataProcessor.standardize_name unicode_lower final_sigma name).
Proof.
  unfold DataProcessor.standardize_name. split.
  - apply str_replace_keeps_absent; [done|]. by apply str_replace_removes.
  - by apply str_replace_removes.
Qed.

Lemma standard_char_fixed unicode_lower c :
  standard_char c → lowercase_fixed unicode_lower c.
Proof.
  intros (Hlt & Hup & _ & _). split; [|split]; [lia|done|lia].
Qed.

Lemma standardize_name_standard unicode_lower final_sigma name :
  Forall standard_char name →
  DataProcessor.standardize_name unicode_lower final_sigma name = name.
Proof.
  intros Hname. unfold DataProcessor.standardize_name, str_lower.
  rewrite lower_from_fixed.
  2:{ eapply Forall_impl; [exact Hname|]. apply standard_char_fixed. }
  rewrite (str_replace_absent 32%N).
  2:{ intros Hin. rewrite Forall_forall in Hname.
      by destruct (Hname _ Hin) as (_ & _ & H32 & _). }
  apply str_replace_absent.
  intros Hin. rewrite Forall_forall in Hname.
  by destruct (Hname _ Hin) as (_ & _ & _ & H45).
Qed.

(** X10. For a table with at least one column, whatever its labels and
    whatever the Unicode tables, [standardize_column_names] returns, and no
    label of the table it returns holds a space or a hyphen. *)
Theorem standardize_column_names_no_space_hyphen unicode_lower final_sigma w df d :
  heap w !! df = Some d →
  cols d ≠ [] →
  ∃ out w1 d1,
    DataProcessor.standardize_column_names unicode_lower final_sigma df w = (Ok out, w1) ∧
    heap w1 !! out = Some d1 ∧
    Forall (λ label, (32%N ∉ label) ∧ (45%N ∉ label)) (columns d1).
Proof.
  intros Hd Hne.
  pose proof (standardize_column_names_spec unicode_lower final_sigma df d w Hd) as H.
  unfold wp in H.
  destruct (DataProcessor.standardize_column_names _ _ df w) as [r w1]. simpl in H.
  destruct H as (_ & _ & _ & H). destruct (H Hne) as (out & -> & Hout).
  eexists out, w1, _. split; [done|]. split; [exact Hout|].
  unfold columns, relabel. simpl. rewrite <- list_fmap_compose.
  apply Forall_fmap, Forall_forall. intros [label c] _. simpl.
  apply standardize_name_no_space_hyphen.
Qed.

Lemma standardize_column_names_no_space_hyphen_witness :
  ∃ out w1 d1,
    DataProcessor.standardize_column_names sigma_only_table (λ _ _, false)
      1%positive capitalised_world = (Ok out, w1) ∧
    heap w1 !! out = Some d1 ∧
    Forall (λ label, (32%N ∉ label) ∧ (45%N ∉ label)) (columns d1).
Proof.
  apply (standardize_column_names_no_space_hyphen sigma_only_table (λ _ _, false)
           capitalised_world 1%positive capitalised_frame).
  - reflexivity.
  - discriminate.
Defined.

(** X11. A table with at least one column whose labels are made of ASCII
    characters other than capital letters, spaces and hyphens comes back
    from [standardize_column_names] as an equal table, whatever the Unicode
    tables. *)
Theorem standardize_column_names_keeps_standard_labels
    unicode_lower final_sigma w df d :
  heap w !! df = Some d →
  cols d ≠ [] →
  Forall (Forall standard_char) (columns d) →
  ∃ out w1,
    DataProcessor.standardize_column_names unicode_lower final_sigma df w = (Ok out, w1) ∧
    heap w1 !! out = Some d.
Proof.
  intros Hd Hne Hstd.
  pose proof (standardize_column_names_spec unicode_lower final_sigma df d w Hd) as H.
  unfold wp in H.
  destruct (DataProcessor.standardize_column_names _ _ df w) as [r w1]. simpl in H.
  destruct H as (_ & _ & _ & H). destruct (H Hne) as (out & -> & Hout).
  exists out, w1. split; [done|]. rewrite Hout. f_equal.
  destruct d as [idx cs]. unfold relabel. simpl. f_equal.
  rewrite <- (list_fmap_id cs) at 2. apply list_fmap_ext.
  intros i [label c] Hi. simpl. f_equal.
  apply standardize_name_standard.
  rewrite Forall_forall in Hstd. apply Hstd.
  unfold columns. simpl. apply list_elem_of_fmap. exists (label, c).
  split; [done|]. by eapply list_elem_of_lookup_2.
Qed.

Lemma standardize_column_names_keeps_standard_labels_witness :
  ∃ out w1,
    DataProcessor.standardize_column_names sigma_only_table (λ _ _, false)
      1%positive example_world = (Ok out, w1) ∧
    heap w1 !! out = Some example_frame.
Proof.
  apply (standardize_column_names_keeps_standard_labels sigma_only_table (λ _ _, false)
           example_world 1%positive example_frame).
  - reflexivity.
  - discriminate.
  - apply (bool_decide_unpack _). by vm_compute.
Defined.

(** *** validate_data_types: the converted columns and the log *)

Section ValidateMore.

Variables to_datetime to_numeric_coerce astype_category : column → result column.

Local Abbreviation conversion :=
  (DataProcessor.conversion to_datetime to_numeric_coerce astype_category).
Local Abbreviation validate_item :=
  (DataProcessor.validate_item to_datetime to_numeric_coerce astype_category).
Local Abbreviation record_of :=
  (validate_record to_datetime to_numeric_coerce astype_category).

Lemma conversion_unknown ty c :
  ty ∉ [lit "datetime"; lit "numeric"; lit "category"] → conversion ty c = Ok c.
Proof.
  intros Hty. unfold DataProcessor.conversion.
  rewrite !elem_of_cons, elem_of_nil in Hty.
  rewrite !bool_decide_eq_false_2; [done|tauto..].
Qed.

Lemma validate_item_converted d i label ty c v :
  NoDup (columns d) → cols d !! i = Some (label, c) → conversion ty c = Ok v →
  cols (validate_item d (label, ty)) !! i = Some (label, v).
Proof.
  intros Hnd Hi Hc. unfold DataProcessor.validate_item. cbn [fst snd].
  assert (Hin : (label, c) ∈ cols d) by (by eapply list_elem_of_lookup_2).
  assert (Hlab : label ∈ columns d).
  { apply list_elem_of_fmap. by exists (label, c). }
  rewrite bool_decide_eq_true_2 by done.
  case_bool_decide as Hty.
  - rewrite (getitem_NoDup d label c) by done. rewrite Hc.
    by eapply setitem_lookup_eq.
  - rewrite (conversion_unknown ty c) in Hc by done. by injection Hc as <-.
Qed.

Lemma validate_fold_converted et : ∀ d i label ty c v,
  NoDup (columns d) → NoDup et.*1 → (label, ty) ∈ et →
  cols d !! i = Some (label, c) → conversion ty c = Ok v →
  cols (foldl validate_item d et) !! i = Some (label, v).
Proof.
  induction et as [|[k t] et IH]; intros d i label ty c v Hcols Hnd Hin Hi Hc; simpl.
  { by apply elem_of_nil in Hin. }
  rewrite fmap_cons in Hnd. apply NoDup_cons in Hnd as [Hk Hnd]. simpl in Hk.
  apply elem_of_cons in Hin as [Heq|Hin].
  - injection Heq as <- <-.
    apply validate_fold_undeclared; [done|]. by apply (validate_item_converted _ _ _ _ c).
  - assert (label ≠ k).
    { intros ->. apply Hk. apply list_elem_of_fmap. by exists (k, ty). }
    eapply IH; try done.
    + by rewrite validate_item_columns.
    + by apply validate_item_lookup_ne.
Qed.

(** The [try] block for one conversion routine, with the world it leaves. *)
Lemma wp_try_convert_world (conv : column → result column) l col ty dc w Q :
  heap w !! l = Some dc →
  Q (Ok ())
    match getitem dc col with
    | Ok c =>
        match conv c with
        | Ok v => add_log (INFO, MsgConverted col ty)
                    (set_heap (<[l := setitem dc col v]> (heap w)) w)
        | Raise e => add_log (WARNING, MsgCouldNotConvert col ty e) w
        end
    | Raise e => add_log (WARNING, MsgCouldNotConvert col ty e) w
    end →
  wp (try_except
        ((c ← df_getitem l col; v ← lift (conv c); df_setitem l col v);;
         logger_info (MsgConverted col ty))
        (λ e, logger_warning (MsgCouldNotConvert col ty e))) w Q.
Proof.
  intros Hl HQ. apply wp_try_except, wp_bind, (wp_convert _ _ _ dc); [done|].
  destruct (getitem dc col) as [c|e].
  - destruct (conv c) as [v|e].
    + by apply wp_logger_info.
    + by apply wp_logger_warning.
  - by apply wp_logger_warning.
Qed.

(** The records of the run: one for each declared column that is in the
    table, in the order of the dictionary. *)
Lemma validate_data_types_log df d et w :
  heap w !! df = Some d → NoDup et.*1 →
  wp (DataProcessor.validate_data_types to_datetime to_numeric_coerce astype_category
        df et) w
     (λ r w', log w' = log w
                ++ (record_of d <$> filter (λ item, item.1 ∈ columns d) et)).
Proof.
  intros Hd Hnd. unfold DataProcessor.validate_data_types.
  apply wp_bind, (wp_df_copy _ d); [done|]. intros l Hl.
  set (final := log w ++ (record_of d <$> filter (λ item, item.1 ∈ columns d) et)).
  (* while the loop runs: the copy has the labels of [d], the columns still
     to be looked at are those of [d], and the log lacks exactly the records
     of the entries still to come *)
  set (Inv := λ (rest : list (str * str)) (w1 : world),
         ∃ dc, heap w1 !! l = Some dc ∧ columns dc = columns d ∧ NoDup rest.*1 ∧
               (∀ item, item ∈ rest → getitem dc item.1 = getitem d item.1) ∧
               log w1 ++ (record_of d <$> filter (λ item, item.1 ∈ columns d) rest)
                 = final).
  apply wp_bind. apply (wp_for_each_rest _ _ Inv).
  { exists d. simpl. rewrite lookup_insert_eq. by repeat split. }
  2:{ intros w1 (dc & _ & _ & _ & _ & Hlog). apply wp_ret. simpl in Hlog.
      by rewrite app_nil_r in Hlog. }
  intros [col ty] rest w1 (dc & Hdc & Hcols & Hnd' & Hget & Hlog). cbn [fst snd].
  rewrite fmap_cons in Hnd'. apply NoDup_cons in Hnd' as [Hk Hnd']. cbn [fst] in Hk.
  assert (Hg : getitem dc col = getitem d col) by (apply (Hget (col, ty)); left).
  assert (Hnext : ∀ dc' w2,
            heap w2 !! l = Some dc' → columns dc' = columns d →
            (∀ key, key ≠ col → getitem dc' key = getitem dc key) →
            log w2 ++ (record_of d <$> filter (λ item, item.1 ∈ columns d) rest)
              = final →
            Inv rest w2).
  { intros dc' w2 Hl' Hcols' Hne Hlog'. exists dc'. repeat (split; [done|]).
    split; [|done]. intros item Hitem. rewrite Hne; [apply Hget; by right|].
    intros Heq. apply Hk. apply list_elem_of_fmap. exists item. by split. }
  apply wp_bind, (wp_df_columns _ dc); [done|]. rewrite Hcols.
  destruct (decide (col ∈ columns d)) as [Hin|Hin].
  2:{ rewrite bool_decide_eq_false_2 by done. apply wp_ret.
      apply (Hnext dc w1); try done.
      by rewrite filter_cons_False in Hlog. }
  rewrite bool_decide_eq_true_2 by done. cbn [when].
  rewrite filter_cons_True in Hlog by done. rewrite fmap_cons in Hlog.
  assert (Hknown : ∀ conv,
            ty ∈ [lit "datetime"; lit "numeric"; lit "category"] →
            conversion ty = conv →
            wp (try_except
                  ((c ← df_getitem l col; v ← lift (conv c); df_setitem l col v);;
                   logger_info (MsgConverted col ty))
                  (λ e, logger_warning (MsgCouldNotConvert col ty e))) w1
               (λ r w2, match r with
                        | Ok _ => Inv rest w2
                        | Raise e => log w2 = final
                        end)).
  { intros conv Hty Hconv. apply (wp_try_convert_world _ _ _ _ dc); [done|].
    assert (Hrec : record_of d (col, ty)
              = match getitem dc col with
                | Ok c => match conv c with
                          | Ok _ => (INFO, MsgConverted col ty)
                          | Raise e => (WARNING, MsgCouldNotConvert col ty e)
                          end
                | Raise e => (WARNING, MsgCouldNotConvert col ty e)
                end).
    { unfold validate_record. cbn [fst snd].
      rewrite bool_decide_eq_true_2 by done. by rewrite Hg, Hconv. }
    rewrite Hrec in Hlog.
    destruct (getitem dc col) as [c|e] eqn:Hgc.
    - destruct (conv c) as [v|e].
      + apply (Hnext (setitem dc col v)).
        * simpl. by rewrite lookup_insert_eq.
        * rewrite setitem_columns; [done|]. by rewrite Hcols.
        * intros key Hne. apply getitem_setitem_ne; [by rewrite Hcols|done].
        * cbn [log add_log set_heap]. rewrite <- app_assoc. exact Hlog.
      + apply (Hnext dc); try done. cbn [log add_log set_heap]. rewrite <- app_assoc. exact Hlog.
    - apply (Hnext dc); try done. cbn [log add_log set_heap]. rewrite <- app_assoc. exact Hlog. }
  destruct (decide (ty = lit "datetime")) as [->|H1].
  { rewrite bool_decide_eq_true_2 by done.
    apply Hknown; [by left|].
    unfold DataProcessor.conversion. by rewrite bool_decide_eq_true_2. }
  rewrite (bool_decide_eq_false_2 (ty = lit "datetime")) by done.
  destruct (decide (ty = lit "numeric")) as [->|H2].
  { rewrite bool_decide_eq_true_2 by done.
    apply Hknown; [by right; left|].
    unfold DataProcessor.conversion.
    rewrite bool_decide_eq_false_2 by done. by rewrite bool_decide_eq_true_2. }
  rewrite (bool_decide_eq_false_2 (ty = lit "numeric")) by done.
  destruct (decide (ty = lit "category")) as [->|H3].
  { rewrite bool_decide_eq_true_2 by done.
    apply Hknown; [by right; right; left|].
    unfold DataProcessor.conversion.
    rewrite !bool_decide_eq_false_2 by done. by rewrite bool_decide_eq_true_2. }
  rewrite (bool_decide_eq_false_2 (ty = lit "category")) by done.
  apply wp_try_except, wp_bind, wp_ret, wp_logger_info.
  apply (Hnext dc); try done.
  assert (Hrec : record_of d (col, ty) = (INFO, MsgConverted col ty)).
  { unfold validate_record. cbn [fst snd].
    rewrite bool_decide_eq_false_2; [done|].
    rewrite !elem_of_cons, elem_of_nil. tauto. }
  rewrite Hrec in Hlog. cbn [log add_log]. rewrite <- app_assoc. exact Hlog.
Qed.

End ValidateMore.

(** X12. With pairwise different labels in the table, every declared column
    whose conversion succeeds holds the converted values in the table that
    [validate_data_types] returns; for a type name other than datetime,
    numeric and category the conversion is the identity. *)
Theorem validate_data_types_stores_conversions
    (to_datetime to_numeric_coerce astype_category : column → result column)
    w df d (expected_types : list (str * str)) :
  heap w !! df = Some d →
  NoDup (columns d) →
  NoDup expected_types.*1 →
  ∃ out w1 d1,
    DataProcessor.validate_data_types to_datetime to_numeric_coerce astype_category
      df expected_types w = (Ok out, w1) ∧
    heap w1 !! out = Some d1 ∧
    ∀ i label ty c v,
      cols d !! i = Some (label, c) → (label, ty) ∈ expected_types →
      DataProcessor.conversion to_datetime to_numeric_coerce astype_category ty c = Ok v →
      cols d1 !! i = Some (label, v).
Proof.
  intros Hd Hcols Hnd.
  pose proof (validate_data_types_spec to_datetime to_numeric_coerce astype_category
                df d expected_types w Hd) as H.
  unfold wp in H.
  destruct (DataProcessor.validate_data_types _ _ _ df expected_types w) as [r w1].
  simpl in H. destruct H as (out & -> & _ & _ & Hout).
  eexists out, w1, _. split; [done|]. split; [exact Hout|].
  intros i label ty c v Hi Hin Hc. by eapply validate_fold_converted.
Qed.

Lemma validate_data_types_stores_conversions_witness :
  ∃ out w1 d1,
    DataProcessor.validate_data_types Ok Ok (λ c, Ok (CategoryCol
        match c with ObjectCol xs => xs | _ => [] end))
      1%positive [(lit "origin", lit "category")] example_world = (Ok out, w1) ∧
    heap w1 !! out = Some d1 ∧
    cols d1 !! 0%nat
      = Some (lit "origin", CategoryCol [Some (lit "A"); Some (lit "B"); Some (lit "A")]).
Proof.
  destruct (validate_data_types_stores_conversions Ok Ok
              (λ c, Ok (CategoryCol match c with ObjectCol xs => xs | _ => [] end))
              example_world 1%positive example_frame [(lit "origin", lit "category")])
    as (out & w1 & d1 & H1 & H2 & H3).
  { reflexivity. }
  { apply (bool_decide_unpack _). by vm_compute. }
  { apply (bool_decide_unpack _). by vm_compute. }
  exists out, w1, d1. split; [done|]. split; [done|].
  apply (H3 0%nat (lit "origin") (lit "category")
            (ObjectCol [Some (lit "A"); Some (lit "B"); Some (lit "A")])).
  - reflexivity.
  - left.
  - reflexivity.
Defined.

(** X13. For a table with pairwise different labels, [validate_data_types]
    logs one record for each declared column that is a column of the table,
    in the order of the dictionary, and nothing else:
    a warning with the exception when the conversion raised, and the message
    that the column was converted otherwise; also for a type name other than
    datetime, numeric and category, for which nothing is converted. *)
Theorem validate_data_types_log_records
    (to_datetime to_numeric_coerce astype_category : column → result column)
    w df d (expected_types : list (str * str)) :
  heap w !! df = Some d →
  NoDup (columns d) →
  NoDup expected_types.*1 →
  let w1 := (DataProcessor.validate_data_types to_datetime to_numeric_coerce
               astype_category df expected_types w).2 in
  log w1 = log w ++ (validate_record to_datetime to_numeric_coerce astype_category d
                       <$> filter (λ item, item.1 ∈ columns d) expected_types) ∧
  ∀ label ty, (label, ty) ∈ expected_types → label ∈ columns d →
    ty ∉ [lit "datetime"; lit "numeric"; lit "category"] →
    (INFO, MsgConverted label ty) ∈ log w1.
Proof.
  intros Hd _ Hnd w1.
  pose proof (validate_data_types_log to_datetime to_numeric_coerce astype_category
                df d expected_types w Hd Hnd) as H.
  unfold wp in H. fold w1 in H. split; [exact H|].
  intros label ty Hin Hlab Hty. rewrite H. apply elem_of_app. right.
  apply list_elem_of_fmap. exists (label, ty). split.
  - unfold validate_record. cbn [fst snd]. by rewrite bool_decide_eq_false_2.
  - apply list_elem_of_filter. by split.
Qed.

Lemma validate_data_types_log_records_witness :
  (INFO, MsgConverted (lit "origin") (lit "string"))
    ∈ log (DataProcessor.validate_data_types Ok Ok Ok
             1%positive [(lit "origin", lit "string")] example_world).2.
Proof.
  apply (validate_data_types_log_records Ok Ok Ok example_world 1%positive
           example_frame [(lit "origin", lit "string")]).
  - reflexivity.
  - apply (bool_decide_unpack _). by vm_compute.
  - apply (bool_decide_unpack _). by vm_compute.
  - left.
  - apply (bool_decide_unpack _). by vm_compute.
  - apply (bool_decide_unpack _). by vm_compute.
Defined.

(** ** MigrationAnalyzer: failures and the contents of the results *)

(** X14. [migration_trends] checks the two column names before anything else:
    if the time column or the migration column is not a column of the table
    it raises [ValueError], and then it has made no copy and logged
    nothing. *)
Theorem migration_trends_missing_column
    (to_datetime : column → result column)
    (groupby_year_agg : DataFrame → option str → str → str → result DataFrame)
    w df d time_col migration_col groupby_col :
  heap w !! df = Some d →
  time_col ∉ columns d ∨ migration_col ∉ columns d →
  MigrationAnalyzer.migration_trends to_datetime groupby_year_agg
    df time_col migration_col groupby_col w = (Raise ValueError, w).
Proof.
  intros Hd Hmiss.
  cut (wp (MigrationAnalyzer.migration_trends to_datetime groupby_year_agg
             df time_col migration_col groupby_col) w
          (λ r w', r = Raise ValueError ∧ w' = w)).
  { unfold wp. destruct (MigrationAnalyzer.migration_trends _ _ _ _ _ _ _) as [r w'].
    simpl. by intros [-> ->]. }
  unfold MigrationAnalyzer.migration_trends.
  apply wp_bind, (wp_df_columns _ d); [done|].
  destruct (decide (time_col ∈ columns d)) as [Ht|Ht].
  - rewrite (bool_decide_eq_true_2 (time_col ∈ columns d)) by done. simpl.
    destruct Hmiss as [Hmiss|Hmiss]; [done|].
    rewrite bool_decide_eq_false_2 by done. simpl. by apply wp_raise.
  - rewrite bool_decide_eq_false_2 by done. simpl. by apply wp_raise.
Qed.

Lemma migration_trends_missing_column_witness :
  MigrationAnalyzer.migration_trends (λ c, Ok c) (λ d _ _ _, Ok d)
    1%positive (lit "year") (lit "migration_count") None example_world
  = (Raise ValueError, example_world).
Proof.
  apply (migration_trends_missing_column (λ c, Ok c) (λ d _ _ _, Ok d)
           example_world 1%positive example_frame).
  - reflexivity.
  - left. apply (bool_decide_unpack _). by vm_compute.
Defined.

(** *** The order of [sort_values] is a rearrangement *)

Lemma insert_desc_Permutation k i sorted :
  insert_desc k i sorted ≡ₚ (k, i) :: sorted.
Proof.
  induction sorted as [|[k' i'] rest IH]; simpl; [done|].
  destruct (float_lt k' k); [done|].
  rewrite IH. apply Permutation_swap.
Qed.

Lemma foldl_insert_desc_Permutation xs : ∀ acc,
  foldl (λ acc ki, insert_desc ki.1 ki.2 acc) acc xs ≡ₚ xs ++ acc.
Proof.
  induction xs as [|[k i] xs IH]; intros acc; simpl; [done|].
  rewrite IH, insert_desc_Permutation. simpl.
  by rewrite Permutation_middle.
Qed.

Lemma imap_positions {A} (xs : list A) :
  ∀ n, (imap (λ i k, (k, (n + i)%nat)) xs).*2 = seq n (length xs).
Proof.
  induction xs as [|x xs IH]; intros n; [done|].
  cbn [imap fmap list_fmap length seq snd]. rewrite Nat.add_0_r. f_equal.
  rewrite <- (IH (S n)). f_equal. apply imap_ext. intros i y _. simpl.
  f_equal. lia.
Qed.

Lemma argsort_desc_Permutation keys :
  argsort_desc keys ≡ₚ seq 0 (length keys).
Proof.
  unfold argsort_desc. set (ks := imap (λ i k, (k, i)) keys).
  rewrite foldl_insert_desc_Permutation, app_nil_r, <- fmap_app.
  assert (Hks : ks.*2 = seq 0 (length keys)) by apply (imap_positions keys 0).
  rewrite <- Hks. apply fmap_Permutation.
  rewrite <- (filter_app_complement (λ ki, isnan ki.1 = false) ks) at 3.
  apply Permutation_app; [done|].
  erewrite list_filter_iff; [done|].
  intros [k i]. simpl. by destruct (isnan k).
Qed.

Lemma omap_lookup_seq {A} (xs : list A) : ∀ pre,
  omap (λ i, (pre ++ xs) !! i) (seq (length pre) (length xs)) = xs.
Proof.
  induction xs as [|x xs IH]; intros pre; [done|].
  cbn [length seq omap list_omap]. rewrite list_lookup_middle by done.
  f_equal. specialize (IH (pre ++ [x])).
  rewrite length_app, Nat.add_1_r, <- app_assoc in IH. exact IH.
Qed.

Lemma mtake_all {A} (xs : list A) : mtake (seq 0 (length xs)) xs = xs.
Proof. apply (omap_lookup_seq xs []). Qed.

(** Taking the rows in the order of the sort keeps every row, once. *)
Lemma mtake_argsort_Permutation {A} keys (xs : list A) :
  length keys = length xs → mtake (argsort_desc keys) xs ≡ₚ xs.
Proof.
  intros Hlen. unfold mtake. rewrite argsort_desc_Permutation, Hlen.
  fold (mtake (seq 0 (length xs)) xs). by rewrite mtake_all.
Qed.

(** *** correlation_analysis: which features are reported *)

Section CorrelationMore.

Variable np_number_eq : dtype → bool.
Variable pearsonr : column → column → result (pyfloat * pyfloat).

(** The loop appends one row for each usable feature column, in order. *)
Lemma correlations_loop_features df d target_col feature_cols :
  ∀ correlations w,
    heap w !! df = Some d →
    wp (MigrationAnalyzer.correlations_loop np_number_eq pearsonr
          df target_col feature_cols correlations) w
       (λ r w', w' = w ∧ ∀ rs, r = Ok rs →
          MigrationAnalyzer.feature <$> rs
          = (MigrationAnalyzer.feature <$> correlations)
            ++ filter (λ col, usable_feature np_number_eq d col = true) feature_cols).
Proof.
  induction feature_cols as [|col rest IH]; intros correlations w Hd; simpl.
  { apply wp_ret. split; [done|]. intros ? [= <-]. by rewrite app_nil_r. }
  apply wp_bind, (wp_df_columns _ d); [done|]. apply wp_bind.
  destruct (decide (col ∈ columns d)) as [Hin|Hin].
  2:{ rewrite bool_decide_eq_false_2 by done. apply wp_ret.
      rewrite filter_cons_False; [by apply IH|].
      unfold usable_feature. by rewrite bool_decide_eq_false_2. }
  rewrite bool_decide_eq_true_2 by done.
  apply wp_bind, (wp_df_getitem _ d); [done|].
  destruct (getitem d col) as [c|e] eqn:Hg; [|by split].
  destruct (np_number_eq (dtype_of c)) eqn:Hnum.
  2:{ apply wp_ret. rewrite filter_cons_False; [by apply IH|].
      unfold usable_feature. rewrite Hg, Hnum. by rewrite andb_false_r. }
  apply wp_bind, (wp_df_getitem _ d); [done|].
  destruct (getitem d target_col) as [t|e]; [|by split].
  apply wp_bind, wp_lift.
  destruct (pearsonr (column_dropna t) (column_dropna c)) as [[r p]|e]; [|by split].
  apply wp_ret. rewrite filter_cons_True.
  2:{ unfold usable_feature. rewrite Hg, Hnum. by rewrite bool_decide_eq_true_2. }
  eapply wp_mono; [by apply IH|]. intros r' w' [-> Hrs]. split; [done|].
  intros rs Hr. rewrite (Hrs rs Hr), fmap_app. simpl. by rewrite <- app_assoc.
Qed.

(** The report before and after sorting. *)
Lemma correlation_analysis_features df d target_col feature_cols w :
  heap w !! df = Some d →
  wp (MigrationAnalyzer.correlation_analysis np_number_eq pearsonr
        df target_col feature_cols) w
     (λ r w',
        heap w ⊆ heap w' ∧
        ((filter (λ col, usable_feature np_number_eq d col = true)
            (requested_features d target_col feature_cols) = [] →
          ∀ out, r ≠ Ok out) ∧
         ∀ out, r = Ok out →
           ∃ d1 rs, heap w' !! out = Some d1 ∧ cols d1 = correlation_columns rs ∧
                    MigrationAnalyzer.feature <$> rs
                    ≡ₚ filter (λ col, usable_feature np_number_eq d col = true)
                         (requested_features d target_col feature_cols))).
Proof.
  intros Hd. unfold MigrationAnalyzer.correlation_analysis.
  apply wp_bind.
  set (Q := λ (fc : list str) (r : result loc) (w' : world),
         heap w ⊆ heap w' ∧
         ((filter (λ col, usable_feature np_number_eq d col = true) fc = [] →
           ∀ out, r ≠ Ok out) ∧
          ∀ out, r = Ok out →
            ∃ d1 rs, heap w' !! out = Some d1 ∧ cols d1 = correlation_columns rs ∧
                     MigrationAnalyzer.feature <$> rs
                     ≡ₚ filter (λ col, usable_feature np_number_eq d col = true) fc)).
  assert (Hrest : ∀ fc,
    wp (MigrationAnalyzer.correlations_loop np_number_eq pearsonr df target_col fc []
        ≫= λ correlations,
             new_frame (MigrationAnalyzer.DataFrame_of_correlations correlations)
             ≫= λ corr_df,
                  df_sort_values_abs_desc corr_df (lit "correlation")
                  ≫= λ corr_df0, logger_info MsgCorrelationCompleted ;; mret corr_df0)
       w (Q fc)).
  { intros fc. apply wp_bind. eapply wp_mono.
    { by apply (correlations_loop_features df d). }
    intros [rs|e] w' [-> Hrs]; [|by repeat split].
    specialize (Hrs rs eq_refl). simpl in Hrs.
    apply wp_bind, wp_new_frame. intros l1 Hl1.
    apply wp_bind. unfold df_sort_values_abs_desc.
    apply wp_bind, (wp_read _ (MigrationAnalyzer.DataFrame_of_correlations rs));
      [by simpl; rewrite lookup_insert_eq|].
    apply wp_bind, wp_lift.
    assert (Hsub1 : heap w ⊆ <[l1 := MigrationAnalyzer.DataFrame_of_correlations rs]> (heap w))
      by (by apply keeps_insert).
    destruct (decide (rs = [])) as [->|Hne].
    { (* an empty report has no column to sort by *)
      simpl. by repeat split. }
    unfold sort_values_abs_desc. rewrite getitem_correlation by done. simpl.
    apply wp_new_frame. intros l2 Hl2. simpl in Hl2.
    apply wp_bind, wp_logger_info, wp_ret. unfold Q. simpl.
    split; [apply keeps_insert; [done|]; by eapply keeps_fresh|].
    split.
    { intros Hnone. rewrite Hnone in Hrs. by destruct rs. }
    intros out [= <-].
    set (keys := float_abs <$> (MigrationAnalyzer.correlation <$> rs)).
    exists (frame_take (argsort_desc keys) (MigrationAnalyzer.DataFrame_of_correlations rs)),
           (mtake (argsort_desc keys) rs).
    split; [by rewrite lookup_insert_eq|]. split.
    - destruct rs as [|r0 rs0]; [done|].
      unfold correlation_columns. by rewrite <- !mtake_fmap.
    - rewrite <- Hrs. apply fmap_Permutation, mtake_argsort_Permutation.
      unfold keys. by rewrite !length_fmap. }
  destruct feature_cols as [fc|].
  - apply wp_ret, Hrest.
  - apply wp_bind, (wp_df_select_dtypes_columns _ d); [done|]. apply wp_ret, Hrest.
Qed.

End CorrelationMore.

(** X15. When no requested feature column is usable, that is, a column of the
    table whose dtype passes the numeric test, [correlation_analysis] does
    not return: the report has no row, so no column [correlation] to sort
    by, and the call ends in the [KeyError] of [sort_values]. *)
Theorem correlation_analysis_needs_a_feature
    (np_number_eq : dtype → bool)
    (pearsonr : column → column → result (pyfloat * pyfloat))
    w df d target_col feature_cols :
  heap w !! df = Some d →
  Forall (λ col, col ∉ columns d ∨
                 ∃ c, getitem d col = Ok c ∧ np_number_eq (dtype_of c) = false)
         (requested_features d target_col feature_cols) →
  (MigrationAnalyzer.correlation_analysis np_number_eq pearsonr
     df target_col feature_cols w).1 = Raise (KeyError (lit "correlation")).
Proof.
  intros Hd Hnone.
  cut (wp (MigrationAnalyzer.correlation_analysis np_number_eq pearsonr
             df target_col feature_cols) w
          (λ r _, r = Raise (KeyError (lit "correlation")))).
  { by unfold wp. }
  unfold MigrationAnalyzer.correlation_analysis. apply wp_bind.
  assert (Hloop : ∀ fc correlations,
            Forall (λ col, col ∉ columns d ∨
                           ∃ c, getitem d col = Ok c ∧ np_number_eq (dtype_of c) = false)
                   fc →
            wp (MigrationAnalyzer.correlations_loop np_number_eq pearsonr
                  df target_col fc correlations) w
               (λ r w', r = Ok correlations ∧ w' = w)).
  { intros fc correlations Hfc.
    induction Hfc as [|col rest [Hcol|(c & Hg & Hnum)] _ IH]; simpl.
    - by apply wp_ret.
    - apply wp_bind, (wp_df_columns _ d); [done|]. apply wp_bind.
      rewrite bool_decide_eq_false_2 by done. by apply wp_ret.
    - apply wp_bind, (wp_df_columns _ d); [done|]. apply wp_bind.
      rewrite bool_decide_eq_true_2 by (by eapply getitem_Ok_elem).
      apply wp_bind, (wp_df_getitem _ d); [done|]. rewrite Hg, Hnum.
      by apply wp_ret. }
  assert (Hrest : ∀ fc,
            Forall (λ col, col ∉ columns d ∨
                           ∃ c, getitem d col = Ok c ∧ np_number_eq (dtype_of c) = false)
                   fc →
            wp (MigrationAnalyzer.correlations_loop np_number_eq pearsonr df target_col fc []
                ≫= λ correlations,
                     new_frame (MigrationAnalyzer.DataFrame_of_correlations correlations)
                     ≫= λ corr_df,
                          df_sort_values_abs_desc corr_df (lit "correlation")
                          ≫= λ corr_df0, logger_info MsgCorrelationCompleted ;; mret corr_df0)
               w (λ r _, r = Raise (KeyError (lit "correlation")))).
  { intros fc Hfc. apply wp_bind. eapply wp_mono; [by apply Hloop|].
    intros r w' [-> ->].
    apply wp_bind, wp_new_frame. intros l1 Hl1.
    apply wp_bind. unfold df_sort_values_abs_desc.
    apply wp_bind, (wp_read _ (MigrationAnalyzer.DataFrame_of_correlations []));
      [by simpl; rewrite lookup_insert_eq|].
    apply wp_bind, wp_lift. done. }
  destruct feature_cols as [fc|]; simpl in Hnone.
  - apply wp_ret. by apply Hrest.
  - apply wp_bind, (wp_df_select_dtypes_columns _ d); [done|]. apply wp_ret.
    by apply Hrest.
Qed.

Lemma correlation_analysis_needs_a_feature_witness :
  (MigrationAnalyzer.correlation_analysis (λ t, bool_decide (t = float_ F64))
     pearsonr_on_constant 1%positive (lit "migration_count")
     (Some [lit "origin"; lit "distance_km"]) example_world).1
  = Raise (KeyError (lit "correlation")).
Proof.
  apply (correlation_analysis_needs_a_feature (λ t, bool_decide (t = float_ F64))
           pearsonr_on_constant example_world 1%positive example_frame).
  - reflexivity.
  - apply Forall_cons. split.
    + right. eexists. split; reflexivity.
    + apply Forall_singleton. left. apply (bool_decide_unpack _). by vm_compute.
Defined.

(** X16. When [correlation_analysis] returns, the features listed in the report
    are, up to the order of the rows, exactly the requested feature columns
    that are columns of the table and whose dtype passes the test of the
    code, [dtype in [np.number]], each as often as it was requested; by
    default the target column is not among them.  The test is the one NumPy
    answers, not "is numeric": as NumPy 1.x answers it, a column of integers
    is left out. *)
Theorem correlation_analysis_reports_usable_features
    (np_number_eq : dtype → bool)
    (pearsonr : column → column → result (pyfloat * pyfloat))
    w df d target_col feature_cols out w1 :
  heap w !! df = Some d →
  MigrationAnalyzer.correlation_analysis np_number_eq pearsonr
    df target_col feature_cols w = (Ok out, w1) →
  ∃ d1 rs,
    heap w1 !! out = Some d1 ∧ cols d1 = correlation_columns rs ∧
    MigrationAnalyzer.feature <$> rs
      ≡ₚ filter (λ col, usable_feature np_number_eq d col = true)
           (requested_features d target_col feature_cols) ∧
    (feature_cols = None → target_col ∉ MigrationAnalyzer.feature <$> rs).
Proof.
  intros Hd Hrun.
  pose proof (correlation_analysis_features np_number_eq pearsonr df d target_col
                feature_cols w Hd) as H.
  unfold wp in H. rewrite Hrun in H. simpl in H.
  destruct H as (_ & _ & H). destruct (H out eq_refl) as (d1 & rs & Hd1 & Hcols & Hperm).
  exists d1, rs. repeat (split; [done|]).
  intros -> Hin. rewrite Hperm in Hin. simpl in Hin.
  apply list_elem_of_filter in Hin as [_ Hin].
  by apply list_elem_of_filter in Hin as [Hne _].
Qed.

Lemma correlation_analysis_reports_usable_features_witness :
  ∃ out w1 d1 rs,
    MigrationAnalyzer.correlation_analysis numpy1_number_eq pearsonr_on_report
      1%positive (lit "migration_count") None report_world = (Ok out, w1) ∧
    heap w1 !! out = Some d1 ∧ cols d1 = correlation_columns rs ∧
    MigrationAnalyzer.feature <$> rs
      ≡ₚ [lit "distance_km"; lit "economic_factor"; lit "political_stability";
          lit "altitude"].
Proof.
  destruct (MigrationAnalyzer.correlation_analysis numpy1_number_eq pearsonr_on_report
              1%positive (lit "migration_count") None report_world)
    as [[out|e] w1] eqn:Hrun; [|by vm_compute in Hrun].
  destruct (correlation_analysis_reports_usable_features
              numpy1_number_eq pearsonr_on_report
              report_world 1%positive report_frame
              (lit "migration_count") None out w1)
    as (d1 & rs & H1 & H2 & H3 & _).
  { reflexivity. }
  { exact Hrun. }
  exists out, w1, d1, rs. split; [reflexivity|]. split; [exact H1|].
  split; [exact H2|]. exact H3.
Defined.

(** *** migration_clustering: the table and the cluster sizes *)

Lemma mfilter_elem_of {A} m (xs : list A) x :
  x ∈ mfilter m xs → ∃ j, m !! j = Some true ∧ xs !! j = Some x.
Proof.
  revert xs. induction m as [|b m IH]; intros [|y xs]; simpl;
    try (by intros H; apply elem_of_nil in H).
  destruct b.
  - intros [->|Hin]%elem_of_cons; [by exists 0%nat|].
    destruct (IH _ Hin) as (j & Hm & Hx). by exists (S j).
  - intros Hin. destruct (IH _ Hin) as (j & Hm & Hx). by exists (S j).
Qed.

(** The cell of a column in a row of the table is among the cells of that
    row. *)
Lemma rows_cell d lc j r :
  lc ∈ cols d → rows d !! j = Some r →
  ∃ v, cells lc.2 !! j = Some v ∧ v ∈ r.2.
Proof.
  destruct d as [idx cs]. unfold rows. simpl. revert r.
  induction cs as [|[l c] cs IH]; intros r Hin Hr.
  { by apply elem_of_nil in Hin. }
  cbn [foldr fst snd] in Hr.
  apply lookup_zip_with_Some in Hr as (v & r' & -> & Hv & Hr').
  apply elem_of_cons in Hin as [->|Hin]; simpl.
  - exists v. split; [done|left].
  - destruct (IH r' Hin Hr') as (v' & Hv' & Hin'). exists v'. split; [done|by right].
Qed.

(** After [dropna] no column holds a missing value. *)
Lemma frame_dropna_complete d lc :
  lc ∈ cols (frame_dropna d) → Forall (λ v, cell_isnull v = false) (cells lc.2).
Proof.
  unfold frame_dropna, frame_filter, frame_map_rows. simpl.
  intros ([l c] & -> & Hin)%list_elem_of_fmap. simpl.
  rewrite cells_column_filter. apply Forall_forall. intros v Hv.
  apply mfilter_elem_of in Hv as (j & Hm & Hv).
  rewrite list_lookup_fmap in Hm.
  destruct (rows d !! j) as [r|] eqn:Hr; simpl in Hm; [|done].
  injection Hm as Hm.
  destruct (rows_cell d (l, c) j r Hin Hr) as (v' & Hv' & Hin').
  simpl in Hv'. rewrite Hv in Hv'. injection Hv' as <-.
  rewrite forallb_forall in Hm. apply negb_true_iff, Hm.
  by apply list_elem_of_In.
Qed.

(** Counting the occurrences of pairwise different labels that cover a list
    counts every element of the list once. *)
Lemma sum_counts (ls xs : list Z) :
  NoDup ls → (∀ x, x ∈ xs → x ∈ ls) →
  sum_list ((λ l, length (filter (λ x, x = l) xs)) <$> ls) = length xs.
Proof.
  intros Hnd. induction xs as [|x xs IH]; intros Hsub.
  { clear Hnd Hsub. induction ls as [|l ls IHl]; [done|]. simpl in *. exact IHl. }
  simpl. rewrite <- IH by (intros y Hy; apply Hsub; by right).
  assert (Hx : x ∈ ls) by (apply Hsub; left).
  clear IH Hsub. induction ls as [|l ls IHl]; [by apply elem_of_nil in Hx|].
  apply NoDup_cons in Hnd as [Hl Hnd]. simpl in *.
  destruct (decide (x = l)) as [->|Hne].
  - rewrite filter_cons_True by done. simpl. do 3 f_equal.
    apply list_fmap_ext. intros i l' Hl'.
    rewrite filter_cons_False; [done|].
    intros ->. apply Hl. by eapply list_elem_of_lookup_2.
  - rewrite filter_cons_False by done.
    apply elem_of_cons in Hx as [->|Hx]; [done|].
    specialize (IHl Hnd Hx). unfold fmap in IHl. rewrite IHl. lia.
Qed.

Lemma value_counts_sorted_spec (labels : list Z) :
  let sizes := value_counts_sorted labels in
  StronglySorted Z.lt sizes.*1 ∧
  (∀ l n, (l, n) ∈ sizes →
     n = length (filter (λ x, x = l) labels) ∧ (0 < n)%nat) ∧
  sum_list sizes.*2 = length labels.
Proof.
  unfold value_counts_sorted.
  set (ls := merge_sort Z.le (remove_dups labels)).
  assert (Hperm : ls ≡ₚ remove_dups labels) by apply merge_sort_Permutation.
  assert (Hnd : NoDup ls) by (rewrite Hperm; apply NoDup_remove_dups).
  assert (Hin : ∀ x, x ∈ ls ↔ x ∈ labels).
  { intros x. rewrite Hperm. apply elem_of_remove_dups. }
  cbv zeta. split; [|split].
  - assert (E : ((λ l, (l, length (filter (λ x, x = l) labels))) <$> ls).*1 = ls).
    { apply list_eq. intros i. rewrite !list_lookup_fmap. by destruct (ls !! i). }
    rewrite E.
    assert (Hs : StronglySorted Z.le ls).
    { apply (StronglySorted_merge_sort Z.le). }
    clear Hperm Hin E. clearbody ls. revert Hnd.
    induction Hs as [|l ls' Hs IH Hall]; intros Hnd; [constructor|].
    apply NoDup_cons in Hnd as [Hl Hnd]. constructor; [by apply IH|].
    apply Forall_forall. intros y Hy.
    assert (l ≠ y) by (by intros ->).
    rewrite Forall_forall in Hall. specialize (Hall y Hy). lia.
  - intros l n (l' & Heq & Hl)%list_elem_of_fmap. injection Heq as -> ->.
    split; [done|]. apply Hin in Hl.
    assert (Hf : l' ∈ filter (λ x, x = l') labels) by (by apply list_elem_of_filter).
    destruct (filter (λ x, x = l') labels); [by apply elem_of_nil in Hf|simpl; lia].
  - rewrite <- list_fmap_compose. apply sum_counts; [done|]. intros x. apply Hin.
Qed.

Lemma setitem_elem_of d key c lc :
  lc ∈ cols (setitem d key c) → lc = (key, c) ∨ lc ∈ cols d.
Proof.
  unfold setitem. simpl. case_bool_decide.
  - intros (lc' & -> & Hin)%list_elem_of_fmap. case_bool_decide; [by left|by right].
  - intros [Hin|Hin%list_elem_of_singleton]%elem_of_app; [by right|by left].
Qed.

Lemma setitem_elem d key c : (key, c) ∈ cols (setitem d key c).
Proof.
  unfold setitem. simpl. case_bool_decide as Hin.
  - apply list_elem_of_fmap in Hin as (lc & -> & Hin).
    apply list_elem_of_fmap. exists lc. split; [|done].
    by rewrite bool_decide_eq_true_2.
  - apply elem_of_app. right. left.
Qed.

Lemma getitem_list_elem_of d keys cs lc :
  getitem_list d keys = Ok cs → lc ∈ cs → lc.1 ∈ keys ∧ lc ∈ cols d.
Proof.
  revert cs. induction keys as [|key rest IH]; intros cs; simpl.
  { intros [= <-] Hin. by apply elem_of_nil in Hin. }
  destruct (filter (λ lc, lc.1 = key) (cols d)) as [|lc0 found] eqn:Hf; [done|].
  destruct (getitem_list d rest) as [more|]; [|done].
  intros [= <-] Hin. change (lc ∈ (lc0 :: found) ++ more) in Hin. rewrite <- Hf in Hin.
  apply elem_of_app in Hin as [Hin|Hin].
  - apply list_elem_of_filter in Hin as [<- Hin]. split; [left|done].
  - destruct (IH more eq_refl Hin). split; [by right|done].
Qed.



(** X18. A feature column that is not a column of the table makes
    [migration_clustering] raise [KeyError] before anything is computed: no
    table is created and nothing is logged. *)
Theorem migration_clustering_missing_feature
    (fit_transform : DataFrame → result (list (list pyfloat)))
    (RandomState : Z → rng_state)
    (kmeans : thread_state → rng_state → Z → list (list pyfloat)
              → result (list Z * pyfloat * list (list pyfloat)))
    w df d feature_cols n_clusters col :
  heap w !! df = Some d →
  col ∈ feature_cols → col ∉ columns d →
  ∃ key, key ∈ feature_cols ∧ (key ∉ columns d) ∧
         MigrationAnalyzer.migration_clustering fit_transform RandomState kmeans
           df feature_cols n_clusters w = (Raise (KeyError key), w).
Proof.
  intros Hd Hin Hcol.
  assert (Hlist : ∃ key, key ∈ feature_cols ∧ (key ∉ columns d) ∧
                         getitem_list d feature_cols = Raise (KeyError key)).
  { clear Hd. induction feature_cols as [|k rest IH]; [by apply elem_of_nil in Hin|].
    simpl. destruct (filter (λ lc, lc.1 = k) (cols d)) as [|lc found] eqn:Hf.
    - exists k. split; [left|]. split; [|done].
      intros (lc & -> & Hlc)%list_elem_of_fmap.
      assert (H : lc ∈ filter (λ lc', lc'.1 = lc.1) (cols d))
        by (by apply list_elem_of_filter).
      rewrite Hf in H. by apply elem_of_nil in H.
    - apply elem_of_cons in Hin as [->|Hin].
      + exfalso. apply Hcol. apply list_elem_of_fmap. exists lc.
        assert (H : lc ∈ filter (λ lc', lc'.1 = k) (cols d)) by (rewrite Hf; left).
        apply list_elem_of_filter in H as [<- H]. by split.
      + destruct (IH Hin) as (key & Hk & Hnot & ->). exists key.
        split; [by right|]. by split. }
  destruct Hlist as (key & Hk & Hnot & Hlist). exists key.
  split; [done|]. split; [done|].
  unfold MigrationAnalyzer.migration_clustering, df_getitem_list, mbind, M_bind, read, lift.
  by rewrite Hd, Hlist.
Qed.

Lemma migration_clustering_missing_feature_witness :
  ∃ key,
    MigrationAnalyzer.migration_clustering (λ _, Ok []) (λ seed, Z.to_N seed)
      (λ _ _ _ _, Ok ([0; 1; 0]%Z, Fin 0, []))
      1%positive [lit "migration_count"; lit "distance_km"] 2%Z example_world
    = (Raise (KeyError key), example_world).
Proof.
  destruct (migration_clustering_missing_feature (λ _, Ok []) (λ seed, Z.to_N seed)
              (λ _ _ _ _, Ok ([0; 1; 0]%Z, Fin 0, []))
              example_world 1%positive example_frame
              [lit "migration_count"; lit "distance_km"] 2%Z (lit "distance_km"))
    as (key & _ & _ & H).
  { reflexivity. }
  { right. left. }
  { apply (bool_decide_unpack _). by vm_compute. }
  by exists key.
Defined.

(** ** utils.optimize_dtypes: the table it returns *)

Lemma setitem_same d key c :
  NoDup (columns d) → getitem d key = Ok c → setitem d key c = d.
Proof.
  intros Hnd Hg. pose proof (getitem_Ok_elem _ _ _ Hg) as Hin.
  destruct d as [idx cs]. unfold setitem. simpl in *.
  rewrite bool_decide_eq_true_2 by done. f_equal.
  rewrite <- (list_fmap_id cs) at 2. apply list_fmap_ext.
  intros i [l c'] Hi. simpl. case_bool_decide as Hl; [|done]. subst l.
  by rewrite (getitem_Ok_lookup _ _ _ _ _ Hg Hi).
Qed.

Lemma map_where_columns p f d : columns (map_where p f d) = columns d.
Proof.
  unfold columns, map_where. simpl. rewrite <- list_fmap_compose.
  apply list_fmap_ext. intros i [l c] _. simpl. by destruct (p (dtype_of c)).
Qed.

(** One of the three loops of [optimize_dtypes]: when every iteration
    stores [f] of the column it looks at, the loop applies [f] to the
    selected columns of the table and leaves the other objects alone. *)
Lemma wp_for_each_selected l (p : dtype → bool) (f : column → column) body d0 w0 :
  NoDup (columns d0) → heap w0 !! l = Some d0 →
  (∀ col c dc w1,
     heap w1 !! l = Some dc → NoDup (columns dc) → index dc = index d0 →
     getitem dc col = Ok c → p (dtype_of c) = true →
     wp (body col) w1 (rewrites_at l (setitem dc col (f c)) w1)) →
  wp (for_each (select_dtypes p d0) body) w0 (rewrites_at l (map_where p f d0) w0).
Proof.
  intros Hnd Hl Hbody.
  set (partial := λ rest : list str,
         {| index := index d0;
            cols := (λ lc, if p (dtype_of lc.2) && bool_decide (lc.1 ∉ rest)
                           then (lc.1, f lc.2) else lc) <$> cols d0 |}).
  assert (Hpc : ∀ rest, columns (partial rest) = columns d0).
  { intros rest. unfold columns, partial. simpl. rewrite <- list_fmap_compose.
    apply list_fmap_ext. intros i [l' c] _. simpl. by destruct (_ && _). }
  set (Inv := λ (rest : list str) (w1 : world),
         NoDup rest ∧ (∀ col, col ∈ rest → col ∈ select_dtypes p d0) ∧
         heap w1 !! l = Some (partial rest) ∧
         ∀ l', l' ≠ l → heap w1 !! l' = heap w0 !! l').
  apply (wp_for_each_rest _ _ Inv).
  - split; [by apply select_dtypes_NoDup|]. split; [done|]. split; [|done].
    rewrite Hl. f_equal. destruct d0 as [idx cs]. unfold partial. simpl. f_equal.
    rewrite <- (list_fmap_id cs) at 1. apply list_fmap_ext.
    intros i [l' c] Hi. simpl.
    destruct (p (dtype_of c)) eqn:Hp; [|done]. simpl.
    rewrite bool_decide_eq_false_2; [done|]. intros Hn. apply Hn.
    unfold select_dtypes. simpl. apply list_elem_of_fmap. exists (l', c).
    split; [done|]. apply list_elem_of_filter. split; [done|].
    by eapply list_elem_of_lookup_2.
  - intros col rest w1 (Hndr & Hsel & Hdc & Hfr).
    apply NoDup_cons in Hndr as [Hcol Hndr].
    destruct (select_dtypes_getitem p d0 col Hnd) as (c & Hg & Hp);
      [apply Hsel; left|].
    assert (Hin : (col, c) ∈ cols d0).
    { unfold getitem in Hg.
      destruct (filter (λ lc, lc.1 = col) (cols d0)) as [|lc [|lc' r]] eqn:Hf; try done.
      injection Hg as <-.
      assert (H : lc ∈ filter (λ lc, lc.1 = col) (cols d0)) by (rewrite Hf; left).
      apply list_elem_of_filter in H as [<- H]. by destruct lc. }
    assert (Hgp : getitem (partial (col :: rest)) col = Ok c).
    { apply getitem_NoDup; [by rewrite Hpc|].
      unfold partial. simpl. apply list_elem_of_fmap. exists (col, c).
      split; [|done]. simpl.
      rewrite (bool_decide_eq_false_2 (col ∉ col :: rest)), andb_false_r; [done|].
      intros Hn. apply Hn. left. }
    eapply wp_mono.
    { apply (Hbody col c (partial (col :: rest)) w1); try done. by rewrite Hpc. }
    intros r w2 (-> & Hw2 & Hfr2). split; [done|].
    split; [intros col' Hc'; apply Hsel; by right|]. split.
    { rewrite Hw2. f_equal. unfold setitem, partial. simpl.
      rewrite bool_decide_eq_true_2.
      2:{ change (col ∈ columns (partial (col :: rest))). rewrite Hpc.
          apply list_elem_of_fmap. by exists (col, c). }
      f_equal. rewrite <- list_fmap_compose. apply list_fmap_ext.
      intros i [l' c'] Hi. simpl.
      destruct (decide (l' = col)) as [->|Hne].
      - assert (c' = c) as ->.
        { by apply (getitem_Ok_lookup d0 col c i c'). }
        rewrite Hp. simpl.
        rewrite (bool_decide_eq_false_2 (col ∉ col :: rest)).
        2:{ intros Hn. apply Hn. left. }
        simpl. rewrite bool_decide_eq_true_2 by done.
        by rewrite bool_decide_eq_true_2.
      - assert (Hiff : bool_decide (l' ∉ col :: rest) = bool_decide (l' ∉ rest)).
        { apply bool_decide_ext. rewrite not_elem_of_cons. tauto. }
        rewrite Hiff. destruct (p (dtype_of c') && _); simpl;
          by rewrite bool_decide_eq_false_2. }
    intros l' Hne. rewrite Hfr2 by done. by apply Hfr.
  - intros w1 (_ & _ & Hdc & Hfr). split; [done|]. split; [|done].
    rewrite Hdc. f_equal. unfold partial, map_where. f_equal.
    apply list_fmap_ext. intros i [l' c] _. cbn [fst snd].
    rewrite (bool_decide_eq_true_2 (l' ∉ [])) by apply not_elem_of_nil.
    by rewrite andb_true_r.
Qed.

Section OptimizeExact.

Variable round_float32 : pyfloat → pyfloat.
Variable allclose : list pyfloat → list pyfloat → bool.

(** The effect of the three loops together on one column. *)
Lemma optimize_phases_column n c :
  let g1 c := match c with
              | IntCol _ xs =>
                  if fits W8 xs then astype_int W8 xs
                  else if fits W16 xs then astype_int W16 xs
                  else if fits W32 xs then astype_int W32 xs
                  else c
              | _ => c
              end in
  let g2 c := match c with
              | FloatCol _ xs => utils.downcast_float round_float32 allclose xs
              | _ => c
              end in
  let g3 c := match c with
              | ObjectCol xs =>
                  if bool_decide (2 * nunique xs < n)%nat then CategoryCol xs else c
              | _ => c
              end in
  let step (p : dtype → bool) (g : column → column) c :=
    if p (dtype_of c) then g c else c in
  step (λ t, bool_decide (t = object_)) g3
    (step (λ t, bool_decide (t = float_ F64)) g2
       (step (λ t, bool_decide (t = int_ W64)) g1 c))
  = optimized_column round_float32 allclose n c.
Proof.
  cbv zeta. destruct c as [[] xs|[] xs|xs|xs|xs|xs]; simpl; try done.
  - unfold astype_int. by repeat (destruct (fits _ _); simpl; try done).
  - unfold utils.downcast_float. by destruct (allclose _ _).
Qed.

(** A table with pairwise different labels and at least one row: the table
    that [optimize_dtypes] returns, column by column. *)
Lemma optimize_dtypes_exact df d w :
  heap w !! df = Some d →
  NoDup (columns d) → index d ≠ [] →
  wp (utils.optimize_dtypes round_float32 allclose df) w (λ r w',
    ∃ out, r = Ok out ∧ heap w !! out = None ∧ heap w ⊆ heap w' ∧
           heap w' !! out
           = Some {| index := index d;
                     cols := (λ lc, (lc.1, optimized_column round_float32 allclose
                                             (len d) lc.2)) <$> cols d |}).
Proof.
  intros Hd Hnd Hrows. unfold utils.optimize_dtypes.
  apply wp_bind, (wp_df_copy _ d); [done|]. intros l Hl.
  set (w0 := set_heap (<[l := d]> (heap w)) w).
  assert (Hl0 : heap w0 !! l = Some d) by (by simpl; rewrite lookup_insert_eq).
  (* integer columns *)
  apply wp_bind, (wp_df_select_dtypes_columns _ d); [done|].
  apply wp_bind. eapply wp_mono.
  { apply (wp_for_each_selected l _
             (λ c, match c with
                   | IntCol _ xs =>
                       if fits W8 xs then astype_int W8 xs
                       else if fits W16 xs then astype_int W16 xs
                       else if fits W32 xs then astype_int W32 xs
                       else c
                   | _ => c
                   end) _ d w0 Hnd Hl0).
    intros col c dc w1 Hdc Hndc _ Hg Hp.
    apply wp_bind, (wp_df_getitem _ dc); [done|]. rewrite Hg.
    destruct c as [t xs| | | | |]; try done. unfold fits.
    repeat (destruct (utils.ge_bound _ _ && _);
            [apply (wp_df_setitem _ dc); [done|]; split; [done|]; simpl;
             split; [by rewrite lookup_insert_eq|];
             by intros l' Hne; rewrite lookup_insert_ne|]).
    apply wp_ret. rewrite setitem_same by done. by repeat split. }
  intros r w1 (-> & Hl1 & Hfr1).
  set (d1 := map_where _ _ d) in *.
  assert (Hnd1 : NoDup (columns d1)) by (unfold d1; by rewrite map_where_columns).
  (* float columns *)
  apply wp_bind, (wp_df_select_dtypes_columns _ d1); [done|].
  apply wp_bind. eapply wp_mono.
  { apply (wp_for_each_selected l _
             (λ c, match c with
                   | FloatCol _ xs => utils.downcast_float round_float32 allclose xs
                   | _ => c
                   end) _ d1 w1 Hnd1 Hl1).
    intros col c dc w2 Hdc Hndc _ Hg Hp.
    apply wp_bind, (wp_df_getitem _ dc); [done|]. rewrite Hg.
    destruct c as [|t xs| | | |]; try done.
    apply (wp_df_setitem _ dc); [done|]. split; [done|]. simpl.
    split; [by rewrite lookup_insert_eq|].
    by intros l' Hne; rewrite lookup_insert_ne. }
  intros r w2 (-> & Hl2 & Hfr2).
  set (d2 := map_where _ _ d1) in *.
  assert (Hnd2 : NoDup (columns d2)) by (unfold d2; by rewrite map_where_columns).
  (* text columns *)
  apply wp_bind, (wp_df_select_dtypes_columns _ d2); [done|].
  apply wp_bind. eapply wp_mono.
  { apply (wp_for_each_selected l _
             (λ c, match c with
                   | ObjectCol xs =>
                       if bool_decide (2 * nunique xs < len d)%nat
                       then CategoryCol xs else c
                   | _ => c
                   end) _ d2 w2 Hnd2 Hl2).
    intros col c dc w3 Hdc Hndc Hidx Hg Hp.
    apply wp_bind, (wp_df_getitem _ dc); [done|]. rewrite Hg.
    apply wp_bind, (wp_df_len _ dc); [done|].
    destruct c as [| | |xs| |]; try done.
    assert (Hlen : len dc = len d) by (unfold len; by rewrite Hidx).
    rewrite Hlen. rewrite bool_decide_eq_false_2.
    2:{ unfold len. by destruct (index d). }
    destruct (bool_decide (2 * nunique xs < len d)%nat); cbn [when].
    - apply (wp_df_setitem _ dc); [done|]. split; [done|]. simpl.
      split; [by rewrite lookup_insert_eq|].
      by intros l' Hne; rewrite lookup_insert_ne.
    - apply wp_ret. rewrite setitem_same by done. by repeat split. }
  intros r w3 (-> & Hl3 & Hfr3).
  apply wp_ret. exists l. split; [done|]. split; [done|]. split.
  - apply map_subseteq_spec. intros l' d' Hl'.
    assert (l' ≠ l) by (intros ->; congruence).
    rewrite Hfr3, Hfr2, Hfr1 by done. simpl. by rewrite lookup_insert_ne.
  - rewrite Hl3. f_equal. unfold d2, d1, map_where. simpl. f_equal.
    rewrite <- !list_fmap_compose. apply list_fmap_ext.
    intros i [label c] _. cbn [compose fst snd].
    pose proof (optimize_phases_column (len d) c) as Hc. cbv zeta in Hc.
    rewrite <- Hc. clear Hc.
    destruct (bool_decide (dtype_of c = int_ W64)); cbn [fst snd];
      (destruct (bool_decide (dtype_of _ = float_ F64)); cbn [fst snd];
       (destruct (bool_decide (dtype_of _ = object_)); by cbn [fst snd])).
Qed.

End OptimizeExact.

Lemma fits_in_range w xs :
  xs ≠ [] → Forall (λ x, (iinfo_min w ≤ x ≤ iinfo_max w)%Z) xs → fits w xs = true.
Proof.
  intros Hne Hall. destruct xs as [|x xs]; [done|].
  apply Forall_cons in Hall as [Hx Hall].
  unfold fits, utils.ge_bound, utils.le_bound, series_min, series_max.
  clear Hne. revert Hx Hall. generalize (iinfo_min w), (iinfo_max w). intros lo hi Hx Hall.
  apply andb_true_iff. split; apply bool_decide_eq_true.
  - induction Hall as [|y ys Hy _ IH]; cbv beta in *; cbn [foldr]; lia.
  - induction Hall as [|y ys Hy _ IH]; cbv beta in *; cbn [foldr]; lia.
Qed.

Lemma fits_astype_int w xs : fits w xs = true → astype_int w xs = IntCol w xs.
Proof.
  intros Hf. destruct (bounds_true w xs Hf) as (lo & hi & Hlo & Hhi & H1 & H2).
  by eapply astype_int_in_range.
Qed.

(** X19. For a table with pairwise different labels and at least one row,
    [optimize_dtypes] stores every non-empty int64 column in the narrowest
    of int8, int16, int32 and int64 that holds all its values: no integer
    type whose range holds the values of the column is narrower than the one
    chosen. *)
Theorem optimize_dtypes_narrowest_integer_type
    (round_float32 : pyfloat → pyfloat) (allclose : list pyfloat → list pyfloat → bool)
    w df d :
  heap w !! df = Some d →
  NoDup (columns d) → index d ≠ [] →
  ∃ out w1 d1,
    utils.optimize_dtypes round_float32 allclose df w = (Ok out, w1) ∧
    heap w1 !! out = Some d1 ∧
    ∀ i label xs, cols d !! i = Some (label, IntCol W64 xs) → xs ≠ [] →
      ∃ t, cols d1 !! i = Some (label, IntCol t xs) ∧
           ∀ t', Forall (λ x, (iinfo_min t' ≤ x ≤ iinfo_max t')%Z) xs →
                 (bits t ≤ bits t')%Z.
Proof.
  intros Hd Hnd Hrows.
  pose proof (optimize_dtypes_exact round_float32 allclose df d w Hd Hnd Hrows) as H.
  unfold wp in H.
  destruct (utils.optimize_dtypes round_float32 allclose df w) as [r w1]. simpl in H.
  destruct H as (out & -> & _ & _ & Hout).
  eexists out, w1, _. split; [done|]. split; [exact Hout|].
  intros i label xs Hi Hne. simpl. rewrite list_lookup_fmap, Hi. simpl.
  destruct (fits W8 xs) eqn:H8.
  { exists W8. rewrite fits_astype_int by done. split; [done|].
    intros []; simpl; lia. }
  destruct (fits W16 xs) eqn:H16.
  { exists W16. rewrite fits_astype_int by done. split; [done|].
    intros [] Hall; simpl; try lia.
    by rewrite (fits_in_range W8 xs) in H8. }
  destruct (fits W32 xs) eqn:H32.
  { exists W32. rewrite fits_astype_int by done. split; [done|].
    intros [] Hall; simpl; try lia.
    - by rewrite (fits_in_range W8 xs) in H8.
    - by rewrite (fits_in_range W16 xs) in H16. }
  exists W64. split; [done|].
  intros [] Hall; simpl; try lia.
  - by rewrite (fits_in_range W8 xs) in H8.
  - by rewrite (fits_in_range W16 xs) in H16.
  - by rewrite (fits_in_range W32 xs) in H32.
Qed.

Lemma optimize_dtypes_narrowest_integer_type_witness :
  ∃ out w1 d1,
    utils.optimize_dtypes (λ x, x) (λ _ _, true) 1%positive example_world = (Ok out, w1) ∧
    heap w1 !! out = Some d1 ∧
    ∃ t, cols d1 !! 1%nat = Some (lit "migration_count", IntCol t [5; 7; 5]%Z) ∧
         (bits t ≤ bits W8)%Z.
Proof.
  destruct (optimize_dtypes_narrowest_integer_type (λ x, x) (λ _ _, true)
              example_world 1%positive example_frame)
    as (out & w1 & d1 & H1 & H2 & H3).
  { reflexivity. }
  { apply (bool_decide_unpack _). by vm_compute. }
  { discriminate. }
  exists out, w1, d1. split; [exact H1|]. split; [exact H2|].
  destruct (H3 1%nat (lit "migration_count") [5; 7; 5]%Z) as (t & Ht & Hmin).
  { reflexivity. }
  { discriminate. }
  exists t. split; [exact Ht|]. apply Hmin.
  repeat (apply Forall_cons; split; [by vm_compute|]). apply Forall_nil_2.
Defined.

(** X20. For a table with pairwise different labels and at least one row,
    [optimize_dtypes] turns a text column into a category column exactly
    when it has fewer distinct values than half the number of rows, and
    keeps its values; a column that is neither int64 nor float64 nor text is
    the same column in the result. *)
Theorem optimize_dtypes_text_columns
    (round_float32 : pyfloat → pyfloat) (allclose : list pyfloat → list pyfloat → bool)
    w df d :
  heap w !! df = Some d →
  NoDup (columns d) → index d ≠ [] →
  ∃ out w1 d1,
    utils.optimize_dtypes round_float32 allclose df w = (Ok out, w1) ∧
    heap w1 !! out = Some d1 ∧
    ∀ i label c, cols d !! i = Some (label, c) →
      (∀ xs, c = ObjectCol xs →
         cols d1 !! i
         = Some (label, if bool_decide (2 * nunique xs < len d)%nat
                        then CategoryCol xs else ObjectCol xs)) ∧
      (dtype_of c ∉ [int_ W64; float_ F64; object_] → cols d1 !! i = Some (label, c)).
Proof.
  intros Hd Hnd Hrows.
  pose proof (optimize_dtypes_exact round_float32 allclose df d w Hd Hnd Hrows) as H.
  unfold wp in H.
  destruct (utils.optimize_dtypes round_float32 allclose df w) as [r w1]. simpl in H.
  destruct H as (out & -> & _ & _ & Hout).
  eexists out, w1, _. split; [done|]. split; [exact Hout|].
  intros i label c Hi. simpl. rewrite list_lookup_fmap, Hi. simpl. split.
  - intros xs ->. simpl. by destruct (bool_decide _).
  - intros Hty. do 2 f_equal.
    destruct c as [[] xs|[] xs|xs|xs|xs|xs]; simpl in *; try done;
      exfalso; apply Hty; rewrite !elem_of_cons; tauto.
Qed.

Lemma optimize_dtypes_text_columns_witness :
  ∃ out w1 d1,
    utils.optimize_dtypes (λ x, x) (λ _ _, true) 1%positive example_world = (Ok out, w1) ∧
    heap w1 !! out = Some d1 ∧
    cols d1 !! 0%nat
    = Some (lit "origin", ObjectCol [Some (lit "A"); Some (lit "B"); Some (lit "A")]).
Proof.
  destruct (optimize_dtypes_text_columns (λ x, x) (λ _ _, true)
              example_world 1%positive example_frame)
    as (out & w1 & d1 & H1 & H2 & H3).
  { reflexivity. }
  { apply (bool_decide_unpack _). by vm_compute. }
  { discriminate. }
  exists out, w1, d1. split; [exact H1|]. split; [exact H2|].
  destruct (H3 0%nat (lit "origin")
              (ObjectCol [Some (lit "A"); Some (lit "B"); Some (lit "A")])) as [H _].
  { reflexivity. }
  exact (H _ eq_refl).
Defined.

Lemma optimized_column_idemp round_float32 allclose n c :
  optimized_column round_float32 allclose n
    (optimized_column round_float32 allclose n c)
  = optimized_column round_float32 allclose n c.
Proof.
  destruct c as [[] xs|[] xs|xs|xs|xs|xs]; try reflexivity.
  - cbn [optimized_column]. unfold astype_int.
    destruct (fits W8 xs) eqn:H8; [reflexivity|].
    destruct (fits W16 xs) eqn:H16; [reflexivity|].
    destruct (fits W32 xs) eqn:H32; [reflexivity|].
    cbn [optimized_column]. by rewrite H8, H16, H32.
  - cbn [optimized_column]. unfold utils.downcast_float.
    destruct (allclose _ xs) eqn:Hc; [reflexivity|].
    cbn [optimized_column]. unfold utils.downcast_float. by rewrite Hc.
  - cbn [optimized_column].
    destruct (bool_decide (2 * nunique xs < n)%nat) eqn:Hb; [reflexivity|].
    cbn [optimized_column]. by rewrite Hb.
Qed.

(** X21. For a table with pairwise different labels and at least one row,
    optimizing the table that [optimize_dtypes] returned gives an equal
    table: a second pass changes nothing. *)
Theorem optimize_dtypes_idempotent
    (round_float32 : pyfloat → pyfloat) (allclose : list pyfloat → list pyfloat → bool)
    w df d :
  heap w !! df = Some d →
  NoDup (columns d) → index d ≠ [] →
  ∃ out1 w1 d1,
    utils.optimize_dtypes round_float32 allclose df w = (Ok out1, w1) ∧
    heap w1 !! out1 = Some d1 ∧
    ∃ out2 w2,
      utils.optimize_dtypes round_float32 allclose out1 w1 = (Ok out2, w2) ∧
      heap w2 !! out2 = Some d1.
Proof.
  intros Hd Hnd Hrows.
  pose proof (optimize_dtypes_exact round_float32 allclose df d w Hd Hnd Hrows) as H.
  unfold wp in H.
  destruct (utils.optimize_dtypes round_float32 allclose df w) as [r w1]. simpl in H.
  destruct H as (out & -> & _ & _ & Hout).
  set (d1 := {| index := index d;
                cols := (λ lc, (lc.1, optimized_column round_float32 allclose
                                        (len d) lc.2)) <$> cols d |}) in *.
  exists out, w1, d1. split; [done|]. split; [done|].
  assert (Hnd1 : NoDup (columns d1)).
  { assert (E : columns d1 = columns d); [|by rewrite E].
    unfold columns, d1. simpl. rewrite <- list_fmap_compose.
    by apply list_fmap_ext. }
  pose proof (optimize_dtypes_exact round_float32 allclose out d1 w1 Hout Hnd1 Hrows) as H.
  unfold wp in H.
  destruct (utils.optimize_dtypes round_float32 allclose out w1) as [r2 w2]. simpl in H.
  destruct H as (out2 & -> & _ & _ & Hout2).
  exists out2, w2. split; [done|]. rewrite Hout2. f_equal.
  unfold d1. simpl. f_equal. rewrite <- list_fmap_compose.
  apply list_fmap_ext. intros i [label c] _. simpl. f_equal.
  apply optimized_column_idemp.
Qed.

Lemma optimize_dtypes_idempotent_witness :
  ∃ out1 w1 d1,
    utils.optimize_dtypes (λ x, x) (λ _ _, true) 1%positive example_world = (Ok out1, w1) ∧
    heap w1 !! out1 = Some d1 ∧
    ∃ out2 w2,
      utils.optimize_dtypes (λ x, x) (λ _ _, true) out1 w1 = (Ok out2, w2) ∧
      heap w2 !! out2 = Some d1.
Proof.
  apply (optimize_dtypes_idempotent (λ x, x) (λ _ _, true)
           example_world 1%positive example_frame).
  - reflexivity.
  - apply (bool_decide_unpack _). by vm_compute.
  - discriminate.
Defined.

(** ** utils: validate_dataframe and detect_outliers *)

(** X22. [validate_dataframe] answers [True] exactly when every required column
    is a column of the table, and then logs nothing; otherwise it hands one
    warning to the root logger, which lists exactly the required columns
    that the table lacks. *)
Theorem validate_dataframe_checks_required (d : DataFrame) (required_columns : list str) :
  let answer := utils_checks.validate_dataframe d required_columns in
  (answer.1 = true ↔ ∀ col, col ∈ required_columns → col ∈ columns d) ∧
  (answer.1 = true → answer.2 = []) ∧
  (answer.1 = false →
   ∃ missing, answer.2 = [(WARNING, utils_checks.MsgMissingRequired missing)] ∧
              ∀ col, col ∈ missing ↔ col ∈ required_columns ∧ col ∉ columns d).
Proof.
  cbv zeta. unfold utils_checks.validate_dataframe.
  set (missing := list_to_set required_columns ∖ list_to_set (columns d) : gset str).
  assert (Hm : ∀ col, col ∈ missing ↔ col ∈ required_columns ∧ col ∉ columns d).
  { intros col. unfold missing.
    rewrite elem_of_difference, !elem_of_list_to_set. done. }
  case_bool_decide as He; simpl.
  - split; [|split]; [|done|].
    + split; [done|]. intros Hall. exfalso. apply He.
      apply set_eq. intros col. rewrite Hm. split.
      * intros [Hr Hn]. destruct Hn. by apply Hall.
      * intros Hin. by apply elem_of_empty in Hin.
    + intros _. by exists missing.
  - split; [|split]; [|done|done].
    split; [|done]. intros _ col Hr.
    destruct (decide (col ∈ columns d)) as [Hin|Hn]; [done|].
    assert (Hc : col ∈ missing) by (by apply Hm).
    rewrite He in Hc. by apply elem_of_empty in Hc.
Qed.

Example validate_dataframe_example :
  (utils_checks.validate_dataframe example_frame [lit "origin"; lit "origin"]).1 = true ∧
  (utils_checks.validate_dataframe example_frame [lit "origin"; lit "destination"]).1
    = false.
Proof. split; by vm_compute. Qed.

(** *** Assigning a column by label *)

Lemma setitem_lookup_other d key c i label c' :
  label ≠ key →
  cols d !! i = Some (label, c') → cols (setitem d key c) !! i = Some (label, c').
Proof.
  intros Hne Hi. unfold setitem. simpl. case_bool_decide.
  - rewrite list_lookup_fmap, Hi. simpl. by rewrite bool_decide_eq_false_2.
  - by apply lookup_app_l_Some.
Qed.

Lemma setitem_lookup_inv d key c i label c' :
  cols (setitem d key c) !! i = Some (label, c') →
  (label = key ∧ c' = c) ∨ cols d !! i = Some (label, c').
Proof.
  unfold setitem. simpl. case_bool_decide.
  - rewrite list_lookup_fmap. destruct (cols d !! i) as [[l0 c0]|]; simpl; [|done].
    case_bool_decide; intros [= <- <-]; [by left|by right].
  - intros Hi. apply lookup_app_Some in Hi as [Hi|[_ Hi]]; [by right|].
    apply list_lookup_singleton_Some in Hi as [_ [= <- <-]]. by left.
Qed.

Lemma setitem_columns_prefix d key c : columns d `prefix_of` columns (setitem d key c).
Proof.
  destruct (decide (key ∈ columns d)) as [Hin|Hin].
  - by rewrite setitem_columns.
  - unfold columns, setitem. simpl. rewrite bool_decide_eq_false_2 by done.
    rewrite fmap_app. by apply prefix_app_r.
Qed.

Lemma setitem_columns_elem d key c : key ∈ columns (setitem d key c).
Proof.
  apply list_elem_of_fmap. exists (key, c). split; [done|]. apply setitem_elem.
Qed.

Section DetectOutliers.

Variable scalar : Type.
Variable quantile : column → pyfloat → result scalar.
Variables series_mean series_std : column → result scalar.
Variables scalar_sub scalar_add : scalar → scalar → result scalar.
Variable float_mul_scalar : pyfloat → scalar → result scalar.
Variables series_lt series_gt : column → scalar → result (list bool).
Variables series_sub_scalar series_div_scalar : column → scalar → result column.
Variable np_abs : column → result column.
Variable series_gt_int : column → Z → result (list bool).

Local Abbreviation detect_outliers :=
  (utils_checks.detect_outliers scalar quantile series_mean series_std scalar_sub
     scalar_add float_mul_scalar series_lt series_gt series_sub_scalar
     series_div_scalar np_abs series_gt_int).

Lemma flagged_setitem (columns_ : list str) d dc col flags :
  col ∈ columns_ → col ∈ columns d →
  flagged columns_ d dc →
  flagged columns_ d (setitem dc (col ++ lit "_outlier") (BoolCol flags)).
Proof.
  intros Hcol Hin (Hidx & Hpre & Hkept & Hnew). split; [done|]. split; [|split].
  - etrans; [exact Hpre|]. apply setitem_columns_prefix.
  - intros i label c Hi Hlab. apply setitem_lookup_other; [by apply Hlab|].
    by apply Hkept.
  - intros i label c Hi Hlen.
    apply setitem_lookup_inv in Hi as [[-> ->]|Hi]; [by exists col, flags|].
    by apply (Hnew i).
Qed.

Lemma detect_outliers_spec df d columns_ method w :
  heap w !! df = Some d →
  wp (detect_outliers df columns_ method) w (λ r w',
    heap w ⊆ heap w' ∧
    (method ∉ [lit "iqr"; lit "zscore"] ∨
     (∀ col, col ∈ columns_ → col ∉ columns d) → ∃ out, r = Ok out) ∧
    ∀ out, r = Ok out →
      heap w !! out = None ∧
      ∃ d1, heap w' !! out = Some d1 ∧ flagged columns_ d d1 ∧
            (method ∈ [lit "iqr"; lit "zscore"] →
             ∀ col, col ∈ columns_ → col ∈ columns d →
                    col ++ lit "_outlier" ∈ columns d1) ∧
            (method ∉ [lit "iqr"; lit "zscore"] ∨
             (∀ col, col ∈ columns_ → col ∉ columns d) → d1 = d)).
Proof.
  intros Hd. unfold utils_checks.detect_outliers.
  apply wp_bind, (wp_df_copy _ d); [done|]. intros l Hl.
  assert (Hne : l ≠ df) by (intros ->; congruence).
  set (Q := λ (r : result ()) (w' : world),
         heap w ⊆ heap w' ∧ ∀ out : loc, r = Ok () → False).
  set (Inv := λ (rest : list str) (w1 : world),
         heap w ⊆ heap w1 ∧
         ∃ dc, heap w1 !! l = Some dc ∧ flagged columns_ d dc ∧
               (method ∈ [lit "iqr"; lit "zscore"] →
                ∀ col, col ∈ columns_ → col ∈ columns d →
                       col ∈ rest ∨ col ++ lit "_outlier" ∈ columns dc) ∧
               (method ∉ [lit "iqr"; lit "zscore"] ∨
                (∀ col, col ∈ columns_ → col ∉ columns d) → dc = d) ∧
               (∀ col, col ∈ rest → col ∈ columns_)).
  apply wp_bind.
  apply (wp_for_each_rest _ _ Inv).
  - split; [by apply keeps_insert|]. exists d. simpl. rewrite lookup_insert_eq.
    split; [done|]. split; [|split; [|by split]].
    + split; [done|]. split; [done|]. split; [done|].
      intros i label c Hi Hlen. apply lookup_lt_Some in Hi. lia.
    + intros _ col Hcol _. by left.
  - intros col rest w1 (Hsub & dc & Hdc & Hfl & Hdone & Hsame & Hrest).
    assert (Hd1 : heap w1 !! df = Some d) by (by eapply lookup_weaken).
    assert (Hcolin : col ∈ columns_) by (apply Hrest; left).
    assert (Hskip : Inv rest w1 ∨ col ∈ columns d).
    { destruct (decide (col ∈ columns d)) as [Hin|Hin]; [by right|left].
      split; [done|]. exists dc. repeat (split; [done|]). split; [|split; [done|]].
      - intros Hm col' Hc' Hin'. destruct (Hdone Hm col' Hc' Hin') as [H|H]; [|by right].
        apply elem_of_cons in H as [->|H]; [done|by left].
      - intros col' Hc'. apply Hrest. by right. }
    assert (Hset : ∀ flags,
              method ∈ [lit "iqr"; lit "zscore"] → col ∈ columns d →
              Inv rest (set_heap (<[l := setitem dc (col ++ lit "_outlier")
                                           (BoolCol flags)]> (heap w1)) w1)).
    { intros flags Hm Hin. split; simpl.
      - apply keeps_insert; [done|]. done.
      - eexists. rewrite lookup_insert_eq. split; [done|].
        split; [by apply flagged_setitem|]. split; [|split].
        + intros _ col' Hc' Hin'.
          destruct (decide (col' = col)) as [->|Hne'].
          { right. apply setitem_columns_elem. }
          destruct (Hdone Hm col' Hc' Hin') as [H|H].
          * apply elem_of_cons in H as [->|H]; [done|by left].
          * right. eapply elem_of_prefix; [exact H|apply setitem_columns_prefix].
        + intros [Hm'|Hnone]; [done|]. by destruct (Hnone col Hcolin).
        + intros col' Hc'. apply Hrest. by right. }
    assert (Hraise : method ∈ [lit "iqr"; lit "zscore"] → col ∈ columns d →
              ∀ e : exn,
              heap w ⊆ heap w1 ∧
              (method ∉ [lit "iqr"; lit "zscore"] ∨
               (∀ col, col ∈ columns_ → col ∉ columns d) →
               ∃ out, @Raise loc e = Ok out) ∧
              ∀ out, @Raise loc e = Ok out →
                heap w !! out = None ∧
                ∃ d1, heap w1 !! out = Some d1 ∧ flagged columns_ d d1 ∧
                      (method ∈ [lit "iqr"; lit "zscore"] →
                       ∀ col, col ∈ columns_ → col ∈ columns d →
                              col ++ lit "_outlier" ∈ columns d1) ∧
                      (method ∉ [lit "iqr"; lit "zscore"] ∨
                       (∀ col, col ∈ columns_ → col ∉ columns d) → d1 = d)).
    { intros Hm Hin e. split; [done|]. split; [|done].
      intros [Hm'|Hnone]; [done|]. by destruct (Hnone col Hcolin). }
    apply wp_bind, (wp_df_columns _ d); [done|].
    destruct (decide (col ∈ columns d)) as [Hin|Hin].
    2:{ rewrite bool_decide_eq_false_2 by done. simpl. apply wp_ret.
        by destruct Hskip. }
    rewrite bool_decide_eq_true_2 by done. simpl.
    destruct (decide (method = lit "iqr")) as [->|Hiqr].
    { rewrite bool_decide_eq_true_2 by done.
      pose proof (Hraise ltac:(rewrite !elem_of_cons; tauto) Hin) as Hr.
      repeat (apply wp_bind;
              first [apply (wp_df_getitem _ d); [done|] | apply wp_lift];
              cbv beta iota;
              try lazymatch goal with
                  | |- match ?r with Ok _ => _ | Raise _ => _ end =>
                      destruct r; [|apply Hr]
                  end).
      apply (wp_df_setitem _ dc); [done|]. apply Hset; [left|done]. }
    rewrite (bool_decide_eq_false_2 (method = lit "iqr")) by done.
    destruct (decide (method = lit "zscore")) as [->|Hz].
    { rewrite bool_decide_eq_true_2 by done.
      pose proof (Hraise ltac:(rewrite !elem_of_cons; tauto) Hin) as Hr.
      repeat (apply wp_bind;
              first [apply (wp_df_getitem _ d); [done|] | apply wp_lift];
              cbv beta iota;
              try lazymatch goal with
                  | |- match ?r with Ok _ => _ | Raise _ => _ end =>
                      destruct r; [|apply Hr]
                  end).
      apply (wp_df_setitem _ dc); [done|]. apply Hset; [right; left|done]. }
    rewrite bool_decide_eq_false_2 by done. apply wp_ret.
    split; [done|]. exists dc. repeat (split; [done|]). split; [|split; [done|]].
    + intros Hm. rewrite !elem_of_cons, elem_of_nil in Hm. tauto.
    + intros col' Hc'. apply Hrest. by right.
  - intros w1 (Hsub & dc & Hdc & Hfl & Hdone & Hsame & _).
    apply wp_ret. split; [done|]. split; [by eauto|]. intros out [= <-]. split; [done|].
    exists dc. repeat (split; [done|]). split; [|done].
    intros Hm col Hc Hin. destruct (Hdone Hm col Hc Hin) as [H|H]; [|done].
    by apply elem_of_nil in H.
Qed.

End DetectOutliers.

(** The statistics of the examples: every quantile, mean and deviation is
    0, no value is flagged. *)
Local Abbreviation detect_outliers_flat :=
  (utils_checks.detect_outliers pyfloat
     (λ _ _, Ok (Fin 0)) (λ _, Ok (Fin 0)) (λ _, Ok (Fin 0))
     (λ _ _, Ok (Fin 0)) (λ _ _, Ok (Fin 0)) (λ _ _, Ok (Fin 0))
     (λ c _, Ok ((λ _, false) <$> cells c)) (λ c _, Ok ((λ _, false) <$> cells c))
     (λ c _, Ok c) (λ c _, Ok c) (λ c, Ok c)
     (λ c _, Ok ((λ _, false) <$> cells c))).

(** X23. [detect_outliers] does nothing but copy the table when the method is
    neither iqr nor zscore, or when none of the listed columns is a column
    of the table: it returns a new table equal to its argument and raises
    nothing, whatever the table holds. *)
Theorem detect_outliers_ignores_unknown_method
    (scalar : Type)
    (quantile : column → pyfloat → result scalar)
    (series_mean series_std : column → result scalar)
    (scalar_sub scalar_add : scalar → scalar → result scalar)
    (float_mul_scalar : pyfloat → scalar → result scalar)
    (series_lt series_gt : column → scalar → result (list bool))
    (series_sub_scalar series_div_scalar : column → scalar → result column)
    (np_abs : column → result column)
    (series_gt_int : column → Z → result (list bool))
    w df d columns_ method :
  heap w !! df = Some d →
  method ∉ [lit "iqr"; lit "zscore"] ∨ (∀ col, col ∈ columns_ → col ∉ columns d) →
  ∃ out w1,
    utils_checks.detect_outliers scalar quantile series_mean series_std scalar_sub
      scalar_add float_mul_scalar series_lt series_gt series_sub_scalar
      series_div_scalar np_abs series_gt_int df columns_ method w = (Ok out, w1) ∧
    heap w !! out = None ∧ heap w1 !! out = Some d.
Proof.
  intros Hd Hcond.
  pose proof (detect_outliers_spec scalar quantile series_mean series_std scalar_sub
                scalar_add float_mul_scalar series_lt series_gt series_sub_scalar
                series_div_scalar np_abs series_gt_int df d columns_ method w Hd) as H.
  unfold wp in H.
  destruct (utils_checks.detect_outliers _ _ _ _ _ _ _ _ _ _ _ _ _ df columns_ method w)
    as [r w1].
  simpl in H. destruct H as (_ & Hret & H).
  destruct (Hret Hcond) as [out ->].
  destruct (H out eq_refl) as (Hnew & d1 & Hd1 & _ & _ & Hsame).
  exists out, w1. split; [done|]. split; [done|]. by rewrite <- (Hsame Hcond).
Qed.

Lemma detect_outliers_ignores_unknown_method_witness :
  ∃ out w1,
    detect_outliers_flat 1%positive [lit "migration_count"] (lit "IQR") example_world
      = (Ok out, w1) ∧
    heap example_world !! out = None ∧ heap w1 !! out = Some example_frame.
Proof.
  apply (detect_outliers_ignores_unknown_method pyfloat
           (λ _ _, Ok (Fin 0)) (λ _, Ok (Fin 0)) (λ _, Ok (Fin 0))
           (λ _ _, Ok (Fin 0)) (λ _ _, Ok (Fin 0)) (λ _ _, Ok (Fin 0))
           (λ c _, Ok ((λ _, false) <$> cells c)) (λ c _, Ok ((λ _, false) <$> cells c))
           (λ c _, Ok c) (λ c _, Ok c) (λ c, Ok c)
           (λ c _, Ok ((λ _, false) <$> cells c))
           example_world 1%positive example_frame).
  - reflexivity.
  - left. apply (bool_decide_unpack _). by vm_compute.
Defined.

(** X24. When [detect_outliers] returns, the table has the rows of its argument
    and its columns in their places, followed by flag columns: a column of
    the argument is unchanged unless its label is the label of a flag
    column, every further column is a column of booleans labelled
    [<col>_outlier] for a listed column [col] of the table, and with the
    method iqr or zscore every listed column of the table has its flag
    column. *)
Theorem detect_outliers_adds_flag_columns
    (scalar : Type)
    (quantile : column → pyfloat → result scalar)
    (series_mean series_std : column → result scalar)
    (scalar_sub scalar_add : scalar → scalar → result scalar)
    (float_mul_scalar : pyfloat → scalar → result scalar)
    (series_lt series_gt : column → scalar → result (list bool))
    (series_sub_scalar series_div_scalar : column → scalar → result column)
    (np_abs : column → result column)
    (series_gt_int : column → Z → result (list bool))
    w df d columns_ method out w1 :
  heap w !! df = Some d →
  utils_checks.detect_outliers scalar quantile series_mean series_std scalar_sub
    scalar_add float_mul_scalar series_lt series_gt series_sub_scalar
    series_div_scalar np_abs series_gt_int df columns_ method w = (Ok out, w1) →
  ∃ d1,
    heap w1 !! out = Some d1 ∧
    index d1 = index d ∧
    columns d `prefix_of` columns d1 ∧
    (∀ i label c, cols d !! i = Some (label, c) →
       (∀ col, col ∈ columns_ → label ≠ col ++ lit "_outlier") →
       cols d1 !! i = Some (label, c)) ∧
    (∀ i label c, cols d1 !! i = Some (label, c) → (length (cols d) ≤ i)%nat →
       ∃ col flags, col ∈ columns_ ∧ col ∈ columns d ∧
                    label = col ++ lit "_outlier" ∧ c = BoolCol flags) ∧
    (method ∈ [lit "iqr"; lit "zscore"] →
     ∀ col, col ∈ columns_ → col ∈ columns d → col ++ lit "_outlier" ∈ columns d1).
Proof.
  intros Hd Hrun.
  pose proof (detect_outliers_spec scalar quantile series_mean series_std scalar_sub
                scalar_add float_mul_scalar series_lt series_gt series_sub_scalar
                series_div_scalar np_abs series_gt_int df d columns_ method w Hd) as H.
  unfold wp in H. rewrite Hrun in H. simpl in H. destruct H as (_ & _ & H).
  destruct (H out eq_refl) as (_ & d1 & Hd1 & (Hidx & Hpre & Hkept & Hnew) & Hall & _).
  exists d1. by repeat (split; [done|]).
Qed.

Lemma detect_outliers_adds_flag_columns_witness :
  ∃ out w1 d1,
    detect_outliers_flat 1%positive [lit "migration_count"; lit "distance_km"]
      (lit "iqr") example_world = (Ok out, w1) ∧
    heap w1 !! out = Some d1 ∧
    columns example_frame `prefix_of` columns d1 ∧
    lit "migration_count_outlier" ∈ columns d1.
Proof.
  destruct (detect_outliers_flat 1%positive [lit "migration_count"; lit "distance_km"]
              (lit "iqr") example_world) as [[out|e] w1] eqn:Hrun;
    [|by vm_compute in Hrun].
  destruct (detect_outliers_adds_flag_columns pyfloat
              (λ _ _, Ok (Fin 0)) (λ _, Ok (Fin 0)) (λ _, Ok (Fin 0))
              (λ _ _, Ok (Fin 0)) (λ _ _, Ok (Fin 0)) (λ _ _, Ok (Fin 0))
              (λ c _, Ok ((λ _, false) <$> cells c)) (λ c _, Ok ((λ _, false) <$> cells c))
              (λ c _, Ok c) (λ c _, Ok c) (λ c, Ok c)
              (λ c _, Ok ((λ _, false) <$> cells c))
              example_world 1%positive example_frame
              [lit "migration_count"; lit "distance_km"] (lit "iqr") out w1)
    as (d1 & H1 & _ & H2 & _ & _ & H3).
  { reflexivity. }
  { exact Hrun. }
  exists out, w1, d1. split; [reflexivity|]. split; [exact H1|]. split; [exact H2|].
  apply (H3 ltac:(left) (lit "migration_count")).
  - left.
  - apply (bool_decide_unpack _). by vm_compute.
Defined.

Example detect_outliers_example :
  ∃ out w1,
    detect_outliers_flat 1%positive [lit "migration_count"; lit "distance_km"]
      (lit "zscore") example_world = (Ok out, w1) ∧
    (cols <$> heap w1 !! out) =
      Some [(lit "origin", ObjectCol [Some (lit "A"); Some (lit "B"); Some (lit "A")]);
            (lit "migration_count", IntCol W64 [5; 7; 5]%Z);
            (lit "migration_count_outlier", BoolCol [false; false; false])].
Proof. eexists _, _. split; vm_compute; reflexivity. Qed.

(** ** The analysis and utility functions leave the caller's tables alone *)

Section KeepsMore.

Variable fit_transform : DataFrame → result (list (list pyfloat)).
Variable RandomState : Z → rng_state.
Variable kmeans : thread_state → rng_state → Z → list (list pyfloat)
                  → result (list Z * pyfloat * list (list pyfloat)).

(** The three tables that [migration_clustering] makes are new objects. *)
Lemma migration_clustering_keeps df d feature_cols n_clusters w :
  heap w !! df = Some d →
  wp (MigrationAnalyzer.migration_clustering fit_transform RandomState kmeans
        df feature_cols n_clusters) w
     (λ r w', heap w ⊆ heap w' ∧ ∀ out info, r = Ok (out, info) → heap w !! out = None).
Proof.
  intros Hd. unfold MigrationAnalyzer.migration_clustering.
  apply wp_bind. unfold df_getitem_list.
  apply wp_bind, (wp_read _ d); [done|].
  apply wp_bind, wp_lift.
  destruct (getitem_list d feature_cols) as [cs|e]; [|by split].
  cbv zeta. apply wp_new_frame. intros l1 Hl1.
  set (d0 := {| index := index d; cols := cs |}).
  assert (H1 : heap w ⊆ <[l1 := d0]> (heap w)) by (by apply keeps_insert).
  apply wp_bind, (wp_df_dropna _ d0); [by simpl; rewrite lookup_insert_eq|].
  simpl. intros l2 Hl2.
  assert (H2 : heap w ⊆ <[l2 := frame_dropna d0]> (<[l1 := d0]> (heap w))).
  { apply keeps_insert; [done|]. by eapply keeps_fresh. }
  apply wp_bind, (wp_read _ (frame_dropna d0)); [by simpl; rewrite lookup_insert_eq|].
  apply wp_bind, wp_lift.
  destruct (fit_transform (frame_dropna d0)) as [scaled|e]; [|by split].
  apply wp_bind. unfold MigrationAnalyzer.KMeans_fit_predict.
  apply wp_bind, wp_ret, wp_bind, wp_get_threads, wp_lift. cbn [threads set_heap].
  destruct (kmeans (threads w) (RandomState 42%Z) n_clusters scaled) as [fit|e]; [|by split].
  apply wp_bind, (wp_df_copy _ (frame_dropna d0)); [by simpl; rewrite lookup_insert_eq|].
  simpl. intros l3 Hl3.
  assert (Hl3' : heap w !! l3 = None) by (by eapply keeps_fresh).
  assert (H3 : heap w ⊆ <[l3 := frame_dropna d0]>
                          (<[l2 := frame_dropna d0]> (<[l1 := d0]> (heap w)))).
  { by apply keeps_insert. }
  apply wp_bind. unfold df_setitem_array.
  apply wp_bind, (wp_read _ (frame_dropna d0)); [by simpl; rewrite lookup_insert_eq|].
  case_bool_decide as Hb; [|by apply wp_raise].
  apply wp_write, wp_bind, wp_logger_info, wp_ret. simpl.
  rewrite insert_insert_eq. split.
  - by apply keeps_insert.
  - by intros ? ? [= <- _].
Qed.

Variable float_sum : float_width → list pyfloat → pyfloat.
Variable object_sum : list (option str) → result cell.
Variable compute_others : DataFrame → str → str → str → result utils.other_metrics.

(** [calculate_migration_metrics] only reads. *)
Lemma calculate_migration_metrics_reads df d origin_col destination_col migration_col w :
  heap w !! df = Some d →
  wp (utils.calculate_migration_metrics float_sum object_sum compute_others
        df origin_col destination_col migration_col) w
     (λ r w', w' = w ∧
              (migration_col ∉ columns d → r = Raise (KeyError migration_col))).
Proof.
  intros Hd. unfold utils.calculate_migration_metrics.
  apply wp_bind, (wp_df_getitem _ d); [done|].
  destruct (getitem d migration_col) as [c|e] eqn:Hg.
  - apply getitem_Ok_elem in Hg.
    apply wp_bind, wp_lift.
    destruct (utils.series_sum float_sum object_sum c) as [total|e]; [|by split].
    apply wp_bind, (wp_read _ d); [done|].
    destruct (negb _); [by split|].
    apply wp_bind, wp_lift.
    destruct (compute_others d origin_col destination_col migration_col); [|by split].
    apply wp_ret. by split.
  - split; [done|]. intros Hnot. f_equal.
    unfold getitem in Hg.
    destruct (filter (λ lc, lc.1 = migration_col) (cols d)) as [|lc found] eqn:Hf;
      [by injection Hg as <-|].
    exfalso. apply Hnot, list_elem_of_fmap. exists lc.
    assert (H : lc ∈ filter (λ lc', lc'.1 = migration_col) (cols d))
      by (rewrite Hf; left).
    apply list_elem_of_filter in H as [<- H]. by split.
Qed.

End KeepsMore.

(** X25. [correlation_analysis] and [migration_clustering] change no table that
    existed before the call, so not their argument either, whether they
    return or raise; the table that [migration_clustering] returns is a new
    object. *)
Theorem analysis_leaves_tables_unchanged
    (np_number_eq : dtype → bool)
    (pearsonr : column → column → result (pyfloat * pyfloat))
    (fit_transform : DataFrame → result (list (list pyfloat)))
    (RandomState : Z → rng_state)
    (kmeans : thread_state → rng_state → Z → list (list pyfloat)
              → result (list Z * pyfloat * list (list pyfloat)))
    w df d target_col feature_cols cluster_cols n_clusters :
  heap w !! df = Some d →
  heap w ⊆ heap (MigrationAnalyzer.correlation_analysis np_number_eq pearsonr
                   df target_col feature_cols w).2 ∧
  heap w ⊆ heap (MigrationAnalyzer.migration_clustering fit_transform RandomState kmeans
                   df cluster_cols n_clusters w).2 ∧
  ∀ out info,
    (MigrationAnalyzer.migration_clustering fit_transform RandomState kmeans
       df cluster_cols n_clusters w).1 = Ok (out, info) →
    heap w !! out = None.
Proof.
  intros Hd. split; [|split].
  - by destruct (wp_run _ _ _ (correlation_analysis_features np_number_eq pearsonr
                                 df d target_col feature_cols w Hd)) as [H _].
  - by destruct (wp_run _ _ _ (migration_clustering_keeps fit_transform RandomState
                                 kmeans df d cluster_cols n_clusters w Hd)) as [H _].
  - by destruct (wp_run _ _ _ (migration_clustering_keeps fit_transform RandomState
                                 kmeans df d cluster_cols n_clusters w Hd)) as [_ H].
Qed.

Lemma analysis_leaves_tables_unchanged_witness :
  heap example_world
    ⊆ heap (MigrationAnalyzer.correlation_analysis (λ _, true) (λ _ _, Raise ValueError)
              1%positive (lit "migration_count") None example_world).2 ∧
  heap example_world
    ⊆ heap (MigrationAnalyzer.migration_clustering (λ _, Ok []) (λ seed, Z.to_N seed)
              (λ _ _ _ _, Ok ([0; 1; 0]%Z, Fin 0, []))
              1%positive [lit "migration_count"] 2%Z example_world).2.
Proof.
  destruct (analysis_leaves_tables_unchanged (λ _, true) (λ _ _, Raise ValueError)
              (λ _, Ok []) (λ seed, Z.to_N seed) (λ _ _ _ _, Ok ([0; 1; 0]%Z, Fin 0, []))
              example_world 1%positive example_frame (lit "migration_count") None
              [lit "migration_count"] 2%Z)
    as (H1 & H2 & _).
  { reflexivity. }
  split; [exact H1 | exact H2].
Defined.

(** X26. [optimize_dtypes] and [detect_outliers] change no table that existed
    before the call, whether they return or raise, and the table they return
    is a new object; [calculate_migration_metrics] changes nothing at all:
    no table, no file, no log record. *)
Theorem utils_leave_tables_unchanged
    (round_float32 : pyfloat → pyfloat)
    (allclose : list pyfloat → list pyfloat → bool)
    (scalar : Type)
    (quantile : column → pyfloat → result scalar)
    (series_mean series_std : column → result scalar)
    (scalar_sub scalar_add : scalar → scalar → result scalar)
    (float_mul_scalar : pyfloat → scalar → result scalar)
    (series_lt series_gt : column → scalar → result (list bool))
    (series_sub_scalar series_div_scalar : column → scalar → result column)
    (np_abs : column → result column)
    (series_gt_int : column → Z → result (list bool))
    (float_sum : float_width → list pyfloat → pyfloat)
    (object_sum : list (option str) → result cell)
    (compute_others : DataFrame → str → str → str → result utils.other_metrics)
    w df d columns_ method origin_col destination_col migration_col :
  heap w !! df = Some d →
  let optimized := utils.optimize_dtypes round_float32 allclose df w in
  let flagged_ :=
    utils_checks.detect_outliers scalar quantile series_mean series_std scalar_sub
      scalar_add float_mul_scalar series_lt series_gt series_sub_scalar
      series_div_scalar np_abs series_gt_int df columns_ method w in
  (heap w ⊆ heap optimized.2 ∧ ∀ out, optimized.1 = Ok out → heap w !! out = None) ∧
  (heap w ⊆ heap flagged_.2 ∧ ∀ out, flagged_.1 = Ok out → heap w !! out = None) ∧
  (utils.calculate_migration_metrics float_sum object_sum compute_others
     df origin_col destination_col migration_col w).2 = w.
Proof.
  intros Hd optimized flagged_. split; [|split].
  - destruct (wp_run _ _ _ (optimize_dtypes_spec round_float32 allclose df d w Hd))
      as [H1 H2].
    split; [exact H1|]. intros out Hout. by destruct (H2 out Hout).
  - destruct (wp_run _ _ _ (detect_outliers_spec scalar quantile series_mean series_std
                              scalar_sub scalar_add float_mul_scalar series_lt series_gt
                              series_sub_scalar series_div_scalar np_abs series_gt_int
                              df d columns_ method w Hd))
      as (H1 & _ & H2).
    split; [exact H1|]. intros out Hout. by destruct (H2 out Hout).
  - by destruct (wp_run _ _ _ (calculate_migration_metrics_reads float_sum object_sum
                                 compute_others df d origin_col destination_col
                                 migration_col w Hd)) as [H _].
Qed.

Lemma utils_leave_tables_unchanged_witness :
  heap example_world
    ⊆ heap (utils.optimize_dtypes (λ x, x) (λ _ _, true) 1%positive example_world).2 ∧
  heap example_world
    ⊆ heap (detect_outliers_flat 1%positive [lit "migration_count"] (lit "iqr")
              example_world).2 ∧
  (utils.calculate_migration_metrics (λ _ _, NaN) (λ _, Raise TypeError)
     (λ _ _ _ _, Ok no_other_metrics)
     1%positive (lit "origin") (lit "destination") (lit "migration_count")
     example_world).2 = example_world.
Proof.
  destruct (utils_leave_tables_unchanged (λ x, x) (λ _ _, true) pyfloat
              (λ _ _, Ok (Fin 0)) (λ _, Ok (Fin 0)) (λ _, Ok (Fin 0))
              (λ _ _, Ok (Fin 0)) (λ _ _, Ok (Fin 0)) (λ _ _, Ok (Fin 0))
              (λ c _, Ok ((λ _, false) <$> cells c)) (λ c _, Ok ((λ _, false) <$> cells c))
              (λ c _, Ok c) (λ c _, Ok c) (λ c, Ok c)
              (λ c _, Ok ((λ _, false) <$> cells c))
              (λ _ _, NaN) (λ _, Raise TypeError) (λ _ _ _ _, Ok no_other_metrics)
              example_world 1%positive example_frame [lit "migration_count"] (lit "iqr")
              (lit "origin") (lit "destination") (lit "migration_count"))
    as ([H1 _] & [H2 _] & H3).
  { reflexivity. }
  split; [exact H1|]. split; [exact H2 | exact H3].
Defined.

(** X27. When the migration column is not a column of the table,
    [calculate_migration_metrics] raises [KeyError] with the name of that
    column, from its first statement; the other column names are not looked
    at. *)
Theorem calculate_migration_metrics_missing_column
    (float_sum : float_width → list pyfloat → pyfloat)
    (object_sum : list (option str) → result cell)
    (compute_others : DataFrame → str → str → str → result utils.other_metrics)
    w df d origin_col destination_col migration_col :
  heap w !! df = Some d →
  migration_col ∉ columns d →
  utils.calculate_migration_metrics float_sum object_sum compute_others
    df origin_col destination_col migration_col w
  = (Raise (KeyError migration_col), w).
Proof.
  intros Hd Hnot.
  pose proof (wp_run _ _ _ (calculate_migration_metrics_reads float_sum object_sum
                              compute_others df d origin_col destination_col
                              migration_col w Hd)) as [H1 H2].
  destruct (utils.calculate_migration_metrics _ _ _ df _ _ _ w) as [r w1].
  simpl in H1, H2. by rewrite H1, (H2 Hnot).
Qed.

Lemma calculate_migration_metrics_missing_column_witness :
  utils.calculate_migration_metrics (λ _ _, NaN) (λ _, Raise TypeError)
    (λ _ _ _ _, Ok no_other_metrics)
    1%positive (lit "origin") (lit "destination") (lit "count") example_world
  = (Raise (KeyError (lit "count")), example_world).
Proof.
  apply (calculate_migration_metrics_missing_column (λ _ _, NaN) (λ _, Raise TypeError)
           (λ _ _ _ _, Ok no_other_metrics) example_world 1%positive example_frame).
  - reflexivity.
  - apply (bool_decide_unpack _). by vm_compute.
Defined.
